(** * Job orchestrator: queue, grouping and scheduling core

    Shallow embedding of [models/Job.js], [services/queueService.js] and
    [services/schedulerService.js].

    - A job record is a Rocq record; the closed string enums of the source
      ([JOB_STATUS], [PRIORITY], [TARGET]) are inductive types, with their
      wire strings given where the code splits or compares strings.
    - The Redis key space is an association list from keys to parsed JSON
      objects; the order of the list is the order in which [KEYS job:*]
      returns the keys.
    - [new Date().toISOString()], the generated job id and the outcome of
      [Math.random()] are explicit arguments.
    - A thrown [Error] is the [Err] branch of [Result]. *)

From Stdlib Require Import ZArith List String Ascii Bool Lia DecimalString.
From Stdlib Require Import Sorting.Sorted Sorting.Permutation.
Import ListNotations.

Open Scope string_scope.
Open Scope Z_scope.

(** ** models/Job.js *)

Inductive JobStatus :=
| QUEUED | SCHEDULED | RUNNING | COMPLETED | FAILED | CANCELLED | RETRYING.

Inductive Priority := LOW | MEDIUM | HIGH.

Inductive Target := EMULATOR | DEVICE | BROWSERSTACK.

Definition JobStatus_eqb (a b : JobStatus) : bool :=
  match a, b with
  | QUEUED, QUEUED | SCHEDULED, SCHEDULED | RUNNING, RUNNING
  | COMPLETED, COMPLETED | FAILED, FAILED | CANCELLED, CANCELLED
  | RETRYING, RETRYING => true
  | _, _ => false
  end.

Definition Priority_eqb (a b : Priority) : bool :=
  match a, b with
  | LOW, LOW | MEDIUM, MEDIUM | HIGH, HIGH => true
  | _, _ => false
  end.

Definition Target_eqb (a b : Target) : bool :=
  match a, b with
  | EMULATOR, EMULATOR | DEVICE, DEVICE | BROWSERSTACK, BROWSERSTACK => true
  | _, _ => false
  end.

(** The wire form of [TARGET]. *)
Definition Target_str (t : Target) : string :=
  match t with
  | EMULATOR => "emulator"
  | DEVICE => "device"
  | BROWSERSTACK => "browserstack"
  end.

(** A JSON object with the keys of [jobSchema]: a submission payload or a
    value read back from Redis.  [None] is an absent (or null) key; for
    [timestamp] it is the absent key, which the schema default fills in (a
    null timestamp is not represented).  The three required strings are plain
    strings; an absent one behaves as the empty string, which the schema
    rejects as well.  The ISO-8601 shape of the date strings is not checked.
    Numbers are integers: [Joi.number()] accepts fractions as well, and a
    record with a fractional [progress], [retry_count] or [max_retries] is
    not represented, so what is proved of [canRetry] and [incrementRetry] is
    proved of integer counters.  With a fraction the two tests of the code,
    [retry_count < max_retries] and [retry_count + 1 > max_retries], can
    both hold; with integers they exclude each other. *)
Record JobData := mkJobData {
  d_org_id : string;
  d_app_version_id : string;
  d_test_path : string;
  d_priority : option Priority;
  d_target : option Target;
  d_timestamp : option string;
  d_job_id : option string;
  d_status : option JobStatus;
  d_progress : option Z;
  d_result : option string;
  d_error : option string;
  d_retry_count : option Z;
  d_max_retries : option Z;
  d_started_at : option string;
  d_completed_at : option string;
  d_device_id : option string;
  d_agent_id : option string;
  d_group_id : option string
}.

(** An instance of [class Job]. *)
Record Job := mkJob {
  job_id : string;
  org_id : string;
  app_version_id : string;
  test_path : string;
  priority : Priority;
  target : Target;
  timestamp : string;
  status : JobStatus;
  progress : Z;
  result : option string;
  error : option string;
  retry_count : Z;
  max_retries : Z;
  started_at : option string;
  completed_at : option string;
  device_id : option string;
  agent_id : option string;
  group_id : option string
}.

Definition nonempty (s : string) : bool :=
  match s with EmptyString => false | String _ _ => true end.

Definition len_between (lo hi : nat) (s : string) : bool :=
  (Nat.leb lo (String.length s) && Nat.leb (String.length s) hi)%bool.

Definition opt_all {A} (p : A -> bool) (o : option A) : bool :=
  match o with Some a => p a | None => true end.

(** [jobSchema.validate]: the constraints of the schema that the types above
    do not already enforce.  [Joi.string()] rejects the empty string. *)
Definition validate (d : JobData) : bool :=
  (len_between 1 100 (d_org_id d)
   && len_between 1 100 (d_app_version_id d)
   && nonempty (d_test_path d)
   && opt_all nonempty (d_job_id d)
   && opt_all (fun p => (0 <=? p) && (p <=? 100)) (d_progress d)
   && opt_all (fun n => 0 <=? n) (d_retry_count d)
   && opt_all (fun n => 1 <=? n) (d_max_retries d)
   && opt_all nonempty (d_device_id d)
   && opt_all nonempty (d_agent_id d)
   && opt_all nonempty (d_group_id d))%bool.

(** [v || dflt] on an optional number: 0 is falsy. *)
Definition or_num (v : option Z) (dflt : Z) : Z :=
  match v with
  | Some n => if n =? 0 then dflt else n
  | None => dflt
  end.

(** [v || null] on an optional string: the empty string is falsy. *)
Definition or_null (v : option string) : option string :=
  match v with
  | Some s => if nonempty s then Some s else None
  | None => None
  end.

Definition or_default {A} (v : option A) (dflt : A) : A :=
  match v with Some a => a | None => dflt end.

(** [Job.create(data)], that is [new Job(data)].  [now] is the clock and
    [fresh] the generated [job_<ms>_<uuid8>] that the schema defaults use;
    [None] is the thrown validation error. *)
Definition Job_create (now fresh : string) (d : JobData) : option Job :=
  if validate d then
    Some {| job_id := or_default (d_job_id d) fresh;
            org_id := d_org_id d;
            app_version_id := d_app_version_id d;
            test_path := d_test_path d;
            priority := or_default (d_priority d) MEDIUM;
            target := or_default (d_target d) EMULATOR;
            timestamp := or_default (d_timestamp d) now;
            status := or_default (d_status d) QUEUED;
            progress := or_num (d_progress d) 0;
            result := or_null (d_result d);
            error := or_null (d_error d);
            retry_count := or_num (d_retry_count d) 0;
            max_retries := or_num (d_max_retries d) 3;
            started_at := or_null (d_started_at d);
            completed_at := or_null (d_completed_at d);
            device_id := or_null (d_device_id d);
            agent_id := or_null (d_agent_id d);
            group_id := or_null (d_group_id d) |}
  else None.

(** The [additionalData] argument of [updateStatus]: the keys that the call
    sites pass.  [None] is an absent key, [Some None] the value [null]. *)
Record Extra := mkExtra {
  x_result : option (option string);
  x_error : option (option string);
  x_device_id : option (option string);
  x_agent_id : option (option string)
}.

Definition no_extra : Extra := mkExtra None None None None.

(** One key of [Object.assign(this, additionalData)]. *)
Definition assign {A} (x : option A) (old : A) : A :=
  match x with Some v => v | None => old end.

(** [!v] on an optional string: [null] and the empty string are falsy. *)
Definition falsy (o : option string) : bool :=
  match or_null o with None => true | Some _ => false end.

(** [Job.prototype.updateStatus(status, additionalData)]; the status is
    always a member of [JOB_STATUS] here, so the method never throws. *)
Definition updateStatus (now : string) (st : JobStatus) (x : Extra) (j : Job) : Job :=
  {| job_id := job_id j;
     org_id := org_id j;
     app_version_id := app_version_id j;
     test_path := test_path j;
     priority := priority j;
     target := target j;
     timestamp := timestamp j;
     status := st;
     progress := progress j;
     result := assign (x_result x) (result j);
     error := assign (x_error x) (error j);
     retry_count := retry_count j;
     max_retries := max_retries j;
     started_at :=
       if (JobStatus_eqb st RUNNING && falsy (started_at j))%bool
       then Some now else started_at j;
     completed_at :=
       if (JobStatus_eqb st COMPLETED || JobStatus_eqb st FAILED)%bool
       then Some now else completed_at j;
     device_id := assign (x_device_id x) (device_id j);
     agent_id := assign (x_agent_id x) (agent_id j);
     group_id := group_id j |}.

Definition set_retry_count (n : Z) (j : Job) : Job :=
  {| job_id := job_id j; org_id := org_id j;
     app_version_id := app_version_id j; test_path := test_path j;
     priority := priority j; target := target j; timestamp := timestamp j;
     status := status j; progress := progress j; result := result j;
     error := error j; retry_count := n; max_retries := max_retries j;
     started_at := started_at j; completed_at := completed_at j;
     device_id := device_id j; agent_id := agent_id j;
     group_id := group_id j |}.

Definition set_progress (p : Z) (j : Job) : Job :=
  {| job_id := job_id j; org_id := org_id j;
     app_version_id := app_version_id j; test_path := test_path j;
     priority := priority j; target := target j; timestamp := timestamp j;
     status := status j; progress := p; result := result j;
     error := error j; retry_count := retry_count j;
     max_retries := max_retries j;
     started_at := started_at j; completed_at := completed_at j;
     device_id := device_id j; agent_id := agent_id j;
     group_id := group_id j |}.

(** The decimal form of a number inside a template string. *)
Definition show (n : Z) : string := NilZero.string_of_int (Z.to_int n).

Definition incrementRetry (now : string) (j : Job) : Job :=
  let j1 := set_retry_count (retry_count j + 1) j in
  if max_retries j1 <? retry_count j1 then
    updateStatus now FAILED
      (mkExtra None
         (Some (Some ("Max retries (" ++ show (max_retries j1) ++ ") exceeded")))
         None None) j1
  else updateStatus now RETRYING no_extra j1.

Definition canRetry (j : Job) : bool :=
  ((retry_count j <? max_retries j)
   && (JobStatus_eqb (status j) FAILED || JobStatus_eqb (status j) RETRYING))%bool.

Definition priorityScore (p : Priority) : Z :=
  match p with LOW => 1 | MEDIUM => 2 | HIGH => 3 end.

Definition getPriorityScore (j : Job) : Z := priorityScore (priority j).

Definition getGroupId (j : Job) : string :=
  org_id j ++ "_" ++ app_version_id j ++ "_" ++ Target_str (target j).

(** [toJSON] writes no [max_retries] key. *)
Definition toJSON (j : Job) : JobData :=
  {| d_org_id := org_id j;
     d_app_version_id := app_version_id j;
     d_test_path := test_path j;
     d_priority := Some (priority j);
     d_target := Some (target j);
     d_timestamp := Some (timestamp j);
     d_job_id := Some (job_id j);
     d_status := Some (status j);
     d_progress := Some (progress j);
     d_result := result j;
     d_error := error j;
     d_retry_count := Some (retry_count j);
     d_max_retries := None;
     d_started_at := started_at j;
     d_completed_at := completed_at j;
     d_device_id := device_id j;
     d_agent_id := agent_id j;
     d_group_id := group_id j |}.

(** ** The Redis key space *)

Definition Store := list (string * JobData).

Definition redis_keys (s : Store) : list string := map fst s.

Fixpoint redis_get (k : string) (s : Store) : option JobData :=
  match s with
  | [] => None
  | (k', v) :: r => if String.eqb k' k then Some v else redis_get k r
  end.

Fixpoint redis_set (k : string) (v : JobData) (s : Store) : Store :=
  match s with
  | [] => [(k, v)]
  | (k', v') :: r =>
      if String.eqb k' k then (k, v) :: r else (k', v') :: redis_set k v r
  end.

(** ** Built-ins of the language *)

(** [Array.prototype.sort(cmp)]: the stable sort by a comparator that returns
    a negative, zero or positive number. *)
Fixpoint sort_insert {A} (cmp : A -> A -> Z) (x : A) (l : list A) : list A :=
  match l with
  | [] => [x]
  | y :: r => if cmp x y <=? 0 then x :: y :: r else y :: sort_insert cmp x r
  end.

Fixpoint array_sort {A} (cmp : A -> A -> Z) (l : list A) : list A :=
  match l with
  | [] => []
  | x :: r => sort_insert cmp x (array_sort cmp r)
  end.

(** [String.prototype.split(sep)] for a one-character separator: [acc] holds
    the characters of the current piece, last first. *)
Fixpoint rev_string (acc : list ascii) (tail : string) : string :=
  match acc with
  | [] => tail
  | c :: r => rev_string r (String c tail)
  end.

Fixpoint split_from (sep : ascii) (acc : list ascii) (s : string) : list string :=
  match s with
  | EmptyString => [rev_string acc EmptyString]
  | String c r =>
      if Ascii.eqb c sep
      then rev_string acc EmptyString :: split_from sep [] r
      else split_from sep (c :: acc) r
  end.

Definition split (sep : ascii) (s : string) : list string := split_from sep [] s.

Definition underscore : ascii := "_"%char.

(** [const [orgId, appVersionId, target] = groupId.split('_')]: a missing
    element is [undefined]. *)
Definition parseGroupId (groupId : string)
  : option string * option string * option string :=
  let parts := split underscore groupId in
  (nth_error parts 0, nth_error parts 1, nth_error parts 2).

(** ** services/queueService.js *)

(** What a call reads from its surroundings: [new Date().toISOString()],
    [Date.now()] and [uuidv4()]. *)
Record Env := mkEnv { clock : string; date_now : Z; uuid : string }.

(** The schema default [`job_${Date.now()}_${uuidv4().substr(0, 8)}`]. *)
Definition gen_id (e : Env) : string :=
  "job_" ++ show (date_now e) ++ "_" ++ substring 0 8 (uuid e).

Inductive Error :=
| JobNotFound        (* 'Job not found' *)
| CannotCancel       (* 'Cannot cancel completed or failed job' *)
| CannotRetry        (* 'Job cannot be retried' *)
| ValidationFailed.  (* 'Job validation failed: ...' *)

Inductive Result (A : Type) :=
| Ok (a : A)
| Err (e : Error).
Arguments Ok {A} a.
Arguments Err {A} e.

Record Response := mkResponse {
  r_job_id : string;
  r_status : JobStatus;
  r_message : string
}.

Definition jobKey (id : string) : string := "job:" ++ id.

Definition create (e : Env) (d : JobData) : option Job :=
  Job_create (clock e) (gen_id e) d.

Definition storeJob (s : Store) (j : Job) : Store :=
  redis_set (jobKey (job_id j)) (toJSON j) s.

(** [getJob]: a missing key and a record that does not validate both give
    [null]. *)
Definition getJob (e : Env) (s : Store) (jobId : string) : option Job :=
  match redis_get (jobKey jobId) s with
  | Some d => create e d
  | None => None
  end.

Definition updateJob (s : Store) (j : Job) : Store := storeJob s j.

Definition opt_eqb {A} (eqb : A -> A -> bool) (a b : option A) : bool :=
  match a, b with
  | Some x, Some y => eqb x y
  | None, None => true
  | _, _ => false
  end.

Definition status_is (d : JobData) (st : JobStatus) : bool :=
  opt_eqb JobStatus_eqb (d_status d) (Some st).

(** The condition of the [if] in [findDuplicateJob]. *)
Definition same_submission (existing d : JobData) : bool :=
  (String.eqb (d_org_id existing) (d_org_id d)
   && String.eqb (d_app_version_id existing) (d_app_version_id d)
   && String.eqb (d_test_path existing) (d_test_path d)
   && opt_eqb Target_eqb (d_target existing) (d_target d)
   && (status_is existing QUEUED || status_is existing SCHEDULED
       || status_is existing RUNNING))%bool.

(** The loop of [findDuplicateJob] over the keys; the first match returns,
    and a throw of [Job.create] there is caught and gives [null]. *)
Fixpoint findDuplicate_loop (e : Env) (s : Store) (keys : list string)
    (d : JobData) : option Job :=
  match keys with
  | [] => None
  | k :: ks =>
      match redis_get k s with
      | Some existing =>
          if same_submission existing d then create e existing
          else findDuplicate_loop e s ks d
      | None => findDuplicate_loop e s ks d
      end
  end.

Definition findDuplicateJob (e : Env) (s : Store) (d : JobData) : option Job :=
  findDuplicate_loop e s (redis_keys s) d.

Definition msg_duplicate : string := "Job already exists with same parameters".
Definition msg_queued : string := "Job queued successfully".

Definition addJob (e : Env) (s : Store) (d : JobData) : Store * Result Response :=
  match findDuplicateJob e s d with
  | Some dup => (s, Ok (mkResponse (job_id dup) (status dup) msg_duplicate))
  | None =>
      match create e d with
      | Some j => (storeJob s j, Ok (mkResponse (job_id j) (status j) msg_queued))
      | None => (s, Err ValidationFailed)
      end
  end.

(** The loop of [getJobs]; [None] is a throw of [Job.create]. *)
Fixpoint getJobs_loop (e : Env) (s : Store) (keys : list string)
    (orgId : string) (st : option JobStatus) : option (list Job) :=
  match keys with
  | [] => Some []
  | k :: ks =>
      match redis_get k s with
      | Some d =>
          if (String.eqb (d_org_id d) orgId
              && match st with
                 | None => true
                 | Some x => status_is d x
                 end)%bool
          then match create e d with
               | Some j =>
                   match getJobs_loop e s ks orgId st with
                   | Some js => Some (j :: js)
                   | None => None
                   end
               | None => None
               end
          else getJobs_loop e s ks orgId st
      | None => getJobs_loop e s ks orgId st
      end
  end.

Definition getJobs (e : Env) (s : Store) (orgId : string)
    (st : option JobStatus) : list Job :=
  match getJobs_loop e s (redis_keys s) orgId st with
  | Some js => js
  | None => []
  end.

(** An entry of the [groups] map of [getJobGroups]. *)
Record GroupData := mkGroupData {
  gd_group_id : string;
  gd_org_id : option string;
  gd_app_version_id : option string;
  gd_target : option string;
  gd_jobs : list Job
}.

(** An element of the array that [getJobGroups] returns.  The group status
    literals 'running', 'failed', 'completed' and 'queued' are written as the
    members of [JOB_STATUS] with the same text. *)
Record GroupSummary := mkGroupSummary {
  g_group_id : string;
  g_org_id : option string;
  g_app_version_id : option string;
  g_target : option string;
  g_job_count : nat;
  g_status : JobStatus;
  g_oldest_job : option string;
  g_newest_job : option string
}.

Definition newGroup (groupId : string) : GroupData :=
  let '(orgId, appVersionId, tgt) := parseGroupId groupId in
  mkGroupData groupId orgId appVersionId tgt [].

Definition pushJob (j : Job) (g : GroupData) : GroupData :=
  mkGroupData (gd_group_id g) (gd_org_id g) (gd_app_version_id g)
    (gd_target g) (gd_jobs g ++ [j]).

(** [if (!groups.has(groupId)) groups.set(groupId, {...});
     groups.get(groupId).jobs.push(job)] on a map in insertion order. *)
Fixpoint groups_add (groupId : string) (j : Job) (groups : list GroupData)
  : list GroupData :=
  match groups with
  | [] => [pushJob j (newGroup groupId)]
  | g :: r =>
      if String.eqb (gd_group_id g) groupId then pushJob j g :: r
      else g :: groups_add groupId j r
  end.

Definition done (st : JobStatus) : bool :=
  (JobStatus_eqb st COMPLETED || JobStatus_eqb st FAILED)%bool.

(** The scan of [getJobGroups]; [None] is a throw of [Job.create]. *)
Fixpoint groups_loop (e : Env) (s : Store) (keys : list string)
    (groups : list GroupData) : option (list GroupData) :=
  match keys with
  | [] => Some groups
  | k :: ks =>
      match redis_get k s with
      | Some d =>
          match create e d with
          | Some j =>
              if done (status j) then groups_loop e s ks groups
              else groups_loop e s ks (groups_add (getGroupId j) j groups)
          | None => None
          end
      | None => groups_loop e s ks groups
      end
  end.

Definition getGroupStatus (jobs : list Job) : JobStatus :=
  if existsb (fun j => JobStatus_eqb (status j) RUNNING) jobs then RUNNING
  else if existsb (fun j => JobStatus_eqb (status j) FAILED) jobs then FAILED
  else if forallb (fun j => JobStatus_eqb (status j) COMPLETED) jobs then COMPLETED
  else QUEUED.

Definition byPriority (a b : Job) : Z := getPriorityScore b - getPriorityScore a.

Definition summarize (g : GroupData) : GroupSummary :=
  let jobs := array_sort byPriority (gd_jobs g) in
  mkGroupSummary (gd_group_id g) (gd_org_id g) (gd_app_version_id g)
    (gd_target g) (List.length jobs) (getGroupStatus jobs)
    (option_map timestamp (hd_error jobs))
    (option_map timestamp (hd_error (rev jobs))).

(** The map that [getJobGroups] builds before it summarizes it. *)
Definition jobGroups (e : Env) (s : Store) : option (list GroupData) :=
  groups_loop e s (redis_keys s) [].

Definition getJobGroups (e : Env) (s : Store) : list GroupSummary :=
  match jobGroups e s with
  | Some groups => map summarize groups
  | None => []
  end.

Record QueueStats := mkQueueStats {
  waiting : nat;
  active : nat;
  completed : nat;
  failed : nat;
  total : nat;
  groups : nat
}.

Definition count_status (sts : list JobStatus) (s : Store) (keys : list string) : nat :=
  List.length
    (filter (fun k =>
               match redis_get k s with
               | Some d => existsb (status_is d) sts
               | None => false
               end) keys).

Definition getQueueStats (e : Env) (s : Store) : QueueStats :=
  let keys := redis_keys s in
  mkQueueStats (count_status [QUEUED; SCHEDULED] s keys)
    (count_status [RUNNING] s keys)
    (count_status [COMPLETED] s keys)
    (count_status [FAILED] s keys)
    (List.length keys)
    (List.length (getJobGroups e s)).

(** [cancelJob]; the removal from the Bull queue touches no [job:] key. *)
Definition cancelJob (e : Env) (s : Store) (jobId : string) : Store * Result Response :=
  match getJob e s jobId with
  | None => (s, Err JobNotFound)
  | Some j =>
      if done (status j) then (s, Err CannotCancel)
      else
        let j' := updateStatus (clock e) CANCELLED no_extra j in
        (updateJob s j', Ok (mkResponse jobId CANCELLED "Job cancelled successfully"))
  end.

(** [retryJob]; [jobQueue.add] writes Bull's own keys only. *)
Definition retryJob (e : Env) (s : Store) (jobId : string) : Store * Result Response :=
  match getJob e s jobId with
  | None => (s, Err JobNotFound)
  | Some j =>
      if canRetry j then
        let j' := incrementRetry (clock e) j in
        (updateJob s j', Ok (mkResponse jobId (status j') "Job queued for retry"))
      else (s, Err CannotRetry)
  end.

Definition reset_extra : Extra :=
  mkExtra None (Some (Some "Job reset due to server restart"))
    (Some None) (Some None).

(** The loop of [performStartupRecovery]; a throw of [Job.create] leaves the
    loop for the [catch] around it, which keeps what was written so far. *)
Fixpoint recovery_loop (e : Env) (s : Store) (keys : list string) : Store :=
  match keys with
  | [] => s
  | k :: ks =>
      match redis_get k s with
      | Some d =>
          if (status_is d RUNNING || status_is d SCHEDULED)%bool then
            match create e d with
            | Some j =>
                recovery_loop e
                  (storeJob s (updateStatus (clock e) QUEUED reset_extra j)) ks
            | None => s
            end
          else recovery_loop e s ks
      | None => recovery_loop e s ks
      end
  end.

Definition performStartupRecovery (e : Env) (s : Store) : Store :=
  recovery_loop e s (redis_keys s).

(** ** services/schedulerService.js *)

(** The filter and sort shared by [getJobsInGroup] and
    [getScheduledJobsInGroup]; [wanted] is the status that the filter keeps.
    The comparator of the sort reads the same three scores as
    [getPriorityScore]. *)
Definition inGroup (appVersionId tgt : option string) (wanted : JobStatus)
    (j : Job) : bool :=
  (opt_eqb String.eqb (Some (app_version_id j)) appVersionId
   && opt_eqb String.eqb (Some (Target_str (target j))) tgt
   && JobStatus_eqb (status j) wanted)%bool.

Definition groupCandidates (e : Env) (s : Store) (groupId : string)
    (wanted : JobStatus) : list Job :=
  let '(orgId, appVersionId, tgt) := parseGroupId groupId in
  let orgJobs :=
    match orgId with
    | Some o => getJobs e s o None
    | None => []
    end in
  filter (inGroup appVersionId tgt wanted) orgJobs.

Definition getJobsInGroup (e : Env) (s : Store) (groupId : string) : list Job :=
  array_sort byPriority (groupCandidates e s groupId QUEUED).

Definition getScheduledJobsInGroup (e : Env) (s : Store) (groupId : string)
  : list Job :=
  array_sort byPriority (groupCandidates e s groupId SCHEDULED).

(** What happens around one simulated test: the clock and id generator when
    the job is marked running and when the sleep is over, the writes of other
    callers (cancel, retry, submit) while [setTimeout] is pending, and the
    draw [Math.random() > 0.1]. *)
Record Run := mkRun {
  env_start : Env;
  during : Store -> Store;
  success : bool;
  env_end : Env
}.

Definition passed_extra (agentId deviceId : string) : Extra :=
  mkExtra (Some (Some "Test passed successfully")) None
    (Some (Some deviceId)) (Some (Some agentId)).

Definition failed_extra (agentId deviceId : string) : Extra :=
  mkExtra None (Some (Some "Test failed during execution"))
    (Some (Some deviceId)) (Some (Some agentId)).

Definition simulateTestExecution (s : Store) (job : Job)
    (agentId deviceId : string) (r : Run) : Store :=
  match getJob (env_start r) s (job_id job) with
  | None => s
  | Some storedJob =>
      if done (status storedJob) then s
      else
        let s1 := during r s in
        match getJob (env_end r) s1 (job_id job) with
        | None => s1
        | Some currentJob =>
            if done (status currentJob) then s1
            else if success r then
              updateJob s1
                (updateStatus (clock (env_end r)) COMPLETED
                   (passed_extra agentId deviceId) currentJob)
            else
              updateJob s1
                (updateStatus (clock (env_end r)) FAILED
                   (failed_extra agentId deviceId) currentJob)
        end
  end.

(** [Math.round(((i + 1) / n) * 100)], taken on exact rationals: the
    nearest integer, halves upwards. *)
Definition progressAt (i n : nat) : Z :=
  (200 * (Z.of_nat i + 1) + Z.of_nat n) / (2 * Z.of_nat n).

(** The first statement group of the loop body of [executeTests]. *)
Definition markRunning (s : Store) (job : Job) (agentId deviceId : string)
    (r : Run) : Store :=
  match getJob (env_start r) s (job_id job) with
  | Some storedJob =>
      updateJob s
        (updateStatus (clock (env_start r)) RUNNING
           (mkExtra None None (Some (Some deviceId)) (Some (Some agentId)))
           storedJob)
  | None => s
  end.

(** The last statement group of the loop body of [executeTests]. *)
Definition updateProgress (s : Store) (job : Job) (i n : nat) (r : Run) : Store :=
  match getJob (env_end r) s (job_id job) with
  | Some currentJob =>
      if JobStatus_eqb (status currentJob) RUNNING
      then updateJob s (set_progress (progressAt i n) currentJob)
      else s
  | None => s
  end.

Definition executeOne (s : Store) (job : Job) (agentId deviceId : string)
    (i n : nat) (r : Run) : Store :=
  let s1 := markRunning s job agentId deviceId r in
  let s2 := simulateTestExecution s1 job agentId deviceId r in
  updateProgress s2 job i n r.

(** The loop of [executeTests] from index [i] on; [n] is [jobs.length] and
    [runs] gives the surroundings of each iteration in turn.  The store never
    throws here, so the [catch] branch is not reached, and the bookkeeping on
    [device] and [agent] writes no job record. *)
Fixpoint executeTests_from (s : Store) (agentId deviceId : string)
    (i n : nat) (jobs : list Job) (runs : list Run) : Store :=
  match jobs, runs with
  | job :: jobs', r :: runs' =>
      executeTests_from (executeOne s job agentId deviceId i n r)
        agentId deviceId (S i) n jobs' runs'
  | _, _ => s
  end.

Definition executeTests (s : Store) (agentId deviceId : string)
    (jobs : list Job) (runs : list Run) : Store :=
  executeTests_from s agentId deviceId 0 (List.length jobs) jobs runs.

(** ** Predicates used in the statements *)

(** A job whose serialization passes the schema again. *)
Definition Job_ok (j : Job) : Prop := validate (toJSON j) = true.

(** What [Job.create(job.toJSON())] returns: [max_retries] is not stored and
    comes back as the default, and the [||] defaults are applied again. *)
Definition reload (j : Job) : Job :=
  {| job_id := job_id j; org_id := org_id j;
     app_version_id := app_version_id j; test_path := test_path j;
     priority := priority j; target := target j; timestamp := timestamp j;
     status := status j; progress := progress j;
     result := or_null (result j); error := or_null (error j);
     retry_count := retry_count j; max_retries := 3;
     started_at := or_null (started_at j);
     completed_at := or_null (completed_at j);
     device_id := or_null (device_id j); agent_id := or_null (agent_id j);
     group_id := or_null (group_id j) |}.

(** The string fields of a created job are [null] or non-empty. *)
Definition normal (j : Job) : Prop :=
  or_null (result j) = result j /\ or_null (error j) = error j /\
  or_null (started_at j) = started_at j /\
  or_null (completed_at j) = completed_at j /\
  or_null (device_id j) = device_id j /\ or_null (agent_id j) = agent_id j /\
  or_null (group_id j) = group_id j.

(** The values that a call site passes for [device_id] and [agent_id] pass
    the schema. *)
Definition extra_ok (x : Extra) : Prop :=
  (forall v, x_device_id x = Some (Some v) -> nonempty v = true) /\
  (forall v, x_agent_id x = Some (Some v) -> nonempty v = true).

(** A job as [getJob] returns it under its own id. *)
Definition stored (e : Env) (s : Store) (j : Job) : Prop :=
  getJob e s (job_id j) = Some j.

(** A predicate on every stored value. *)
Definition store_all (p : JobData -> bool) (s : Store) : bool :=
  forallb (fun kv => p (snd kv)) s.

(** Every stored record with a [progress] key has it within 0..100. *)
Definition progress_bounded (s : Store) : bool :=
  store_all (fun d => opt_all (fun p => (0 <=? p) && (p <=? 100))%bool (d_progress d)) s.

(** A record that passes the schema and sits under the key of its own
    [job_id], as every record written by [storeJob] does. *)
Definition record_wf (kv : string * JobData) : bool :=
  (validate (snd kv)
   && opt_eqb String.eqb (option_map jobKey (d_job_id (snd kv))) (Some (fst kv)))%bool.

Definition store_wf (s : Store) : bool := forallb record_wf s.

(** What startup recovery does to one record. *)
Definition reset_record (e : Env) (d : JobData) : JobData :=
  if (status_is d RUNNING || status_is d SCHEDULED)%bool then
    match create e d with
    | Some j => toJSON (updateStatus (clock e) QUEUED reset_extra j)
    | None => d
    end
  else d.

(** The (group id, member) pairs of a group map. *)
Definition members (gs : list GroupData) : list (string * Job) :=
  flat_map (fun g => map (fun j => (gd_group_id g, j)) (gd_jobs g)) gs.

(** A job that a scan of the key space creates from some record. *)
Definition scanned (e : Env) (s : Store) (j : Job) : Prop :=
  exists k d, In k (redis_keys s) /\ redis_get k s = Some d /\ create e d = Some j.

(** [a] may stand before [b] in a list sorted by priority, high first. *)
Definition prio_ge (a b : Job) : Prop := getPriorityScore b <= getPriorityScore a.

Definition has_priority (p : Priority) (j : Job) : bool := Priority_eqb (priority j) p.

(** [a] may stand before [b] in a list sorted by priority, high first, and
    by timestamp, early first, among equal priorities; ISO-8601 timestamps
    compare as strings. *)
Definition before_prio_time (a b : Job) : bool :=
  ((getPriorityScore b <? getPriorityScore a)
   || ((getPriorityScore a =? getPriorityScore b)
       && String.leb (timestamp a) (timestamp b)))%bool.

Fixpoint sorted_by {A} (ord : A -> A -> bool) (l : list A) : bool :=
  match l with
  | [] => true
  | x :: r => (forallb (ord x) r && sorted_by ord r)%bool
  end.

(** The character [c] occurs in [s]. *)
Fixpoint has_char (c : ascii) (s : string) : bool :=
  match s with
  | EmptyString => false
  | String x r => (Ascii.eqb x c || has_char c r)%bool
  end.

(** ** Sample data *)

Definition env0 : Env :=
  mkEnv "2024-05-01T10:00:00.000Z" 1714557600000 "3f2a9c1e-7b4d-4e8a-9c2b-5d6e7f8a9b0c".
Definition env1 : Env :=
  mkEnv "2024-05-01T10:00:05.000Z" 1714557605000 "a81bc04d-11e2-4c3f-8d5a-0b1c2d3e4f5a".
Definition env2 : Env :=
  mkEnv "2024-05-01T10:00:08.000Z" 1714557608000 "c7d9e2f1-6a5b-4c3d-9e8f-1a2b3c4d5e6f".

(** A submission with the required keys only, and a target. *)
Definition submission (org app test : string) (tgt : Target) : JobData :=
  mkJobData org app test None (Some tgt) None None None None None None None
    None None None None None None.

Definition id0 : string := "job_1714557600000_3f2a9c1e".
Definition id1 : string := "job_1714557605000_a81bc04d".

(** The job that the first submission into an empty key space creates. *)
Definition job0 : Job :=
  mkJob id0 "acme" "v1" "a.spec" MEDIUM EMULATOR "2024-05-01T10:00:00.000Z"
    QUEUED 0 None None 0 3 None None None None None.

Definition store0 : Store :=
  fst (addJob env0 [] (submission "acme" "v1" "a.spec" EMULATOR)).

(** A test that passes while nobody else writes. *)
Definition run_quiet : Run := mkRun env1 (fun s => s) true env2.

(** A test that passes while [DELETE /api/jobs/:jobId] cancels the job. *)
Definition run_cancelled : Run :=
  mkRun env1 (fun s => fst (cancelJob env1 s id0)) true env2.

(** A submission that carries execution state under the id of [job0]. *)
Definition import_failed : JobData :=
  mkJobData "acme" "v1" "b.spec" None (Some EMULATOR) None (Some id0)
    (Some FAILED) None None (Some "imported") None None None None None None None.

(** A test that passes while a submission overwrites the record. *)
Definition run_overwritten : Run :=
  mkRun env1 (fun s => fst (addJob env1 s import_failed)) true env2.

(** A test that fails while nobody else writes, and the key space after the
    scheduler has run [job0] through it. *)
Definition run_failing : Run := mkRun env1 (fun s => s) false env2.

Definition store_failed : Store :=
  executeOne store0 job0 "agent-1" "emulator-1" 0 1 run_failing.

(** The key space while the scheduler has [job0] running. *)
Definition store_running : Store :=
  markRunning store0 job0 "agent-1" "emulator-1" run_quiet.

Definition job_running : Job :=
  mkJob id0 "acme" "v1" "a.spec" MEDIUM EMULATOR "2024-05-01T10:00:00.000Z"
    RUNNING 0 None None 0 3 (Some "2024-05-01T10:00:05.000Z") None
    (Some "emulator-1") (Some "agent-1") None.

Definition job_failed : Job :=
  mkJob id0 "acme" "v1" "a.spec" MEDIUM EMULATOR "2024-05-01T10:00:00.000Z"
    FAILED 0 None (Some "Test failed during execution") 0 3
    (Some "2024-05-01T10:00:05.000Z") (Some "2024-05-01T10:00:08.000Z")
    (Some "emulator-1") (Some "agent-1") None.

(** A submission that carries execution state, as the schema allows. *)
Definition import_completed : JobData :=
  mkJobData "acme" "v2" "c.spec" None (Some EMULATOR) None None
    (Some COMPLETED) (Some 100) (Some "ok") None (Some 2) None None None None
    None None.

(** The key space after [job0] was cancelled while queued. *)
Definition store_cancelled : Store := fst (cancelJob env1 store0 id0).

Definition job_cancelled : Job :=
  mkJob id0 "acme" "v1" "a.spec" MEDIUM EMULATOR "2024-05-01T10:00:00.000Z"
    CANCELLED 0 None None 0 3 None None None None None.

(** A submission as the command line client sends it, with its own
    timestamp and job id. *)
Definition submission_at (org app test : string) (tgt : Target)
    (ts id : string) : JobData :=
  mkJobData org app test None (Some tgt) (Some ts) (Some id) None None None
    None None None None None None None None.

(** Two queued jobs of one group and one priority; the record that the scan
    meets first carries the later timestamp. *)
Definition store_two : Store :=
  fst (addJob env1
         (fst (addJob env0 []
                 (submission_at "acme" "v1" "a.spec" EMULATOR
                    "2024-05-01T10:00:03.000Z" "job_late")))
         (submission_at "acme" "v1" "b.spec" EMULATOR
            "2024-05-01T10:00:01.000Z" "job_early")).

(** A queued job of an organization with an underscore in its id. *)
Definition job_under : Job :=
  mkJob id0 "my_org" "v1" "a.spec" MEDIUM EMULATOR "2024-05-01T10:00:00.000Z"
    QUEUED 0 None None 0 3 None None None None None.

Definition store_under : Store :=
  fst (addJob env0 [] (submission "my_org" "v1" "a.spec" EMULATOR)).

Definition job_cancelled_running : Job :=
  mkJob id0 "acme" "v1" "a.spec" MEDIUM EMULATOR "2024-05-01T10:00:00.000Z"
    CANCELLED 0 None None 0 3 (Some "2024-05-01T10:00:05.000Z") None
    (Some "emulator-1") (Some "agent-1") None.

Definition job_imported : Job :=
  mkJob id0 "acme" "v1" "b.spec" MEDIUM EMULATOR "2024-05-01T10:00:05.000Z"
    FAILED 0 None (Some "imported") 0 3 None None None None None.

(** A submission that carries a progress of 100 and no status. *)
Definition import_progress : JobData :=
  mkJobData "acme" "v3" "d.spec" None (Some EMULATOR) None None None
    (Some 100) None None None None None None None None None.

(** * The rest of the services *)

(** ** The agents and devices of the scheduler *)

Inductive DeviceStatus := AVAILABLE | BUSY.

(** The two values that the code gives to [agent.status]. *)
Inductive AgentStatus := ONLINE | AGENT_BUSY.

(** A device object; [None] is a [current_jobs] that was never assigned. *)
Record Device := mkDevice {
  dev_id : string;
  dev_type : Target;
  dev_status : DeviceStatus;
  dev_target : Target;
  dev_agent_id : string;
  dev_current_jobs : option (list string)
}.

Record Agent := mkAgent {
  ag_id : string;
  ag_status : AgentStatus;
  ag_devices : list Device
}.

(** [this.agents], in insertion order.  An agent or device object is named
    by its position, so that a write to [device.status] reaches the very
    object that the search returned. *)
Definition Pool := list Agent.

Definition DeviceStatus_eqb (a b : DeviceStatus) : bool :=
  match a, b with
  | AVAILABLE, AVAILABLE | BUSY, BUSY => true
  | _, _ => false
  end.

Definition mockDevice (id : string) (t : Target) (agentId : string) : Device :=
  mkDevice id t AVAILABLE t agentId None.

(** The [agentList] of [initializeMockAgentsAndDevices]. *)
Definition mockAgents : Pool :=
  [ mkAgent "agent-1" ONLINE
      [ mockDevice "emulator-1" EMULATOR "agent-1";
        mockDevice "device-1" DEVICE "agent-1" ];
    mkAgent "agent-2" ONLINE
      [ mockDevice "emulator-2" EMULATOR "agent-2";
        mockDevice "device-2" DEVICE "agent-2";
        mockDevice "browserstack-1" BROWSERSTACK "agent-2";
        mockDevice "browserstack-2" BROWSERSTACK "agent-2" ];
    mkAgent "agent-3" ONLINE
      [ mockDevice "emulator-3" EMULATOR "agent-3";
        mockDevice "device-3" DEVICE "agent-3";
        mockDevice "browserstack-3" BROWSERSTACK "agent-3" ];
    mkAgent "agent-4" ONLINE
      [ mockDevice "emulator-4" EMULATOR "agent-4";
        mockDevice "device-4" DEVICE "agent-4" ];
    mkAgent "agent-5" ONLINE
      [ mockDevice "emulator-5" EMULATOR "agent-5";
        mockDevice "device-5" DEVICE "agent-5";
        mockDevice "browserstack-4" BROWSERSTACK "agent-5";
        mockDevice "browserstack-5" BROWSERSTACK "agent-5" ] ].

(** The position of the first element that satisfies [p]:
    [Array.prototype.find] and the early [return] of a [for] loop. *)
Fixpoint find_index {A} (p : A -> bool) (l : list A) : option nat :=
  match l with
  | [] => None
  | x :: r => if p x then Some 0%nat else option_map S (find_index p r)
  end.

(** The test of the inner loop of [findAvailableAgentAndDevice]; the target
    of a group is a part of its split id and may be [undefined]. *)
Definition deviceFits (tgt : option string) (d : Device) : bool :=
  (DeviceStatus_eqb (dev_status d) AVAILABLE
   && opt_eqb String.eqb (Some (Target_str (dev_target d))) tgt)%bool.

Definition isOnline (a : Agent) : bool :=
  match ag_status a with ONLINE => true | AGENT_BUSY => false end.

(** [findAvailableAgentAndDevice] over the agents from position [i] on. *)
Fixpoint findAvailable_from (i : nat) (agents : list Agent) (tgt : option string)
  : option (nat * nat) :=
  match agents with
  | [] => None
  | a :: r =>
      if isOnline a then
        match find_index (deviceFits tgt) (ag_devices a) with
        | Some di => Some (i, di)
        | None => findAvailable_from (S i) r tgt
        end
      else findAvailable_from (S i) r tgt
  end.

Definition findAvailableAgentAndDevice (p : Pool) (tgt : option string)
  : option (nat * nat) :=
  findAvailable_from 0 p tgt.

(** A write to the element at position [n]. *)
Fixpoint update_nth {A} (n : nat) (f : A -> A) (l : list A) : list A :=
  match l, n with
  | [], _ => []
  | x :: r, O => f x :: r
  | x :: r, S m => x :: update_nth m f r
  end.

Definition setDevice (st : DeviceStatus) (jobs : list string) (d : Device) : Device :=
  mkDevice (dev_id d) (dev_type d) st (dev_target d) (dev_agent_id d) (Some jobs).

Definition allDevices (st : DeviceStatus) (devs : list Device) : bool :=
  forallb (fun d => DeviceStatus_eqb (dev_status d) st) devs.

(** [device.status = 'busy'; device.current_jobs = ids;
     agent.status = agent.devices.every(d => d.status === 'busy') ? 'busy' : 'online']. *)
Definition occupy (di : nat) (ids : list string) (a : Agent) : Agent :=
  let devs := update_nth di (setDevice BUSY ids) (ag_devices a) in
  mkAgent (ag_id a) (if allDevices BUSY devs then AGENT_BUSY else ONLINE) devs.

(** [device.status = 'available'; device.current_jobs = [];
     agent.status = agent.devices.every(d => d.status === 'available') ? 'online' : 'busy']. *)
Definition release (di : nat) (a : Agent) : Agent :=
  let devs := update_nth di (setDevice AVAILABLE []) (ag_devices a) in
  mkAgent (ag_id a) (if allDevices AVAILABLE devs then ONLINE else AGENT_BUSY) devs.

(** The first loop of [assignAgentDeviceAndExecute]: the store after it and
    the [lockedJobs] array. *)
Fixpoint lockJobs (e : Env) (s : Store) (agentId deviceId : string)
    (jobs : list Job) : Store * list Job :=
  match jobs with
  | [] => (s, [])
  | job :: rest =>
      match getJob e s (job_id job) with
      | Some storedJob =>
          if JobStatus_eqb (status storedJob) QUEUED then
            let locked :=
              updateStatus (clock e) SCHEDULED
                (mkExtra None None (Some (Some deviceId)) (Some (Some agentId)))
                storedJob in
            let '(s', l) := lockJobs e (updateJob s locked) agentId deviceId rest in
            (s', locked :: l)
          else if JobStatus_eqb (status storedJob) SCHEDULED then
            if opt_eqb String.eqb (agent_id storedJob) (Some agentId) then
              let '(s', l) := lockJobs e s agentId deviceId rest in
              (s', storedJob :: l)
            else lockJobs e s agentId deviceId rest
          else lockJobs e s agentId deviceId rest
      | None => lockJobs e s agentId deviceId rest
      end
  end.

(** The surroundings of the simulated tests of a scheduler run: the [k]-th
    test that the scheduler starts meets [runs k]. *)
Definition Runs := nat -> Run.

(** [assignAgentDeviceAndExecute(agent, device, jobs)] for the agent at
    position [ai] and its device at position [di], followed by
    [executeTests]; [k] counts the tests started so far.  The store never
    throws here, so neither [catch] is reached. *)
Definition assignAgentDeviceAndExecute (e : Env) (s : Store) (p : Pool)
    (ai di : nat) (jobs : list Job) (runs : Runs) (k : nat)
  : Store * Pool * nat :=
  match nth_error p ai with
  | None => (s, p, k)
  | Some agent =>
      match nth_error (ag_devices agent) di with
      | None => (s, p, k)
      | Some device =>
          let '(s1, lockedJobs) := lockJobs e s (ag_id agent) (dev_id device) jobs in
          match lockedJobs with
          | [] => (s1, p, k)
          | _ :: _ =>
              let p1 := update_nth ai (occupy di (map job_id lockedJobs)) p in
              let s2 :=
                executeTests s1 (ag_id agent) (dev_id device) lockedJobs
                  (map runs (seq k (List.length lockedJobs))) in
              (s2, update_nth ai (release di) p1, (k + List.length lockedJobs)%nat)
          end
      end
  end.

(** [processJobGroup(group)]. *)
Definition processJobGroup (e : Env) (s : Store) (p : Pool) (g : GroupSummary)
    (runs : Runs) (k : nat) : Store * Pool * nat :=
  let fresh :=
    match findAvailableAgentAndDevice p (g_target g) with
    | None => (s, p, k)
    | Some (ai, di) =>
        match getJobsInGroup e s (g_group_id g) with
        | [] => (s, p, k)
        | jobs => assignAgentDeviceAndExecute e s p ai di jobs runs k
        end
    end in
  match getScheduledJobsInGroup e s (g_group_id g) with
  | [] => fresh
  | first :: others =>
      match find_index (fun a => opt_eqb String.eqb (Some (ag_id a)) (agent_id first)) p with
      | None => fresh
      | Some ai =>
          match nth_error p ai with
          | None => fresh
          | Some agent =>
              match find_index
                      (fun d => opt_eqb String.eqb (Some (dev_id d)) (device_id first))
                      (ag_devices agent) with
              | None => fresh
              | Some di =>
                  match nth_error (ag_devices agent) di with
                  | Some device =>
                      if DeviceStatus_eqb (dev_status device) AVAILABLE
                      then assignAgentDeviceAndExecute e s p ai di
                             (first :: others) runs k
                      else fresh
                  | None => fresh
                  end
              end
          end
      end
  end.

(** The loop of [processJobQueue] over the groups. *)
Fixpoint processGroups (e : Env) (s : Store) (p : Pool)
    (gs : list GroupSummary) (runs : Runs) (k : nat) : Store * Pool * nat :=
  match gs with
  | [] => (s, p, k)
  | g :: rest =>
      match g_status g with
      | QUEUED | RUNNING =>
          let '(s', p', k') := processJobGroup e s p g runs k in
          processGroups e s' p' rest runs k'
      | _ => processGroups e s p rest runs k
      end
  end.

(** [processJobQueue]: one run of the scheduler. *)
Definition processJobQueue (e : Env) (s : Store) (p : Pool) (runs : Runs)
    (k : nat) : Store * Pool * nat :=
  if Nat.eqb (waiting (getQueueStats e s)) 0 then (s, p, k)
  else processGroups e s p (getJobGroups e s) runs k.

(** ** Further predicates and sample data *)

(** The keys whose record is counted by none of the four counters of
    [getQueueStats]. *)
Definition count_uncounted (s : Store) (keys : list string) : nat :=
  List.length
    (filter (fun k =>
               match redis_get k s with
               | Some d =>
                   negb (existsb (status_is d)
                           [QUEUED; SCHEDULED; RUNNING; COMPLETED; FAILED])
               | None => false
               end) keys).

(** A submission that asks for five retries. *)
Definition import_retries : JobData :=
  mkJobData "acme" "v4" "e.spec" None (Some EMULATOR) None None None None None
    None None (Some 5) None None None None None.

Definition job_five : Job :=
  mkJob id0 "acme" "v4" "e.spec" MEDIUM EMULATOR "2024-05-01T10:00:00.000Z"
    QUEUED 0 None None 0 5 None None None None None.

(** The group of [job0] as [getJobGroups] reports it. *)
Definition group0 : GroupSummary :=
  mkGroupSummary "acme_v1_emulator" (Some "acme") (Some "v1") (Some "emulator")
    1 QUEUED (Some "2024-05-01T10:00:00.000Z") (Some "2024-05-01T10:00:00.000Z").

(** A submission without a [target] key. *)
Definition submission_no_target : JobData :=
  mkJobData "acme" "v1" "a.spec" None None None None None None None None None
    None None None None None None.

(** Every stored record has a [target] key, as the records that [toJSON]
    writes do. *)
Definition store_targets (s : Store) : bool :=
  store_all (fun d => match d_target d with Some _ => true | None => false end) s.

Definition active_status (st : JobStatus) : bool :=
  match st with QUEUED | SCHEDULED | RUNNING => true | _ => false end.

(** [retryJob] called [n] times in a row on one job. *)
Fixpoint retryTimes (n : nat) (e : Env) (s : Store) (id : string) : Store :=
  match n with
  | O => s
  | S m => retryTimes m e (fst (retryJob e s id)) id
  end.

(** The status test of [getJobs] on a stored record: no filter, or the
    [status] key of the record is the wanted one. *)
Definition listed (st : option JobStatus) (d : JobData) : Prop :=
  match st with
  | None => True
  | Some x => d_status d = Some x
  end.

(** The status that [Job.create] gives to a job made from the record. *)
Definition loaded_status (d : JobData) : JobStatus := or_default (d_status d) QUEUED.

(** What the lock loop of [assignAgentDeviceAndExecute] has done when it
    went from the key space [s] to [s'] and collected [locked] for the agent
    [a] and the device [d]. *)
Definition lock_post (e : Env) (a d : string) (s s' : Store) (locked : list Job)
  : Prop :=
  store_wf s' = true /\
  redis_keys s' = redis_keys s /\
  (forall k r, redis_get k s = Some r -> loaded_status r <> QUEUED ->
               redis_get k s' = Some r) /\
  (forall j, In j locked ->
     exists j0 j',
       getJob e s (job_id j) = Some j0 /\ getJob e s' (job_id j) = Some j' /\
       status j' = SCHEDULED /\ agent_id j' = Some a /\
       (status j0 = QUEUED /\ device_id j' = Some d \/
        status j0 = SCHEDULED /\ agent_id j0 = Some a /\ j' = j0)) /\
  (locked = [] -> s' = s).

(** Every agent is online and every device available. *)
Definition pool_idle (p : Pool) : bool :=
  forallb (fun a => (isOnline a && allDevices AVAILABLE (ag_devices a))%bool) p.

(** The ids of the agents and the ids, types, targets and owners of their
    devices. *)
Definition pool_shape (p : Pool)
  : list (string * list (string * Target * Target * string)) :=
  map (fun a =>
         (ag_id a,
          map (fun d => (dev_id d, dev_type d, dev_target d, dev_agent_id d))
            (ag_devices a))) p.

(** No agent id and no device id is the empty string. *)
Definition pool_named (p : Pool) : bool :=
  forallb (fun a =>
             (nonempty (ag_id a)
              && forallb (fun d => nonempty (dev_id d)) (ag_devices a))%bool) p.

(** No test of the scheduler run meets another writer. *)
Definition quiet (runs : Runs) : Prop := forall m st, during (runs m) st = st.

Definition quiet_runs : Runs := fun _ => run_quiet.

(** What [assignAgentDeviceAndExecute] may do to the pool. *)
Definition served (p p' : Pool) : Prop :=
  p' = p \/
  exists ai di ids, p' = update_nth ai (fun a => release di (occupy di ids a)) p.

(** The pool invariants of a run: shape, idleness and names. *)
Definition pool_kept (p p' : Pool) : Prop :=
  pool_shape p' = pool_shape p /\
  (pool_idle p = true -> pool_idle p' = true) /\
  (pool_named p = true -> pool_named p' = true).

(** The retried job of [store_failed] and a second, queued job beside it. *)
Definition job_retrying : Job :=
  mkJob id0 "acme" "v1" "a.spec" MEDIUM EMULATOR "2024-05-01T10:00:00.000Z"
    RETRYING 0 None (Some "Test failed during execution") 1 3
    (Some "2024-05-01T10:00:05.000Z") (Some "2024-05-01T10:00:08.000Z")
    (Some "emulator-1") (Some "agent-1") None.

Definition store_mixed : Store :=
  fst (addJob env2 (fst (retryJob env2 store_failed id0))
         (submission_at "acme" "v1" "b.spec" EMULATOR
            "2024-05-01T10:00:09.000Z" "job_b")).

(** The [status] key of the record is queued, scheduled or running. *)
Definition active_record (d : JobData) : bool :=
  (status_is d QUEUED || status_is d SCHEDULED || status_is d RUNNING)%bool.

(** The four keys that [findDuplicateJob] compares are equal. *)
Definition same_tuple (d1 d2 : JobData) : Prop :=
  d_org_id d1 = d_org_id d2 /\ d_app_version_id d1 = d_app_version_id d2 /\
  d_test_path d1 = d_test_path d2 /\ d_target d1 = d_target d2.

(** No two keys hold active records with the same four keys. *)
Definition unique_active (s : Store) : Prop :=
  forall k1 k2 d1 d2,
    redis_get k1 s = Some d1 -> redis_get k2 s = Some d2 ->
    active_record d1 = true -> active_record d2 = true ->
    same_tuple d1 d2 -> k1 = k2.

(** * Calls that throw *)

(** What the Redis and Bull calls of one request do.  [getJob_fails]: the
    [get] of [getJob] throws, which [getJob] catches.  [scan_fails]: a read
    of [findDuplicateJob] throws before a match is found, which
    [findDuplicateJob] catches.  [store_fails]: [storeJob] throws an error
    with this message, at [set] with nothing written ([false]) or at the
    read-back after the write ([true]).  [queue_fails]: [jobQueue.add]
    throws an error with this message. *)
Record Faults := mkFaults {
  getJob_fails : bool;
  scan_fails : bool;
  store_fails : option (bool * string);
  queue_fails : option string
}.

Definition no_faults : Faults := mkFaults false false None None.

(** A call returns, or throws an [Error] with a message. *)
Inductive Outcome (A : Type) :=
| Returns (a : A)
| Throws (msg : string).
Arguments Returns {A} a.
Arguments Throws {A} msg.

(** [error.message] of the errors the queue service throws itself;
    [details] is Joi's text, which the constructor appends. *)
Definition message (details : string) (err : Error) : string :=
  match err with
  | JobNotFound => "Job not found"
  | CannotCancel => "Cannot cancel completed or failed job"
  | CannotRetry => "Job cannot be retried"
  | ValidationFailed => "Job validation failed: " ++ details
  end.

Definition outcome {A : Type} (details : string) (r : Result A) : Outcome A :=
  match r with
  | Ok a => Returns a
  | Err err => Throws (message details err)
  end.

(** The services once more, with the calls that may throw.  Without faults
    they are [getJob], [storeJob], [cancelJob], [retryJob] and [addJob]. *)
Definition getJob_io (f : Faults) (e : Env) (s : Store) (jobId : string)
  : option Job :=
  if getJob_fails f then None else getJob e s jobId.

Definition storeJob_io (f : Faults) (s : Store) (j : Job) : Store * Outcome unit :=
  match store_fails f with
  | None => (storeJob s j, Returns tt)
  | Some (written, msg) => (if written then storeJob s j else s, Throws msg)
  end.

Definition findDuplicateJob_io (f : Faults) (e : Env) (s : Store) (d : JobData)
  : option Job :=
  if scan_fails f then None else findDuplicateJob e s d.

(** [cancelJob]; what the Bull calls throw is caught and logged. *)
Definition cancelJob_io (f : Faults) (e : Env) (s : Store) (jobId : string)
  : Store * Outcome Response :=
  match getJob_io f e s jobId with
  | None => (s, Throws "Job not found")
  | Some j =>
      if done (status j) then (s, Throws "Cannot cancel completed or failed job")
      else
        match storeJob_io f s (updateStatus (clock e) CANCELLED no_extra j) with
        | (s', Throws msg) => (s', Throws msg)
        | (s', Returns _) =>
            (s', Returns (mkResponse jobId CANCELLED "Job cancelled successfully"))
        end
  end.

(** [retryJob]; [jobQueue.add] comes after the write. *)
Definition retryJob_io (f : Faults) (e : Env) (s : Store) (jobId : string)
  : Store * Outcome Response :=
  match getJob_io f e s jobId with
  | None => (s, Throws "Job not found")
  | Some j =>
      if canRetry j then
        let j' := incrementRetry (clock e) j in
        match storeJob_io f s j' with
        | (s', Throws msg) => (s', Throws msg)
        | (s', Returns _) =>
            match queue_fails f with
            | Some msg => (s', Throws msg)
            | None =>
                (s', Returns (mkResponse jobId (status j') "Job queued for retry"))
            end
        end
      else (s, Throws "Job cannot be retried")
  end.

Definition addJob_io (f : Faults) (e : Env) (s : Store) (details : string)
    (d : JobData) : Store * Outcome Response :=
  match findDuplicateJob_io f e s d with
  | Some dup => (s, Returns (mkResponse (job_id dup) (status dup) msg_duplicate))
  | None =>
      match create e d with
      | Some j =>
          match storeJob_io f s j with
          | (s', Throws msg) => (s', Throws msg)
          | (s', Returns _) =>
              (s', Returns (mkResponse (job_id j) (status j) msg_queued))
          end
      | None => (s, Throws ("Job validation failed: " ++ details))
      end
  end.

(** * The job routes (routes/jobs.js) *)

(** [String.prototype.includes]. *)
Definition includes (sub s : string) : bool :=
  match index 0 sub s with
  | Some _ => true
  | None => false
  end.

(** What [res.json] is given: a service result, or an error object with
    the keys [error], [message], [job_id] and [details]. *)
Inductive Body :=
| JsonResult (r : Response)
| JsonError (error : string) (msg : option string) (job_id : option string)
            (details : option string).

Record HttpResponse := mkHttp {
  h_code : Z;
  h_body : Body
}.

(** [router.post('/')]; [details] is Joi's text for a body that does not
    validate. *)
Definition route_submit (f : Faults) (e : Env) (s : Store) (details : string)
    (d : JobData) : Store * HttpResponse :=
  if validate d then
    match addJob_io f e s details d with
    | (s', Returns r) => (s', mkHttp 201 (JsonResult r))
    | (s', Throws msg) =>
        (s', mkHttp 500 (JsonError "Failed to submit job" (Some msg) None None))
    end
  else (s, mkHttp 400 (JsonError "Invalid job data" None None (Some details))).

(** [router.delete('/:jobId')]. *)
Definition route_cancel (f : Faults) (e : Env) (s : Store) (jobId : string)
  : Store * HttpResponse :=
  match cancelJob_io f e s jobId with
  | (s', Returns r) => (s', mkHttp 200 (JsonResult r))
  | (s', Throws msg) =>
      if includes "not found" msg then
        (s', mkHttp 404 (JsonError "Job not found" None (Some jobId) None))
      else
        (s', mkHttp 500 (JsonError "Failed to cancel job" (Some msg) None None))
  end.

(** [router.post('/:jobId/retry')]. *)
Definition route_retry (f : Faults) (e : Env) (s : Store) (jobId : string)
  : Store * HttpResponse :=
  match retryJob_io f e s jobId with
  | (s', Returns r) => (s', mkHttp 200 (JsonResult r))
  | (s', Throws msg) =>
      if includes "not found" msg then
        (s', mkHttp 404 (JsonError "Job not found" None (Some jobId) None))
      else if includes "cannot be retried" msg then
        (s', mkHttp 400 (JsonError "Job cannot be retried" (Some msg) None None))
      else
        (s', mkHttp 500 (JsonError "Failed to retry job" (Some msg) None None))
  end.

(** Bull has lost its connection when [jobQueue.add] is called. *)
Definition queue_down : Faults :=
  mkFaults false false None (Some "Connection is closed.").

(** Redis refuses the [set] of [storeJob]. *)
Definition store_down : Faults :=
  mkFaults false false (Some (false, "connect ECONNREFUSED 127.0.0.1:6379")) None.

(** The duplicate scan cannot read. *)
Definition scan_down : Faults := mkFaults false true None None.

(** * The error handler (middleware/errorHandler.js) *)

Record JsError := mkJsError {
  err_name : string;
  err_code : option string;
  err_message : string;
  err_stack : option string;
  err_details : option string
}.

Record ErrorBody := mkErrorBody {
  b_error : string;
  b_message : string;
  b_stack : option string;
  b_details : option string
}.

(** [errorHandler]; [node_env] is [process.env.NODE_ENV]. *)
Definition errorHandler (node_env : option string) (err : JsError) : Z * ErrorBody :=
  let isDevelopment := opt_eqb String.eqb node_env (Some "development") in
  let errorResponse :=
    mkErrorBody "Internal Server Error"
      (if isDevelopment then err_message err else "Something went wrong")
      (if isDevelopment then err_stack err else None) None in
  if String.eqb (err_name err) "ValidationError" then
    (400, mkErrorBody "Validation Error" (err_message err) None (err_details err))
  else if String.eqb (err_name err) "UnauthorizedError" then
    (401, mkErrorBody "Unauthorized" "Authentication required" None None)
  else if String.eqb (err_name err) "ForbiddenError" then
    (403, mkErrorBody "Forbidden" "Access denied" None None)
  else if String.eqb (err_name err) "NotFoundError" then
    (404, mkErrorBody "Not Found" (err_message err) None None)
  else if (opt_eqb String.eqb (err_code err) (Some "ECONNREFUSED")
           && includes "Redis" (err_message err))%bool then
    (503, mkErrorBody "Service Unavailable" "Queue service temporarily unavailable"
            None None)
  else if opt_eqb String.eqb (err_code err) (Some "ETIMEDOUT") then
    (504, mkErrorBody "Gateway Timeout" "Request timed out" None None)
  else (500, errorResponse).

(** The fixed texts the handler answers with. *)
Definition fixed_messages : list string :=
  [ "Authentication required"; "Access denied";
    "Queue service temporarily unavailable"; "Request timed out";
    "Something went wrong" ].

Definition redis_refused : JsError :=
  mkJsError "Error" (Some "ECONNREFUSED") "Redis server refused connection"
    (Some "Error: Redis server refused connection at connect") None.

(** * Properties *)

(** ** Enumerations *)

Lemma JobStatus_eqb_eq (a b : JobStatus) : JobStatus_eqb a b = true <-> a = b.
Proof. destruct a, b; simpl; split; congruence. Qed.

Lemma JobStatus_eqb_refl (a : JobStatus) : JobStatus_eqb a a = true.
Proof. destruct a; reflexivity. Qed.

Lemma Target_eqb_eq (a b : Target) : Target_eqb a b = true <-> a = b.
Proof. destruct a, b; simpl; split; congruence. Qed.

Lemma done_iff (st : JobStatus) : done st = true <-> st = COMPLETED \/ st = FAILED.
Proof.
  destruct st; simpl; split; intros H;
    solve [ discriminate | auto | destruct H; discriminate ].
Qed.

Lemma done_false_iff (st : JobStatus) :
  done st = false <-> st <> COMPLETED /\ st <> FAILED.
Proof.
  destruct st; simpl; split; intros H;
    solve [ discriminate | split; discriminate | reflexivity
          | destruct H; congruence ].
Qed.

Lemma canRetry_iff (j : Job) :
  canRetry j = true <->
  (status j = FAILED \/ status j = RETRYING) /\ retry_count j < max_retries j.
Proof.
  unfold canRetry. rewrite andb_true_iff, orb_true_iff, Z.ltb_lt.
  rewrite !JobStatus_eqb_eq. tauto.
Qed.

(** ** The key space *)

Lemma jobKey_inj (a b : string) : jobKey a = jobKey b -> a = b.
Proof. unfold jobKey. simpl. congruence. Qed.

Lemma redis_get_set_same (k : string) (v : JobData) (s : Store) :
  redis_get k (redis_set k v s) = Some v.
Proof.
  induction s as [|[k' v'] r IH]; simpl.
  - now rewrite String.eqb_refl.
  - destruct (String.eqb k' k) eqn:E; simpl.
    + now rewrite String.eqb_refl.
    + now rewrite E.
Qed.

Lemma redis_get_set_other (k k' : string) (v : JobData) (s : Store) :
  k <> k' -> redis_get k' (redis_set k v s) = redis_get k' s.
Proof.
  intros Hne. induction s as [|[k0 v0] r IH]; simpl.
  - destruct (String.eqb k k') eqn:E; [apply String.eqb_eq in E; contradiction | reflexivity].
  - destruct (String.eqb k0 k) eqn:E; simpl.
    + apply String.eqb_eq in E. subst k0.
      destruct (String.eqb k k') eqn:E'; [apply String.eqb_eq in E'; contradiction | reflexivity].
    + destruct (String.eqb k0 k'); [reflexivity | exact IH].
Qed.

Lemma redis_get_In_keys (k : string) (s : Store) (v : JobData) :
  redis_get k s = Some v -> In k (redis_keys s).
Proof.
  induction s as [|[k' v'] r IH]; simpl; [discriminate|].
  destruct (String.eqb k' k) eqn:E.
  - apply String.eqb_eq in E. auto.
  - auto.
Qed.

Lemma In_keys_redis_get (k : string) (s : Store) :
  In k (redis_keys s) -> exists v, redis_get k s = Some v.
Proof.
  induction s as [|[k' v'] r IH]; simpl; [tauto|].
  intros [->|H].
  - rewrite String.eqb_refl. eauto.
  - destruct (String.eqb k' k); eauto.
Qed.

(** ** Validation and reloading *)

Lemma or_num_self (n : Z) : or_num (Some n) 0 = n.
Proof. unfold or_num. destruct (n =? 0) eqn:E; [apply Z.eqb_eq in E; lia | reflexivity]. Qed.

Lemma or_null_idem (o : option string) : or_null (or_null o) = or_null o.
Proof.
  destruct o as [s|]; simpl; [|reflexivity].
  destruct (nonempty s) eqn:E; simpl; [now rewrite E | reflexivity].
Qed.

Lemma or_null_nonempty (o : option string) : opt_all nonempty (or_null o) = true.
Proof.
  destruct o as [s|]; simpl; [|reflexivity].
  destruct (nonempty s) eqn:E; simpl; auto.
Qed.

Lemma or_null_ok (o : option string) : opt_all nonempty o = true -> or_null o = o.
Proof. destruct o as [s|]; simpl; [intros ->; reflexivity | reflexivity]. Qed.

Lemma or_null_Some (s : string) : nonempty s = true -> or_null (Some s) = Some s.
Proof. simpl. now intros ->. Qed.

Ltac split_andb :=
  repeat match goal with
         | H : (_ && _)%bool = true |- _ => apply andb_true_iff in H; destruct H
         end.

Lemma create_Some (e : Env) (d : JobData) (j : Job) :
  create e d = Some j ->
  validate d = true /\ Job_create (clock e) (gen_id e) d = Some j.
Proof.
  unfold create, Job_create. destruct (validate d); [auto | discriminate].
Qed.

(** Reduction of record projections only. *)
Ltac fields :=
  cbn [d_job_id d_org_id d_app_version_id d_test_path d_priority d_target
       d_timestamp d_status d_progress d_result d_error d_retry_count
       d_max_retries d_started_at d_completed_at d_device_id d_agent_id
       d_group_id job_id org_id app_version_id test_path priority target
       timestamp status progress result error retry_count max_retries
       started_at completed_at device_id agent_id group_id
       x_result x_error x_device_id x_agent_id] in *.

Lemma create_toJSON (e : Env) (j : Job) :
  Job_ok j -> create e (toJSON j) = Some (reload j).
Proof.
  unfold Job_ok, create, Job_create. intros ->.
  unfold reload, toJSON; fields. cbn [or_default].
  now rewrite !or_num_self.
Qed.

Lemma gen_id_nonempty (e : Env) : nonempty (gen_id e) = true.
Proof. reflexivity. Qed.

Lemma create_ok (e : Env) (d : JobData) (j : Job) :
  create e d = Some j -> Job_ok j.
Proof.
  unfold create, Job_create, Job_ok. destruct (validate d) eqn:V; [|discriminate].
  intros [= <-]. unfold validate, toJSON in *; fields. split_andb.
  rewrite !or_null_nonempty, !andb_true_iff.
  repeat match goal with |- _ /\ _ => split end; auto.
  - destruct (d_job_id d); cbn in *; auto.
  - destruct (d_progress d) as [p|]; cbn [opt_all or_num] in *; [|reflexivity].
    destruct (p =? 0); [reflexivity | assumption].
  - destruct (d_retry_count d) as [p|]; cbn [opt_all or_num] in *; [|reflexivity].
    destruct (p =? 0); [reflexivity | assumption].
Qed.

Lemma create_progress (e : Env) (d : JobData) (j : Job) :
  create e d = Some j -> 0 <= progress j <= 100.
Proof.
  unfold create, Job_create. destruct (validate d) eqn:V; [|discriminate].
  intros [= <-]. fields. unfold validate in V. split_andb.
  destruct (d_progress d) as [p|]; cbn [opt_all or_num] in *; [|lia].
  split_andb. destruct (p =? 0); lia.
Qed.

Lemma create_normal (e : Env) (d : JobData) (j : Job) :
  create e d = Some j -> normal j.
Proof.
  unfold create, Job_create. destruct (validate d); [|discriminate].
  intros [= <-]. unfold normal; fields. now rewrite !or_null_idem.
Qed.

Lemma create_max_retries (e : Env) (j : Job) :
  Job_ok j -> exists j', create e (toJSON j) = Some j' /\ max_retries j' = 3.
Proof. intros H. exists (reload j). split; [now apply create_toJSON | reflexivity]. Qed.

Lemma assign_nonempty (x : option (option string)) (old : option string) :
  (forall v, x = Some (Some v) -> nonempty v = true) ->
  opt_all nonempty old = true -> opt_all nonempty (assign x old) = true.
Proof.
  destruct x as [[v|]|]; simpl; auto.
Qed.

Lemma updateStatus_ok (now : string) (st : JobStatus) (x : Extra) (j : Job) :
  extra_ok x -> Job_ok j -> Job_ok (updateStatus now st x j).
Proof.
  intros [Hd Ha]. unfold Job_ok, validate, updateStatus, toJSON; fields.
  rewrite !andb_true_iff. intros H.
  repeat match type of H with _ /\ _ => destruct H as [H ?] end.
  repeat match goal with |- _ /\ _ => split end; auto using assign_nonempty.
Qed.

Lemma set_progress_ok (p : Z) (j : Job) :
  0 <= p <= 100 -> Job_ok j -> Job_ok (set_progress p j).
Proof.
  intros Hp. unfold Job_ok, validate, set_progress, toJSON; fields.
  rewrite !andb_true_iff. intros H.
  repeat match type of H with _ /\ _ => destruct H as [H ?] end.
  repeat match goal with |- _ /\ _ => split end; auto.
  cbn [opt_all]. rewrite andb_true_iff. split; apply Z.leb_le; lia.
Qed.

Lemma set_retry_count_ok (n : Z) (j : Job) :
  0 <= n -> Job_ok j -> Job_ok (set_retry_count n j).
Proof.
  intros Hn. unfold Job_ok, validate, set_retry_count, toJSON; fields.
  rewrite !andb_true_iff. intros H.
  repeat match type of H with _ /\ _ => destruct H as [H ?] end.
  repeat match goal with |- _ /\ _ => split end; auto.
  cbn [opt_all]. apply Z.leb_le; lia.
Qed.

Lemma no_extra_ok : extra_ok no_extra.
Proof. split; intros v; discriminate. Qed.

Lemma reset_extra_ok : extra_ok reset_extra.
Proof. split; intros v; discriminate. Qed.

Lemma passed_extra_ok (a d : string) :
  nonempty a = true -> nonempty d = true -> extra_ok (passed_extra a d).
Proof. intros Ha Hd. split; intros v [= <-]; assumption. Qed.

Lemma failed_extra_ok (a d : string) :
  nonempty a = true -> nonempty d = true -> extra_ok (failed_extra a d).
Proof. intros Ha Hd. split; intros v [= <-]; assumption. Qed.

Lemma running_extra_ok (a d : string) :
  nonempty a = true -> nonempty d = true ->
  extra_ok (mkExtra None None (Some (Some d)) (Some (Some a))).
Proof. intros Ha Hd. split; intros v [= <-]; assumption. Qed.

Create HintDb schema.
#[local] Hint Resolve updateStatus_ok set_progress_ok set_retry_count_ok
  no_extra_ok reset_extra_ok passed_extra_ok failed_extra_ok running_extra_ok
  create_ok : schema.

(** ** Reads after writes *)

Lemma getJob_storeJob_same (e : Env) (s : Store) (j : Job) :
  Job_ok j -> getJob e (storeJob s j) (job_id j) = Some (reload j).
Proof.
  intros H. unfold getJob, storeJob. rewrite redis_get_set_same.
  now apply create_toJSON.
Qed.

Lemma getJob_storeJob_other (e : Env) (s : Store) (j : Job) (id : string) :
  id <> job_id j -> getJob e (storeJob s j) id = getJob e s id.
Proof.
  intros H. unfold getJob, storeJob. rewrite redis_get_set_other; [reflexivity|].
  intros E. apply jobKey_inj in E. congruence.
Qed.

Lemma getJob_ok (e : Env) (s : Store) (id : string) (j : Job) :
  getJob e s id = Some j -> Job_ok j.
Proof.
  unfold getJob. destruct (redis_get (jobKey id) s); [apply create_ok | discriminate].
Qed.

Lemma getJob_normal (e : Env) (s : Store) (id : string) (j : Job) :
  getJob e s id = Some j -> normal j.
Proof.
  unfold getJob. destruct (redis_get (jobKey id) s); [apply create_normal | discriminate].
Qed.

Lemma getJob_progress (e : Env) (s : Store) (id : string) (j : Job) :
  getJob e s id = Some j -> 0 <= progress j <= 100.
Proof.
  unfold getJob. destruct (redis_get (jobKey id) s); [apply create_progress | discriminate].
Qed.

(** ** Progress of an executed job *)

Lemma progressAt_bounds (i n : nat) : (i < n)%nat -> 0 <= progressAt i n <= 100.
Proof.
  intros H. unfold progressAt. split.
  - apply Z.div_pos; lia.
  - assert (Hlt : (200 * (Z.of_nat i + 1) + Z.of_nat n) / (2 * Z.of_nat n) < 101).
    { apply Z.div_lt_upper_bound; lia. }
    lia.
Qed.

Lemma store_all_set (p : JobData -> bool) (k : string) (v : JobData) (s : Store) :
  store_all p s = true -> p v = true -> store_all p (redis_set k v s) = true.
Proof.
  unfold store_all. intros Hs Hv. induction s as [|[k' v'] r IH]; simpl in *.
  - now rewrite Hv.
  - apply andb_true_iff in Hs. destruct Hs as [H1 H2].
    destruct (String.eqb k' k); simpl; rewrite ?Hv, ?H1; simpl; auto.
Qed.

Lemma storeJob_progress_bounded (s : Store) (j : Job) :
  progress_bounded s = true -> 0 <= progress j <= 100 ->
  progress_bounded (storeJob s j) = true.
Proof.
  intros Hs Hj. unfold progress_bounded, storeJob.
  apply store_all_set; [exact Hs|]. simpl.
  apply andb_true_iff. split; apply Z.leb_le; lia.
Qed.

Lemma markRunning_progress_bounded s job a d r :
  progress_bounded s = true -> progress_bounded (markRunning s job a d r) = true.
Proof.
  intros Hs. unfold markRunning.
  destruct (getJob (env_start r) s (job_id job)) as [j|] eqn:G; [|exact Hs].
  apply storeJob_progress_bounded; [exact Hs|]. simpl.
  eapply getJob_progress; eassumption.
Qed.

Lemma simulateTestExecution_progress_bounded s job a d r :
  (forall st, progress_bounded st = true -> progress_bounded (during r st) = true) ->
  progress_bounded s = true -> progress_bounded (simulateTestExecution s job a d r) = true.
Proof.
  intros Hd Hs. unfold simulateTestExecution.
  destruct (getJob (env_start r) s (job_id job)) as [j|]; [|exact Hs].
  destruct (done (status j)); [exact Hs|].
  destruct (getJob (env_end r) (during r s) (job_id job)) as [c|] eqn:G; [|auto].
  destruct (done (status c)); [auto|].
  destruct (success r); apply storeJob_progress_bounded; auto; simpl;
    eapply getJob_progress; eassumption.
Qed.

Lemma updateProgress_progress_bounded s job i n r :
  (i < n)%nat -> progress_bounded s = true -> progress_bounded (updateProgress s job i n r) = true.
Proof.
  intros Hi Hs. unfold updateProgress.
  destruct (getJob (env_end r) s (job_id job)) as [c|]; [|exact Hs].
  destruct (JobStatus_eqb (status c) RUNNING); [|exact Hs].
  apply storeJob_progress_bounded; [exact Hs|]. simpl.
  now apply progressAt_bounds.
Qed.

Lemma executeOne_progress_bounded s job a d i n r :
  (i < n)%nat ->
  (forall st, progress_bounded st = true -> progress_bounded (during r st) = true) ->
  progress_bounded s = true -> progress_bounded (executeOne s job a d i n r) = true.
Proof.
  intros Hi Hd Hs. unfold executeOne.
  apply updateProgress_progress_bounded; [exact Hi|].
  apply simulateTestExecution_progress_bounded; [exact Hd|].
  now apply markRunning_progress_bounded.
Qed.

(** One loop body of [executeTests] with nothing else writing meanwhile:
    the job ends completed or failed by the draw, and its record is the one
    that the terminal write produced. *)
Lemma executeOne_quiet s job a d i n r j0 :
  nonempty a = true -> nonempty d = true ->
  getJob (env_start r) s (job_id job) = Some j0 -> job_id j0 = job_id job ->
  (forall st, during r st = st) ->
  let running :=
    reload (updateStatus (clock (env_start r)) RUNNING
              (mkExtra None None (Some (Some d)) (Some (Some a))) j0) in
  let final :=
    if success r
    then updateStatus (clock (env_end r)) COMPLETED (passed_extra a d) running
    else updateStatus (clock (env_end r)) FAILED (failed_extra a d) running in
  executeOne s job a d i n r =
    storeJob (markRunning s job a d r) final /\
  Job_ok final /\ job_id final = job_id job.
Proof.
  intros Ha Hd G Hid Hq running final.
  assert (Hok0 : Job_ok j0) by (eapply getJob_ok; eassumption).
  set (jr := updateStatus (clock (env_start r)) RUNNING
               (mkExtra None None (Some (Some d)) (Some (Some a))) j0) in *.
  assert (Hokr : Job_ok jr) by (unfold jr; auto with schema).
  assert (Hidr : job_id jr = job_id job) by exact Hid.
  assert (Hokrun : Job_ok running).
  { eapply create_ok. apply (create_toJSON (env_start r)). exact Hokr. }
  assert (Hfin : Job_ok final).
  { unfold final. destruct (success r); auto with schema. }
  assert (Hidf : job_id final = job_id job).
  { unfold final. destruct (success r); exact Hid. }
  assert (Hmark : markRunning s job a d r = storeJob s jr).
  { unfold markRunning. now rewrite G. }
  split; [|split; assumption].
  unfold executeOne. rewrite Hmark.
  unfold simulateTestExecution.
  rewrite <- Hidr at 1. rewrite getJob_storeJob_same by exact Hokr.
  change (status (reload jr)) with RUNNING. cbn [done JobStatus_eqb orb].
  rewrite Hq.
  rewrite <- Hidr at 1. rewrite getJob_storeJob_same by exact Hokr.
  change (status (reload jr)) with RUNNING. cbn [done JobStatus_eqb orb].
  fold running.
  assert (Hstep : (if success r
                   then updateJob (storeJob s jr)
                          (updateStatus (clock (env_end r)) COMPLETED
                             (passed_extra a d) running)
                   else updateJob (storeJob s jr)
                          (updateStatus (clock (env_end r)) FAILED
                             (failed_extra a d) running))
                  = storeJob (storeJob s jr) final).
  { unfold final, updateJob. now destruct (success r). }
  rewrite Hstep. unfold updateProgress.
  rewrite <- Hidf at 1. rewrite getJob_storeJob_same by exact Hfin.
  assert (Hst : JobStatus_eqb (status (reload final)) RUNNING = false).
  { unfold final. now destruct (success r). }
  now rewrite Hst.
Qed.

Lemma executeTests_from_progress_bounded s a d i n jobs runs :
  (i + List.length jobs <= n)%nat ->
  progress_bounded s = true ->
  Forall (fun r => forall st, progress_bounded st = true ->
                              progress_bounded (during r st) = true) runs ->
  progress_bounded (executeTests_from s a d i n jobs runs) = true.
Proof.
  revert s i runs. induction jobs as [|job jobs IH]; intros s i runs Hi Hs Hr.
  - exact Hs.
  - destruct runs as [|r runs]; [exact Hs|].
    inversion Hr as [|? ? Hr1 Hr2]; subst. cbn [executeTests_from].
    apply IH; [simpl in Hi; lia | | exact Hr2].
    apply executeOne_progress_bounded; [simpl in Hi; lia | exact Hr1 | exact Hs].
Qed.

Lemma cancelJob_progress_bounded (e : Env) (s : Store) (id : string) :
  progress_bounded s = true -> progress_bounded (fst (cancelJob e s id)) = true.
Proof.
  intros Hs. unfold cancelJob.
  destruct (getJob e s id) as [j|] eqn:G; [|exact Hs].
  destruct (done (status j)); [exact Hs|]. cbn [fst]. unfold updateJob.
  apply storeJob_progress_bounded; [exact Hs|]. simpl.
  eapply getJob_progress; eassumption.
Qed.

Example store0_holds_job0 : stored env1 store0 job0.
Proof. reflexivity. Qed.

(** C1 as stated fails: the job of [store0], executed alone and with
    success, ends completed with its progress still 0; and a submission that
    carries a progress of 100 is stored queued with progress 100. *)
Lemma executeOne_completed_progress_0 :
  (exists j, getJob env2 (executeOne store0 job0 "agent-1" "emulator-1" 0 1 run_quiet) id0
             = Some j
             /\ status j = COMPLETED /\ progress j = 0 /\ progress j <> 100) /\
  (exists j, getJob env2 (fst (addJob env1 store0 import_progress)) id1 = Some j
             /\ progress j = 100 /\ status j = QUEUED /\ status j <> COMPLETED).
Proof.
  split; eexists; (split; [vm_compute; reflexivity|]); repeat split; discriminate.
Qed.

(** C1 (amended): when the scheduler executes a stored job and drives it to
    completed with no other writer in between, the terminal write and the
    progress step after it leave [progress] as it was before the execution
    (the progress step writes only a record that is still running), so
    completion does not make it 100; and the progress that [executeTests]
    writes is within 0..100, so a key space whose records have their progress
    within 0..100 keeps that through a whole [executeTests], whatever the
    outcomes, as long as the other writers keep it too. *)
Theorem executeTests_progress :
  (forall (e : Env) (s : Store) (job : Job) (a d : string) (i n : nat)
          (r : Run) (j0 : Job),
      nonempty a = true -> nonempty d = true ->
      getJob (env_start r) s (job_id job) = Some j0 -> job_id j0 = job_id job ->
      (forall st, during r st = st) -> success r = true ->
      exists j1,
        getJob e (executeOne s job a d i n r) (job_id job) = Some j1 /\
        status j1 = COMPLETED /\ progress j1 = progress j0 /\
        0 <= progress j1 <= 100) /\
  (forall (s : Store) (a d : string) (jobs : list Job) (runs : list Run),
      progress_bounded s = true ->
      Forall (fun r => forall st, progress_bounded st = true ->
                                  progress_bounded (during r st) = true) runs ->
      progress_bounded (executeTests s a d jobs runs) = true).
Proof.
  split.
  - intros e s job a d i n r j0 Ha Hd G Hid Hq Hs.
    destruct (executeOne_quiet s job a d i n r j0 Ha Hd G Hid Hq) as (Heq & Hok & Hidf).
    rewrite Hs in *.
    rewrite Heq. rewrite <- Hidf. rewrite getJob_storeJob_same by exact Hok.
    eexists. split; [reflexivity|]. split; [reflexivity|].
    split; [reflexivity|]. simpl. eapply getJob_progress; eassumption.
  - intros s a d jobs runs Hb Hruns. unfold executeTests.
    apply executeTests_from_progress_bounded; [simpl; lia | exact Hb | exact Hruns].
Qed.

Lemma executeTests_progress_witness :
  (exists j1,
      getJob env2 (executeOne store0 job0 "agent-1" "emulator-1" 0 1 run_quiet)
        (job_id job0) = Some j1 /\
      status j1 = COMPLETED /\ progress j1 = progress job0 /\
      0 <= progress j1 <= 100) /\
  progress_bounded
    (executeTests store0 "agent-1" "emulator-1" [job0] [run_cancelled]) = true.
Proof.
  split.
  - refine (proj1 executeTests_progress env2 store0 job0 "agent-1" "emulator-1"
              0%nat 1%nat run_quiet job0 _ _ _ _ _ _).
    + reflexivity.
    + reflexivity.
    + reflexivity.
    + reflexivity.
    + intros st. reflexivity.
    + reflexivity.
  - refine (proj2 executeTests_progress store0 "agent-1" "emulator-1" [job0]
              [run_cancelled] _ _).
    + reflexivity.
    + constructor; [|constructor]. intros st Hst.
      exact (cancelJob_progress_bounded env1 st id0 Hst).
Defined.

(** ** Writes after a simulated test *)

(** C2 as stated fails: [job0] is cancelled while its test sleeps, and the
    write after the sleep stores it as completed. *)
Lemma cancelled_during_run_is_overwritten :
  let s1 := markRunning store0 job0 "agent-1" "emulator-1" run_cancelled in
  (exists c, getJob env2 (during run_cancelled s1) id0 = Some c /\
             status c = CANCELLED) /\
  (exists j, getJob env2
               (executeOne store0 job0 "agent-1" "emulator-1" 0 1 run_cancelled)
               id0 = Some j /\
             status j = COMPLETED).
Proof.
  split; eexists; (split; [vm_compute; reflexivity | reflexivity]).
Qed.

(** What [simulateTestExecution] and the progress step after it do when the
    record is neither completed nor failed once the simulated test is over:
    the job is stored as completed or failed by the draw. *)
Lemma simulateTestExecution_writes :
  forall (s : Store) (job : Job) (a d : string) (i n : nat) (r : Run)
         (st0 c : Job),
    nonempty a = true -> nonempty d = true ->
    getJob (env_start r) s (job_id job) = Some st0 ->
    done (status st0) = false ->
    getJob (env_end r) (during r s) (job_id job) = Some c ->
    job_id c = job_id job ->
    status c <> COMPLETED /\ status c <> FAILED ->
    exists j,
      getJob (env_end r)
        (updateProgress (simulateTestExecution s job a d r) job i n r)
        (job_id job) = Some j /\
      status j = (if success r then COMPLETED else FAILED).
Proof.
  intros s job a d i n r st0 c Ha Hd G0 Hnd G1 Hid Hc.
  apply done_false_iff in Hc.
  set (final := if success r
                then updateStatus (clock (env_end r)) COMPLETED (passed_extra a d) c
                else updateStatus (clock (env_end r)) FAILED (failed_extra a d) c).
  assert (Hok : Job_ok final).
  { unfold final. destruct (success r); apply updateStatus_ok;
      try (eapply getJob_ok; eassumption);
      [now apply passed_extra_ok | now apply failed_extra_ok]. }
  assert (Hidf : job_id final = job_id job).
  { unfold final. destruct (success r); exact Hid. }
  assert (Hsim : simulateTestExecution s job a d r = storeJob (during r s) final).
  { unfold simulateTestExecution, final, updateJob.
    rewrite G0, Hnd, G1, Hc. now destruct (success r). }
  assert (Hst : status (reload final) = if success r then COMPLETED else FAILED).
  { unfold final. now destruct (success r). }
  rewrite Hsim. unfold updateProgress.
  rewrite <- Hidf. rewrite getJob_storeJob_same by exact Hok.
  replace (JobStatus_eqb (status (reload final)) RUNNING) with false
    by (rewrite Hst; now destruct (success r)).
  rewrite getJob_storeJob_same by exact Hok.
  exists (reload final). split; [reflexivity | exact Hst].
Qed.

(** C2 (amended): for every job under execution that is moved to completed
    or failed while the simulated test runs, [simulateTestExecution] and the
    progress step after it write nothing: the key space is as the other
    writer left it, and the stored record is still that completed or failed
    one. *)
Theorem simulateTestExecution_guard :
  forall (s : Store) (job : Job) (i n : nat) (a d : string) (r : Run)
         (st0 c : Job),
    getJob (env_start r) s (job_id job) = Some st0 ->
    status st0 <> COMPLETED /\ status st0 <> FAILED ->
    getJob (env_end r) (during r s) (job_id job) = Some c ->
    status c = COMPLETED \/ status c = FAILED ->
    let s' := updateProgress (simulateTestExecution s job a d r) job i n r in
    s' = during r s /\ getJob (env_end r) s' (job_id job) = Some c.
Proof.
  intros s job i n a d r st0 c G0 Hnd G1 Hc s'.
  apply done_false_iff in Hnd. apply done_iff in Hc.
  assert (Hsim : simulateTestExecution s job a d r = during r s).
  { unfold simulateTestExecution. now rewrite G0, Hnd, G1, Hc. }
  assert (Hs' : s' = during r s).
  { unfold s'. rewrite Hsim. unfold updateProgress. rewrite G1.
    apply done_iff in Hc. destruct Hc as [-> | ->]; reflexivity. }
  split; [exact Hs' | now rewrite Hs'].
Qed.

Lemma simulateTestExecution_guard_witness :
  updateProgress
    (simulateTestExecution store0 job0 "agent-1" "emulator-1" run_overwritten)
    job0 0 1 run_overwritten
  = during run_overwritten store0 /\
  getJob env2
    (updateProgress
       (simulateTestExecution store0 job0 "agent-1" "emulator-1" run_overwritten)
       job0 0 1 run_overwritten) (job_id job0)
  = Some job_imported.
Proof.
  refine (simulateTestExecution_guard store0 job0 0 1 "agent-1" "emulator-1"
            run_overwritten job0 job_imported _ _ _ _).
  - reflexivity.
  - split; discriminate.
  - vm_compute. reflexivity.
  - right. reflexivity.
Defined.

(** ** Retry *)

Lemma create_retry_count (e : Env) (d : JobData) (j : Job) :
  create e d = Some j -> 0 <= retry_count j.
Proof.
  unfold create, Job_create. destruct (validate d) eqn:V; [|discriminate].
  intros [= <-]. fields. unfold validate in V. split_andb.
  destruct (d_retry_count d) as [p|]; cbn [opt_all or_num] in *; [|lia].
  destruct (p =? 0); lia.
Qed.

Lemma getJob_retry_count (e : Env) (s : Store) (id : string) (j : Job) :
  getJob e s id = Some j -> 0 <= retry_count j.
Proof.
  unfold getJob. destruct (redis_get (jobKey id) s); [apply create_retry_count | discriminate].
Qed.

Lemma incrementRetry_allowed (now : string) (j : Job) :
  canRetry j = true ->
  incrementRetry now j =
  updateStatus now RETRYING no_extra (set_retry_count (retry_count j + 1) j).
Proof.
  intros H. apply canRetry_iff in H. destruct H as [_ H].
  unfold incrementRetry. cbv zeta.
  change (max_retries (set_retry_count (retry_count j + 1) j)) with (max_retries j).
  change (retry_count (set_retry_count (retry_count j + 1) j)) with (retry_count j + 1).
  destruct (max_retries j <? retry_count j + 1) eqn:E; [|reflexivity].
  apply Z.ltb_lt in E. lia.
Qed.

(** [incrementRetry] takes the retrying branch exactly when the count after
    the increment does not exceed the limit. *)
Lemma incrementRetry_within (now : string) (j : Job) :
  retry_count j + 1 <= max_retries j ->
  incrementRetry now j =
  updateStatus now RETRYING no_extra (set_retry_count (retry_count j + 1) j).
Proof.
  intros H. unfold incrementRetry. cbv zeta.
  change (max_retries (set_retry_count (retry_count j + 1) j)) with (max_retries j).
  change (retry_count (set_retry_count (retry_count j + 1) j)) with (retry_count j + 1).
  destruct (Z.ltb_spec (max_retries j) (retry_count j + 1)); [lia | reflexivity].
Qed.

(** C3 as stated fails: the failed job of [store_failed] is retried, and the
    stored record is retrying, not queued, and still carries its error,
    start and completion times, device and agent. *)
Lemma retryJob_failed_job_not_requeued :
  exists j', getJob env2 (fst (retryJob env2 store_failed id0)) id0 = Some j' /\
             retry_count j' = 1 /\
             status j' <> QUEUED /\ error j' <> None /\
             started_at j' <> None /\ completed_at j' <> None /\
             device_id j' <> None /\ agent_id j' <> None.
Proof.
  eexists. split; [vm_compute; reflexivity|].
  repeat split; discriminate.
Qed.

(** C3 (amended): for every stored job with status failed or retrying and
    an integer [retry_count] with [retry_count + 1 <= max_retries], the
    condition under which [incrementRetry] takes its retrying branch,
    [retryJob] answers with status retrying and persists the record with
    [retry_count] one higher, status retrying, and [error], [started_at],
    [completed_at], [device_id] and [agent_id] as they were; a stored job
    whose status is neither failed nor retrying, or whose [retry_count] is
    not below [max_retries], is rejected with 'Job cannot be retried' and
    nothing is written. *)
Theorem retryJob_spec :
  forall (e e' : Env) (s : Store) (j : Job),
    stored e s j ->
    ((status j = FAILED \/ status j = RETRYING) /\
     retry_count j + 1 <= max_retries j ->
     exists j',
       snd (retryJob e s (job_id j))
       = Ok (mkResponse (job_id j) RETRYING "Job queued for retry") /\
       getJob e' (fst (retryJob e s (job_id j))) (job_id j) = Some j' /\
       retry_count j' = retry_count j + 1 /\ status j' = RETRYING /\
       error j' = error j /\ started_at j' = started_at j /\
       completed_at j' = completed_at j /\ device_id j' = device_id j /\
       agent_id j' = agent_id j) /\
    (~ ((status j = FAILED \/ status j = RETRYING) /\
        retry_count j < max_retries j) ->
     retryJob e s (job_id j) = (s, Err CannotRetry)).
Proof.
  intros e e' s j Hst. unfold stored in Hst. split.
  - intros [Hs Hlim].
    assert (Hc : canRetry j = true) by (apply canRetry_iff; split; [exact Hs | lia]).
    pose proof (getJob_ok _ _ _ _ Hst) as Hok.
    pose proof (getJob_retry_count _ _ _ _ Hst) as Hrc.
    pose proof (getJob_normal _ _ _ _ Hst) as (_ & Hn2 & Hn3 & Hn4 & Hn5 & Hn6 & _).
    set (j1 := updateStatus (clock e) RETRYING no_extra
                 (set_retry_count (retry_count j + 1) j)).
    assert (Hok1 : Job_ok j1).
    { unfold j1. apply updateStatus_ok; [|apply set_retry_count_ok; [lia|]];
        auto with schema. }
    unfold retryJob. rewrite Hst, Hc, (incrementRetry_within _ _ Hlim).
    fold j1. cbn [fst snd]. unfold updateJob.
    exists (reload j1). split; [reflexivity|].
    split; [exact (getJob_storeJob_same e' s j1 Hok1)|].
    unfold j1, reload, updateStatus, set_retry_count, no_extra; fields.
    cbn [assign JobStatus_eqb andb orb].
    repeat split; assumption.
  - intros Hc. unfold retryJob. rewrite Hst.
    destruct (canRetry j) eqn:E; [|reflexivity].
    apply canRetry_iff in E. contradiction.
Qed.

Lemma retryJob_spec_witness :
  (exists j',
      snd (retryJob env2 store_failed id0)
      = Ok (mkResponse id0 RETRYING "Job queued for retry") /\
      getJob env2 (fst (retryJob env2 store_failed id0)) id0 = Some j' /\
      retry_count j' = 0 + 1 /\ status j' = RETRYING /\
      error j' = Some "Test failed during execution" /\
      started_at j' = Some "2024-05-01T10:00:05.000Z" /\
      completed_at j' = Some "2024-05-01T10:00:08.000Z" /\
      device_id j' = Some "emulator-1" /\ agent_id j' = Some "agent-1") /\
  retryJob env1 store0 id0 = (store0, Err CannotRetry).
Proof.
  split.
  - refine (proj1 (retryJob_spec env2 env2 store_failed job_failed _) _).
    + vm_compute. reflexivity.
    + split; [left; reflexivity | vm_compute; discriminate].
  - refine (proj2 (retryJob_spec env1 env1 store0 job0 _) _).
    + reflexivity.
    + intros [[H | H] _]; discriminate H.
Defined.

(** ** Well-formed key spaces *)

Lemma store_wf_get (s : Store) (k : string) (d : JobData) :
  store_wf s = true -> redis_get k s = Some d ->
  validate d = true /\ exists id, d_job_id d = Some id /\ k = jobKey id.
Proof.
  unfold store_wf. induction s as [|[k' v'] r IH]; simpl; [discriminate|].
  intros H. apply andb_true_iff in H. destruct H as [H1 H2].
  destruct (String.eqb k' k) eqn:E.
  - intros [= <-]. apply String.eqb_eq in E. subst k'.
    unfold record_wf in H1. cbn [fst snd] in H1.
    apply andb_true_iff in H1. destruct H1 as [Hv Hk]. split; [exact Hv|].
    destruct (d_job_id v') as [id|]; cbn [opt_eqb option_map] in Hk; [|discriminate].
    apply String.eqb_eq in Hk. eauto.
  - intros G. now apply IH.
Qed.

Lemma store_wf_set (s : Store) (k : string) (v : JobData) :
  store_wf s = true -> record_wf (k, v) = true -> store_wf (redis_set k v s) = true.
Proof.
  unfold store_wf. intros Hs Hv. induction s as [|[k' v'] r IH]; simpl in *.
  - now rewrite Hv.
  - apply andb_true_iff in Hs. destruct Hs as [H1 H2].
    destruct (String.eqb k' k); simpl.
    + now rewrite Hv, H2.
    + now rewrite H1, IH.
Qed.

Lemma storeJob_wf (s : Store) (j : Job) :
  store_wf s = true -> Job_ok j -> store_wf (storeJob s j) = true.
Proof.
  intros Hs Hok. unfold storeJob. apply store_wf_set; [exact Hs|].
  unfold record_wf. cbn [fst snd]. rewrite Hok.
  cbn [toJSON d_job_id option_map opt_eqb andb]. apply String.eqb_refl.
Qed.

Lemma validate_create (e : Env) (d : JobData) :
  validate d = true -> exists j, create e d = Some j.
Proof. unfold create, Job_create. intros ->. eauto. Qed.

Lemma create_job_id (e : Env) (d : JobData) (j : Job) (id : string) :
  create e d = Some j -> d_job_id d = Some id -> job_id j = id.
Proof.
  unfold create, Job_create. destruct (validate d); [|discriminate].
  intros [= <-] H. fields. now rewrite H.
Qed.

Lemma create_status (e : Env) (d : JobData) (j : Job) (st : JobStatus) :
  create e d = Some j -> st <> QUEUED ->
  status_is d st = true <-> status j = st.
Proof.
  unfold create, Job_create. destruct (validate d); [|discriminate].
  intros [= <-] Hq. fields. unfold status_is.
  destruct (d_status d) as [x|]; simpl.
  - apply JobStatus_eqb_eq.
  - split; [discriminate | congruence].
Qed.

(** ** Startup recovery *)

Lemma reset_record_idem (e : Env) (d : JobData) :
  reset_record e (reset_record e d) = reset_record e d.
Proof.
  destruct (status_is d RUNNING || status_is d SCHEDULED)%bool eqn:E.
  - destruct (create e d) as [j|] eqn:C.
    + assert (H : reset_record e d
                  = toJSON (updateStatus (clock e) QUEUED reset_extra j))
        by (unfold reset_record; now rewrite E, C).
      rewrite H. reflexivity.
    + assert (H : reset_record e d = d)
        by (unfold reset_record; now rewrite E, C).
      now rewrite !H.
  - assert (H : reset_record e d = d) by (unfold reset_record; now rewrite E).
    now rewrite !H.
Qed.

Lemma recovery_loop_get (e : Env) (ks : list string) :
  forall (s : Store) (k : string),
    store_wf s = true ->
    store_wf (recovery_loop e s ks) = true /\
    redis_get k (recovery_loop e s ks) =
    if existsb (String.eqb k) ks
    then option_map (reset_record e) (redis_get k s)
    else redis_get k s.
Proof.
  induction ks as [|k0 ks IH]; intros s k Hwf; simpl; [auto|].
  destruct (redis_get k0 s) as [d|] eqn:G0.
  - destruct (store_wf_get _ _ _ Hwf G0) as (Hv & id & Hid & Hk).
    destruct (validate_create e d Hv) as [j Hj].
    assert (Hreset : reset_record e d =
                     if (status_is d RUNNING || status_is d SCHEDULED)%bool
                     then toJSON (updateStatus (clock e) QUEUED reset_extra j)
                     else d).
    { unfold reset_record. now rewrite Hj. }
    destruct (status_is d RUNNING || status_is d SCHEDULED)%bool eqn:E.
    + rewrite Hj.
      set (j' := updateStatus (clock e) QUEUED reset_extra j) in *.
      assert (Hok : Job_ok j') by (unfold j'; eauto with schema).
      assert (Hkey : jobKey (job_id j') = k0).
      { rewrite Hk. f_equal. exact (create_job_id _ _ _ _ Hj Hid). }
      assert (Hwf' : store_wf (storeJob s j') = true) by now apply storeJob_wf.
      destruct (IH (storeJob s j') k Hwf') as [Hw Hg]. split; [exact Hw|].
      rewrite Hg. unfold storeJob. rewrite Hkey.
      destruct (String.eqb k k0) eqn:Ek; simpl.
      * apply String.eqb_eq in Ek. subst k.
        rewrite redis_get_set_same, G0. simpl. rewrite Hreset.
        destruct (existsb (String.eqb k0) ks); [|reflexivity].
        simpl. rewrite <- Hreset. now rewrite reset_record_idem.
      * rewrite redis_get_set_other; [reflexivity|].
        intros ->. now rewrite String.eqb_refl in Ek.
    + destruct (IH s k Hwf) as [Hw Hg]. split; [exact Hw|].
      rewrite Hg. destruct (String.eqb k k0) eqn:Ek; simpl; [|reflexivity].
      apply String.eqb_eq in Ek. subst k. rewrite G0. simpl. rewrite Hreset.
      now destruct (existsb (String.eqb k0) ks).
  - destruct (IH s k Hwf) as [Hw Hg]. split; [exact Hw|].
    rewrite Hg. destruct (String.eqb k k0) eqn:Ek; simpl; [|reflexivity].
    apply String.eqb_eq in Ek. subst k. rewrite G0.
    now destruct (existsb (String.eqb k0) ks).
Qed.

Lemma existsb_keys (k : string) (s : Store) (d : JobData) :
  redis_get k s = Some d -> existsb (String.eqb k) (redis_keys s) = true.
Proof.
  intros G. apply existsb_exists. exists k. split.
  - eapply redis_get_In_keys; eassumption.
  - apply String.eqb_refl.
Qed.

Lemma performStartupRecovery_get (e : Env) (s : Store) (k : string) :
  store_wf s = true ->
  redis_get k (performStartupRecovery e s) =
  option_map (reset_record e) (redis_get k s).
Proof.
  intros Hwf. unfold performStartupRecovery.
  destruct (recovery_loop_get e (redis_keys s) s k Hwf) as [_ ->].
  destruct (redis_get k s) as [d|] eqn:G.
  - now rewrite (existsb_keys _ _ _ G).
  - now destruct (existsb (String.eqb k) (redis_keys s)).
Qed.

Lemma stored_record (e : Env) (s : Store) (j : Job) :
  stored e s j ->
  exists d, redis_get (jobKey (job_id j)) s = Some d /\ create e d = Some j.
Proof.
  unfold stored, getJob. destruct (redis_get (jobKey (job_id j)) s) as [d|];
    [eauto | discriminate].
Qed.

Example store_running_holds : stored env2 store_running job_running.
Proof. vm_compute. reflexivity. Qed.

(** C4 as stated fails: the running job of [store_running] comes out of
    startup recovery queued, with its [started_at] still set. *)
Lemma recovery_keeps_started_at :
  exists j', getJob env2 (performStartupRecovery env2 store_running) id0 = Some j' /\
             status j' = QUEUED /\
             started_at j' = Some "2024-05-01T10:00:05.000Z" /\
             started_at j' <> None.
Proof.
  eexists. split; [vm_compute; reflexivity|].
  repeat split; discriminate.
Qed.

(** C4 (amended): after startup recovery of a key space whose records pass
    the schema and sit under their own ids, every job that had status
    scheduled or running is persisted with status queued, [agent_id] and
    [device_id] null, [error] 'Job reset due to server restart', and its
    [started_at] and [retry_count] unchanged; the record of a job in any
    other status is untouched. *)
Theorem performStartupRecovery_spec :
  forall (e e' : Env) (s : Store) (j : Job),
    store_wf s = true -> stored e s j ->
    let s' := performStartupRecovery e s in
    (status j = SCHEDULED \/ status j = RUNNING ->
     exists j',
       getJob e' s' (job_id j) = Some j' /\
       status j' = QUEUED /\ agent_id j' = None /\ device_id j' = None /\
       error j' = Some "Job reset due to server restart" /\
       started_at j' = started_at j /\ retry_count j' = retry_count j) /\
    (status j <> SCHEDULED /\ status j <> RUNNING ->
     redis_get (jobKey (job_id j)) s' = redis_get (jobKey (job_id j)) s).
Proof.
  intros e e' s j Hwf Hst s'.
  destruct (stored_record _ _ _ Hst) as (d & G & C).
  pose proof (performStartupRecovery_get e s (jobKey (job_id j)) Hwf) as Hget.
  rewrite G in Hget. cbn [option_map] in Hget.
  assert (HR : status_is d RUNNING = true <-> status j = RUNNING)
    by (apply (create_status e); [exact C | discriminate]).
  assert (HS : status_is d SCHEDULED = true <-> status j = SCHEDULED)
    by (apply (create_status e); [exact C | discriminate]).
  split.
  - intros Hc.
    assert (E : (status_is d RUNNING || status_is d SCHEDULED)%bool = true).
    { apply orb_true_iff. tauto. }
    unfold reset_record in Hget. rewrite E, C in Hget.
    set (j1 := updateStatus (clock e) QUEUED reset_extra j) in *.
    assert (Hok : Job_ok j1) by (unfold j1; eauto with schema).
    pose proof (create_normal _ _ _ C) as (_ & _ & Hn3 & _).
    exists (reload j1). split.
    + unfold getJob, s'. rewrite Hget. now apply create_toJSON.
    + unfold j1, reload, updateStatus, reset_extra; fields.
      cbn [assign JobStatus_eqb andb orb or_null nonempty].
      repeat split; try reflexivity. exact Hn3.
  - intros [Hs Hr].
    assert (E : (status_is d RUNNING || status_is d SCHEDULED)%bool = false).
    { apply orb_false_iff. split.
      - destruct (status_is d RUNNING); [exfalso; apply Hr; tauto | reflexivity].
      - destruct (status_is d SCHEDULED); [exfalso; apply Hs; tauto | reflexivity]. }
    unfold reset_record in Hget. rewrite E in Hget.
    unfold s'. now rewrite Hget, G.
Qed.

Lemma performStartupRecovery_spec_witness :
  (exists j',
      getJob env2 (performStartupRecovery env2 store_running) id0 = Some j' /\
      status j' = QUEUED /\ agent_id j' = None /\ device_id j' = None /\
      error j' = Some "Job reset due to server restart" /\
      started_at j' = Some "2024-05-01T10:00:05.000Z" /\ retry_count j' = 0) /\
  redis_get (jobKey id0) (performStartupRecovery env2 store_failed)
  = redis_get (jobKey id0) store_failed.
Proof.
  split.
  - refine (proj1 (performStartupRecovery_spec env2 env2 store_running
                     job_running _ _) _).
    + vm_compute. reflexivity.
    + vm_compute. reflexivity.
    + right. reflexivity.
  - refine (proj2 (performStartupRecovery_spec env2 env2 store_failed
                     job_failed _ _) _).
    + vm_compute. reflexivity.
    + vm_compute. reflexivity.
    + split; discriminate.
Defined.

(** ** Submission and deduplication *)

Lemma same_submission_iff (existing d : JobData) :
  same_submission existing d = true <->
  d_org_id existing = d_org_id d /\
  d_app_version_id existing = d_app_version_id d /\
  d_test_path existing = d_test_path d /\
  d_target existing = d_target d /\
  (d_status existing = Some QUEUED \/ d_status existing = Some SCHEDULED \/
   d_status existing = Some RUNNING).
Proof.
  unfold same_submission, status_is.
  rewrite !andb_true_iff, !orb_true_iff, !String.eqb_eq.
  assert (HT : opt_eqb Target_eqb (d_target existing) (d_target d) = true
               <-> d_target existing = d_target d).
  { destruct (d_target existing) as [x|], (d_target d) as [y|]; simpl;
      try (split; congruence).
    rewrite Target_eqb_eq. split; congruence. }
  assert (HS : forall st, opt_eqb JobStatus_eqb (d_status existing) (Some st) = true
                          <-> d_status existing = Some st).
  { intros st. destruct (d_status existing) as [x|]; simpl;
      [rewrite JobStatus_eqb_eq|]; split; congruence. }
  rewrite HT, !HS. tauto.
Qed.

Lemma findDuplicate_loop_none (e : Env) (s : Store) (d : JobData) (ks : list string) :
  (forall k ex, In k ks -> redis_get k s = Some ex -> same_submission ex d = false) ->
  findDuplicate_loop e s ks d = None.
Proof.
  induction ks as [|k ks IH]; intros H; simpl; [reflexivity|].
  destruct (redis_get k s) as [ex|] eqn:G.
  - rewrite (H k ex (or_introl eq_refl) G). apply IH.
    intros k' ex' Hin. apply H. now right.
  - apply IH. intros k' ex' Hin. apply H. now right.
Qed.

Lemma findDuplicate_loop_some (e : Env) (s : Store) (d : JobData) (ks : list string) :
  store_wf s = true ->
  (exists k ex, In k ks /\ redis_get k s = Some ex /\ same_submission ex d = true) ->
  exists k ex dup,
    In k ks /\ redis_get k s = Some ex /\ same_submission ex d = true /\
    create e ex = Some dup /\ findDuplicate_loop e s ks d = Some dup.
Proof.
  intros Hwf. induction ks as [|k0 ks IH]; intros (k & ex & Hin & G & M).
  - destruct Hin.
  - simpl. destruct (redis_get k0 s) as [ex0|] eqn:G0.
    + destruct (same_submission ex0 d) eqn:M0.
      * destruct (store_wf_get _ _ _ Hwf G0) as (Hv & _).
        destruct (validate_create e ex0 Hv) as [dup Hdup].
        exists k0, ex0, dup. rewrite Hdup. simpl. auto.
      * destruct Hin as [-> | Hin]; [congruence|].
        destruct IH as (k' & ex' & dup & ? & ? & ? & ? & ?); [eauto|].
        exists k', ex', dup. simpl. auto.
    + destruct Hin as [-> | Hin]; [congruence|].
      destruct IH as (k' & ex' & dup & ? & ? & ? & ? & ?); [eauto|].
      exists k', ex', dup. simpl. auto.
Qed.

(** C5 as stated fails: a repeated submission is answered with the message
    'Job already exists with same parameters', not 'duplicate'; and a
    submission without a duplicate that carries execution state is persisted
    as completed with progress 100 and retry count 2. *)
Lemma addJob_message_and_imported_state :
  (addJob env1 store0 (submission "acme" "v1" "a.spec" EMULATOR)
   = (store0, Ok (mkResponse id0 QUEUED "Job already exists with same parameters"))
   /\ "Job already exists with same parameters" <> "duplicate") /\
  (findDuplicateJob env1 store0 import_completed = None /\
   exists r, redis_get (jobKey id1) (fst (addJob env1 store0 import_completed))
             = Some r /\
             d_status r = Some COMPLETED /\ d_retry_count r = Some 2 /\
             d_progress r = Some 100 /\
             d_status r <> Some QUEUED).
Proof.
  split; [split; [vm_compute; reflexivity | discriminate]|].
  split; [vm_compute; reflexivity|].
  eexists. split; [vm_compute; reflexivity|].
  repeat split; discriminate.
Qed.

(** C5 (amended): a submission whose [(org_id, app_version_id, test_path,
    target)] equals that of a stored record with status queued, scheduled or
    running is answered with the job id and status of such a record and the
    message 'Job already exists with same parameters', and the key space is
    unchanged; a valid submission with no such record is persisted under its
    job id, with status, retry count and progress taken from the payload
    when it carries them and queued, 0 and 0 otherwise, and answered with
    'Job queued successfully'. *)
Theorem addJob_spec :
  forall (e : Env) (s : Store) (d : JobData),
    store_wf s = true ->
    ((exists k existing,
         redis_get k s = Some existing /\ same_submission existing d = true) ->
     exists k existing dup,
       redis_get k s = Some existing /\ same_submission existing d = true /\
       d_job_id existing = Some (job_id dup) /\
       d_status existing = Some (status dup) /\
       addJob e s d
       = (s, Ok (mkResponse (job_id dup) (status dup)
                   "Job already exists with same parameters"))) /\
    ((forall k existing,
         redis_get k s = Some existing -> same_submission existing d = false) ->
     validate d = true ->
     exists j,
       create e d = Some j /\
       addJob e s d
       = (storeJob s j,
          Ok (mkResponse (job_id j) (status j) "Job queued successfully")) /\
       redis_get (jobKey (job_id j)) (storeJob s j) = Some (toJSON j) /\
       status j = or_default (d_status d) QUEUED /\
       retry_count j = or_num (d_retry_count d) 0 /\
       progress j = or_num (d_progress d) 0 /\
       (d_status d = None -> d_retry_count d = None -> d_progress d = None ->
        status j = QUEUED /\ retry_count j = 0 /\ progress j = 0)).
Proof.
  intros e s d Hwf. split.
  - intros (k & ex & G & M).
    destruct (findDuplicate_loop_some e s d (redis_keys s) Hwf)
      as (k' & ex' & dup & Hin & G' & M' & C & F).
    { exists k, ex. split; [eapply redis_get_In_keys; eassumption | auto]. }
    exists k', ex', dup. split; [exact G'|]. split; [exact M'|].
    destruct (store_wf_get _ _ _ Hwf G') as (_ & id & Hid & _).
    split; [now rewrite Hid, (create_job_id _ _ _ _ C Hid)|].
    split.
    + apply same_submission_iff in M'. destruct M' as (_ & _ & _ & _ & Hst).
      apply create_Some in C. destruct C as [_ C]. unfold Job_create in C.
      destruct (validate ex'); [|discriminate]. injection C as <-. fields.
      destruct Hst as [-> | [-> | ->]]; reflexivity.
    + unfold addJob, findDuplicateJob. now rewrite F.
  - intros Hno Hv. destruct (validate_create e d Hv) as [j C].
    exists j. split; [exact C|].
    assert (F : findDuplicateJob e s d = None).
    { apply findDuplicate_loop_none. intros k ex _ G. eapply Hno; eassumption. }
    unfold addJob. rewrite F, C. split; [reflexivity|].
    split; [apply redis_get_set_same|].
    apply create_Some in C. destruct C as [_ C]. unfold Job_create in C.
    destruct (validate d); [|discriminate]. injection C as <-. fields.
    repeat split; try reflexivity;
      match goal with
      | H : d_status d = None |- or_default _ _ = _ => now rewrite H
      | H : d_retry_count d = None |- or_num (d_retry_count d) _ = _ => now rewrite H
      | H : d_progress d = None |- or_num (d_progress d) _ = _ => now rewrite H
      end.
Qed.

Lemma addJob_spec_witness :
  (exists k existing dup,
      redis_get k store0 = Some existing /\
      same_submission existing (submission "acme" "v1" "a.spec" EMULATOR) = true /\
      d_job_id existing = Some (job_id dup) /\
      d_status existing = Some (status dup) /\
      addJob env1 store0 (submission "acme" "v1" "a.spec" EMULATOR)
      = (store0, Ok (mkResponse (job_id dup) (status dup)
                       "Job already exists with same parameters"))) /\
  (exists j,
      create env0 (submission "acme" "v1" "a.spec" EMULATOR) = Some j /\
      addJob env0 [] (submission "acme" "v1" "a.spec" EMULATOR)
      = (storeJob [] j,
         Ok (mkResponse (job_id j) (status j) "Job queued successfully")) /\
      status j = QUEUED /\ retry_count j = 0 /\ progress j = 0).
Proof.
  split.
  - refine (proj1 (addJob_spec env1 store0
                     (submission "acme" "v1" "a.spec" EMULATOR) _) _).
    + reflexivity.
    + exists (jobKey id0), (toJSON job0). split; reflexivity.
  - destruct (proj2 (addJob_spec env0 []
                       (submission "acme" "v1" "a.spec" EMULATOR) eq_refl))
      as (j & C & A & _ & _ & _ & _ & D).
    + intros k existing H. discriminate H.
    + reflexivity.
    + exists j. split; [exact C|]. split; [exact A|].
      apply D; reflexivity.
Defined.

(** ** Cancel *)

Lemma cancelJob_accepts (e e' : Env) (s : Store) (j : Job) :
  stored e s j -> done (status j) = false ->
  let jc := updateStatus (clock e) CANCELLED no_extra j in
  cancelJob e s (job_id j)
  = (storeJob s jc,
     Ok (mkResponse (job_id j) CANCELLED "Job cancelled successfully")) /\
  getJob e' (storeJob s jc) (job_id j) = Some (reload jc).
Proof.
  intros Hst Hnd jc. unfold stored in Hst. split.
  - unfold cancelJob. now rewrite Hst, Hnd.
  - apply (getJob_storeJob_same e' s jc).
    apply updateStatus_ok; [apply no_extra_ok | eapply getJob_ok; eassumption].
Qed.

(** C6 as stated fails: [job0] is cancelled twice in succession and the
    second call is accepted like the first. *)
Lemma cancelJob_twice_accepted :
  snd (cancelJob env1 store0 id0)
  = Ok (mkResponse id0 CANCELLED "Job cancelled successfully") /\
  snd (cancelJob env2 (fst (cancelJob env1 store0 id0)) id0)
  = Ok (mkResponse id0 CANCELLED "Job cancelled successfully").
Proof. split; vm_compute; reflexivity. Qed.

(** C6 (amended): cancel on a stored job whose status is completed or failed
    is rejected with 'Cannot cancel completed or failed job' and leaves the
    key space unchanged; cancel on a stored job with any other status, a
    cancelled one included, is accepted and stores it as cancelled, so a
    second cancel right after an accepted one is accepted as well. *)
Theorem cancelJob_spec :
  forall (e e' : Env) (s : Store) (j : Job),
    stored e s j ->
    (status j = COMPLETED \/ status j = FAILED ->
     cancelJob e s (job_id j) = (s, Err CannotCancel)) /\
    (status j <> COMPLETED /\ status j <> FAILED ->
     let s' := fst (cancelJob e s (job_id j)) in
     snd (cancelJob e s (job_id j))
     = Ok (mkResponse (job_id j) CANCELLED "Job cancelled successfully") /\
     (exists j', getJob e' s' (job_id j) = Some j' /\ status j' = CANCELLED) /\
     snd (cancelJob e' s' (job_id j))
     = Ok (mkResponse (job_id j) CANCELLED "Job cancelled successfully")).
Proof.
  intros e e' s j Hst. split.
  - intros Hc. apply done_iff in Hc. unfold stored in Hst.
    unfold cancelJob. now rewrite Hst, Hc.
  - intros Hc. apply done_false_iff in Hc.
    destruct (cancelJob_accepts e e' s j Hst Hc) as [Heq Hget].
    cbv zeta. rewrite Heq. cbn [fst snd].
    split; [reflexivity|]. split; [eauto|].
    set (jc := reload (updateStatus (clock e) CANCELLED no_extra j)) in *.
    assert (Hst' : stored e' (storeJob s (updateStatus (clock e) CANCELLED no_extra j)) jc)
      by exact Hget.
    destruct (cancelJob_accepts e' e' _ jc Hst' eq_refl) as [Heq' _].
    change (job_id jc) with (job_id j) in Heq'. now rewrite Heq'.
Qed.

Lemma cancelJob_spec_witness :
  cancelJob env2 store_failed id0 = (store_failed, Err CannotCancel) /\
  snd (cancelJob env2 (fst (cancelJob env1 store0 id0)) id0)
  = Ok (mkResponse id0 CANCELLED "Job cancelled successfully").
Proof.
  split.
  - refine (proj1 (cancelJob_spec env2 env2 store_failed job_failed _) _).
    + vm_compute. reflexivity.
    + right. reflexivity.
  - refine (proj2 (proj2 (proj2 (cancelJob_spec env1 env2 store0 job0 _) _))).
    + reflexivity.
    + split; discriminate.
Defined.

(** ** Completion time *)

(** C7 as stated fails: [job0] is cancelled while queued; the call is
    accepted and the stored record is cancelled with [completed_at] null. *)
Lemma cancelJob_leaves_completed_at_null :
  snd (cancelJob env1 store0 id0)
  = Ok (mkResponse id0 CANCELLED "Job cancelled successfully") /\
  exists j', getJob env2 (fst (cancelJob env1 store0 id0)) id0 = Some j' /\
             status j' = CANCELLED /\ completed_at j' = None.
Proof.
  split; [vm_compute; reflexivity|].
  eexists. split; [vm_compute; reflexivity|]. split; reflexivity.
Qed.

(** C7 (amended): [updateStatus] sets [completed_at] to the current time on
    every move to completed or failed, and leaves it as it is on a move to
    any other status, cancelled included; an accepted cancel therefore
    stores the record with the [completed_at] it had, null for a job that
    never completed or failed. *)
Theorem completed_at_spec :
  (forall (now : string) (st : JobStatus) (x : Extra) (j : Job),
      (st = COMPLETED \/ st = FAILED ->
       completed_at (updateStatus now st x j) = Some now) /\
      (st <> COMPLETED /\ st <> FAILED ->
       completed_at (updateStatus now st x j) = completed_at j)) /\
  (forall (e e' : Env) (s : Store) (j : Job),
      stored e s j -> status j <> COMPLETED /\ status j <> FAILED ->
      snd (cancelJob e s (job_id j))
      = Ok (mkResponse (job_id j) CANCELLED "Job cancelled successfully") /\
      exists j', getJob e' (fst (cancelJob e s (job_id j))) (job_id j) = Some j' /\
                 status j' = CANCELLED /\ completed_at j' = completed_at j).
Proof.
  split.
  - intros now st x j. split.
    + intros [-> | ->]; reflexivity.
    + intros [H1 H2]. destruct st; try reflexivity; congruence.
  - intros e e' s j Hst Hc. apply done_false_iff in Hc.
    destruct (cancelJob_accepts e e' s j Hst Hc) as [Heq Hget].
    rewrite Heq. cbn [fst snd]. split; [reflexivity|].
    eexists. split; [exact Hget|]. split; [reflexivity|].
    pose proof (getJob_normal _ _ _ _ Hst) as (_ & _ & _ & Hn & _).
    exact Hn.
Qed.

Lemma completed_at_spec_witness :
  completed_at (updateStatus "2024-05-01T10:00:08.000Z" COMPLETED no_extra job0)
  = Some "2024-05-01T10:00:08.000Z" /\
  exists j', getJob env2 (fst (cancelJob env1 store0 (job_id job0))) (job_id job0)
             = Some j' /\
             status j' = CANCELLED /\ completed_at j' = completed_at job0.
Proof.
  split.
  - refine (proj1 (proj1 completed_at_spec "2024-05-01T10:00:08.000Z"
                     COMPLETED no_extra job0) _).
    left. reflexivity.
  - refine (proj2 (proj2 completed_at_spec env1 env2 store0 job0 _ _)).
    + reflexivity.
    + split; discriminate.
Defined.

(** ** Groups *)

Lemma newGroup_id (gid : string) : gd_group_id (newGroup gid) = gid.
Proof. unfold newGroup. now destruct (parseGroupId gid) as [[? ?] ?]. Qed.

Lemma newGroup_jobs (gid : string) : gd_jobs (newGroup gid) = [].
Proof. unfold newGroup. now destruct (parseGroupId gid) as [[? ?] ?]. Qed.

Lemma members_cons (g : GroupData) (gs : list GroupData) :
  members (g :: gs)
  = (map (fun j => (gd_group_id g, j)) (gd_jobs g) ++ members gs)%list.
Proof. reflexivity. Qed.

Lemma members_groups_add (gid : string) (j : Job) (gs : list GroupData) (x : string * Job) :
  In x (members (groups_add gid j gs)) <-> x = (gid, j) \/ In x (members gs).
Proof.
  induction gs as [|g r IH]; cbn [groups_add].
  - rewrite members_cons. cbn [pushJob gd_group_id gd_jobs].
    rewrite newGroup_id, newGroup_jobs. simpl. intuition congruence.
  - destruct (String.eqb (gd_group_id g) gid) eqn:E.
    + apply String.eqb_eq in E. rewrite !members_cons.
      cbn [pushJob gd_group_id gd_jobs]. rewrite map_app, !in_app_iff.
      simpl. rewrite E. intuition congruence.
    + rewrite !members_cons, !in_app_iff, IH. tauto.
Qed.

Lemma ids_groups_add (gid : string) (j : Job) (gs : list GroupData) :
  NoDup (map gd_group_id gs) ->
  NoDup (map gd_group_id (groups_add gid j gs)) /\
  (forall g', In g' (map gd_group_id (groups_add gid j gs)) <->
              g' = gid \/ In g' (map gd_group_id gs)).
Proof.
  induction gs as [|g r IH]; cbn [groups_add]; intros Hnd.
  - cbn [map pushJob gd_group_id]. rewrite newGroup_id. split.
    + constructor; [intros [] | constructor].
    + intros g'. simpl. intuition congruence.
  - inversion Hnd as [|? ? Hnotin Hnd']; subst.
    destruct (String.eqb (gd_group_id g) gid) eqn:E.
    + apply String.eqb_eq in E. cbn [map pushJob gd_group_id]. split.
      * constructor; assumption.
      * intros g'. simpl. rewrite E. intuition congruence.
    + destruct (IH Hnd') as [IH1 IH2]. cbn [map]. split.
      * constructor; [|exact IH1]. rewrite IH2. intros [Heq | Hin].
        -- rewrite Heq, String.eqb_refl in E. discriminate.
        -- contradiction.
      * intros g'. simpl. rewrite IH2. tauto.
Qed.

Lemma groups_add_nonempty (gid : string) (j : Job) (gs : list GroupData) :
  (forall g, In g gs -> gd_jobs g <> []) ->
  forall g, In g (groups_add gid j gs) -> gd_jobs g <> [].
Proof.
  induction gs as [|g0 r IH]; cbn [groups_add]; intros H g.
  - intros [<- | []]. cbn [pushJob gd_jobs]. now destruct (gd_jobs (newGroup gid)).
  - destruct (String.eqb (gd_group_id g0) gid).
    + intros [<- | Hin].
      * cbn [pushJob gd_jobs]. now destruct (gd_jobs g0).
      * apply H. now right.
    + intros [<- | Hin].
      * apply H. now left.
      * apply IH; [|exact Hin]. intros g' Hg'. apply H. now right.
Qed.

(** The invariant of the scan of [getJobGroups]. *)
Lemma groups_loop_spec (e : Env) (s : Store) (ks : list string) :
  store_wf s = true ->
  forall gs,
    NoDup (map gd_group_id gs) ->
    (forall g, In g gs -> gd_jobs g <> []) ->
    exists gs',
      groups_loop e s ks gs = Some gs' /\
      NoDup (map gd_group_id gs') /\
      (forall g, In g gs' -> gd_jobs g <> []) /\
      (forall x, In x (members gs') <->
                 In x (members gs) \/
                 exists k d j, In k ks /\ redis_get k s = Some d /\
                               create e d = Some j /\ done (status j) = false /\
                               x = (getGroupId j, j)).
Proof.
  intros Hwf. induction ks as [|k ks IH]; intros gs Hnd Hne; cbn [groups_loop].
  - exists gs. repeat split; auto.
    + intros [H | (k & d & j & [] & _)]. exact H.
  - destruct (redis_get k s) as [d|] eqn:G.
    + destruct (store_wf_get _ _ _ Hwf G) as (Hv & _).
      destruct (validate_create e d Hv) as [j C]. rewrite C.
      destruct (done (status j)) eqn:D.
      * destruct (IH gs Hnd Hne) as (gs' & H1 & H2 & H3 & H4).
        exists gs'. repeat split; auto.
        -- intros Hx. apply H4 in Hx.
           destruct Hx as [Hx | (k' & d' & j' & Hin & ?)]; [now left|].
           right. exists k', d', j'. split; [now right | assumption].
        -- intros [Hx | (k' & d' & j' & Hin & G' & C' & D' & ->)].
           ++ apply H4. now left.
           ++ apply H4. destruct Hin as [<- | Hin].
              ** rewrite G in G'. injection G' as <-. rewrite C in C'.
                 injection C' as <-. congruence.
              ** right. exists k', d', j'. auto.
      * destruct (ids_groups_add (getGroupId j) j gs Hnd) as [Hnd' _].
        pose proof (groups_add_nonempty (getGroupId j) j gs Hne) as Hne'.
        destruct (IH _ Hnd' Hne') as (gs' & H1 & H2 & H3 & H4).
        exists gs'. repeat split; auto.
        -- intros Hx. apply H4 in Hx.
           destruct Hx as [Hx | (k' & d' & j' & Hin & ?)].
           ++ apply members_groups_add in Hx. destruct Hx as [-> | Hx]; [|now left].
              right. exists k, d, j. simpl. auto.
           ++ right. exists k', d', j'. split; [now right | assumption].
        -- intros [Hx | (k' & d' & j' & Hin & G' & C' & D' & ->)].
           ++ apply H4. left. apply members_groups_add. now right.
           ++ apply H4. destruct Hin as [<- | Hin].
              ** rewrite G in G'. injection G' as <-. rewrite C in C'.
                 injection C' as <-. left. apply members_groups_add. now left.
              ** right. exists k', d', j'. auto.
    + destruct (IH gs Hnd Hne) as (gs' & H1 & H2 & H3 & H4).
      exists gs'. repeat split; auto.
      * intros Hx. apply H4 in Hx.
        destruct Hx as [Hx | (k' & d' & j' & Hin & ?)]; [now left|].
        right. exists k', d', j'. split; [now right | assumption].
      * intros [Hx | (k' & d' & j' & Hin & G' & C' & D' & ->)].
        -- apply H4. now left.
        -- apply H4. destruct Hin as [<- | Hin]; [congruence|].
           right. exists k', d', j'. auto.
Qed.

Lemma In_members_id (gs : list GroupData) (gid : string) (j : Job) :
  In (gid, j) (members gs) -> In gid (map gd_group_id gs).
Proof.
  unfold members. rewrite in_flat_map. intros (g & Hg & Hin).
  apply in_map_iff in Hin. destruct Hin as (j' & [= <- <-] & _).
  now apply in_map.
Qed.

Lemma In_id_members (gs : list GroupData) (gid : string) :
  (forall g, In g gs -> gd_jobs g <> []) ->
  In gid (map gd_group_id gs) -> exists j, In (gid, j) (members gs).
Proof.
  intros Hne Hin. apply in_map_iff in Hin. destruct Hin as (g & <- & Hg).
  specialize (Hne g Hg). destruct (gd_jobs g) as [|j js] eqn:E; [congruence|].
  exists j. unfold members. apply in_flat_map. exists g. split; [exact Hg|].
  rewrite E. now left.
Qed.

(** ** The stable sort *)

Section StableSort.
Context {A : Type} (cmp : A -> A -> Z).

Lemma sort_insert_perm (x : A) (l : list A) :
  Permutation (sort_insert cmp x l) (x :: l).
Proof.
  induction l as [|y r IH]; simpl; [reflexivity|].
  destruct (cmp x y <=? 0); [reflexivity|].
  rewrite IH. apply perm_swap.
Qed.

Lemma array_sort_perm (l : list A) : Permutation (array_sort cmp l) l.
Proof.
  induction l as [|x r IH]; simpl; [reflexivity|].
  rewrite sort_insert_perm. now constructor.
Qed.

Lemma array_sort_length (l : list A) :
  List.length (array_sort cmp l) = List.length l.
Proof. apply Permutation_length, array_sort_perm. Qed.

Lemma array_sort_In (x : A) (l : list A) : In x (array_sort cmp l) <-> In x l.
Proof.
  split; apply Permutation_in;
    [apply array_sort_perm | symmetry; apply array_sort_perm].
Qed.
End StableSort.

(** C8 as stated fails: the only record of [store_cancelled] is a cancelled
    job; it is a member of a group, the group view has one group of one job,
    and the statistics count one group. *)
Lemma cancelled_job_is_grouped :
  stored env2 store_cancelled job_cancelled /\
  status job_cancelled = CANCELLED /\
  (exists gs, jobGroups env2 store_cancelled = Some gs /\
              In ("acme_v1_emulator", job_cancelled) (members gs)) /\
  map g_job_count (getJobGroups env2 store_cancelled) = [1%nat] /\
  groups (getQueueStats env2 store_cancelled) = 1%nat.
Proof.
  split; [vm_compute; reflexivity|]. split; [reflexivity|].
  split; [|split; vm_compute; reflexivity].
  eexists. split; [vm_compute; reflexivity|]. left. reflexivity.
Qed.

(** C8 (amended): for every key space whose records pass the schema and sit
    under their own ids, the group view contains exactly the jobs whose
    status is neither completed nor failed, each in the one bucket of its
    group id; every bucket has a member and a distinct id, its reported job
    count is its number of members, and the group count of the statistics is
    the number of these buckets. *)
Theorem getJobGroups_spec :
  forall (e : Env) (s : Store),
    store_wf s = true ->
    exists gs,
      jobGroups e s = Some gs /\
      getJobGroups e s = map summarize gs /\
      (forall gid j,
          In (gid, j) (members gs) <->
          scanned e s j /\ status j <> COMPLETED /\ status j <> FAILED /\
          getGroupId j = gid) /\
      NoDup (map gd_group_id gs) /\
      (forall gid,
          In gid (map gd_group_id gs) <->
          exists j, scanned e s j /\ status j <> COMPLETED /\
                    status j <> FAILED /\ getGroupId j = gid) /\
      (forall g, In g gs ->
                 g_group_id (summarize g) = gd_group_id g /\
                 g_job_count (summarize g) = List.length (gd_jobs g)) /\
      groups (getQueueStats e s) = List.length gs.
Proof.
  intros e s Hwf.
  destruct (groups_loop_spec e s (redis_keys s) Hwf [] (NoDup_nil _))
    as (gs & H1 & H2 & H3 & H4); [intros g []|].
  assert (Hmem : forall gid j,
             In (gid, j) (members gs) <->
             scanned e s j /\ status j <> COMPLETED /\ status j <> FAILED /\
             getGroupId j = gid).
  { intros gid j. rewrite H4. split.
    - intros [[] | (k & d & j' & Hin & G & C & D & [= -> ->])].
      apply done_false_iff in D. destruct D. repeat split; auto.
      exists k, d. auto.
    - intros ((k & d & Hin & G & C) & Hc & Hf & <-). right.
      exists k, d, j. repeat split; auto. apply done_false_iff. auto. }
  assert (Hview : getJobGroups e s = map summarize gs).
  { unfold getJobGroups, jobGroups. now rewrite H1. }
  exists gs. split; [exact H1|]. split; [exact Hview|].
  split; [exact Hmem|]. split; [exact H2|]. split; [|split].
  - intros gid. split.
    + intros Hin. destruct (In_id_members gs gid H3 Hin) as [j Hj].
      exists j. now apply Hmem.
    + intros (j & Hj). eapply In_members_id. apply Hmem. exact Hj.
  - intros g _. split; [reflexivity|].
    unfold summarize. cbn [g_job_count]. apply array_sort_length.
  - unfold getQueueStats. cbn [groups]. rewrite Hview. apply length_map.
Qed.

Lemma getJobGroups_spec_witness :
  exists gs,
    jobGroups env2 store_cancelled = Some gs /\
    (forall gid j,
        In (gid, j) (members gs) <->
        scanned env2 store_cancelled j /\ status j <> COMPLETED /\
        status j <> FAILED /\ getGroupId j = gid) /\
    groups (getQueueStats env2 store_cancelled) = List.length gs.
Proof.
  destruct (getJobGroups_spec env2 store_cancelled) as (gs & H1 & _ & H3 & _ & _ & _ & H7).
  - reflexivity.
  - exists gs. split; [exact H1|]. split; [exact H3 | exact H7].
Defined.

(** ** Order of the jobs of a group *)

Lemma sort_insert_sorted (x : Job) (l : list Job) :
  StronglySorted prio_ge l -> StronglySorted prio_ge (sort_insert byPriority x l).
Proof.
  induction l as [|y r IH]; intros Hs; simpl.
  - constructor; constructor.
  - inversion Hs as [|? ? Hr Hy]; subst.
    destruct (byPriority x y <=? 0) eqn:E.
    + apply Z.leb_le in E. unfold byPriority in E.
      constructor; [exact Hs|]. constructor.
      * unfold prio_ge. lia.
      * eapply Forall_impl; [|exact Hy]. unfold prio_ge. intros z Hz. lia.
    + apply Z.leb_gt in E. unfold byPriority in E.
      constructor; [now apply IH|].
      eapply Permutation_Forall.
      * symmetry. apply sort_insert_perm.
      * constructor; [unfold prio_ge; lia | exact Hy].
Qed.

Lemma array_sort_sorted (l : list Job) :
  StronglySorted prio_ge (array_sort byPriority l).
Proof.
  induction l as [|x r IH]; simpl; [constructor|].
  now apply sort_insert_sorted.
Qed.

Lemma has_priority_score (p : Priority) (x y : Job) :
  has_priority p x = true -> has_priority p y = true ->
  getPriorityScore x = getPriorityScore y.
Proof.
  unfold has_priority, getPriorityScore.
  destruct (priority x), (priority y), p; simpl; congruence.
Qed.

Lemma sort_insert_stable (p : Priority) (x : Job) (l : list Job) :
  filter (has_priority p) (sort_insert byPriority x l)
  = filter (has_priority p) (x :: l).
Proof.
  induction l as [|y r IH]; [reflexivity|].
  cbn [sort_insert]. destruct (byPriority x y <=? 0) eqn:E; [reflexivity|].
  apply Z.leb_gt in E. unfold byPriority in E.
  cbn [filter] in *. rewrite IH.
  destruct (has_priority p x) eqn:Hx, (has_priority p y) eqn:Hy; try reflexivity.
  pose proof (has_priority_score p x y Hx Hy). lia.
Qed.

Lemma array_sort_stable (p : Priority) (l : list Job) :
  filter (has_priority p) (array_sort byPriority l) = filter (has_priority p) l.
Proof.
  induction l as [|x r IH]; [reflexivity|].
  cbn [array_sort]. rewrite sort_insert_stable. cbn [filter]. now rewrite IH.
Qed.

Lemma groupCandidates_status (e : Env) (s : Store) (gid : string)
    (wanted : JobStatus) (j : Job) :
  In j (groupCandidates e s gid wanted) -> status j = wanted.
Proof.
  unfold groupCandidates. destruct (parseGroupId gid) as [[o a] t].
  intros H. apply filter_In in H. destruct H as [_ H].
  unfold inGroup in H. apply andb_true_iff in H. destruct H as [_ H].
  now apply JobStatus_eqb_eq.
Qed.

Example store_two_order :
  map job_id (getJobsInGroup env2 store_two "acme_v1_emulator")
  = ["job_late"; "job_early"] /\
  map timestamp (getJobsInGroup env2 store_two "acme_v1_emulator")
  = ["2024-05-01T10:00:03.000Z"; "2024-05-01T10:00:01.000Z"] /\
  map priority (getJobsInGroup env2 store_two "acme_v1_emulator")
  = [MEDIUM; MEDIUM].
Proof. repeat split; vm_compute; reflexivity. Qed.

(** C9 as stated fails: the two queued jobs of [store_two] have the same
    priority, and the one selected first has the later timestamp. *)
Lemma getJobsInGroup_not_by_timestamp :
  sorted_by before_prio_time (getJobsInGroup env2 store_two "acme_v1_emulator")
  = false.
Proof. vm_compute. reflexivity. Qed.

(** C9 (amended): for every group, the list of queued jobs selected for
    execution holds the queued jobs of the group, sorted by priority
    descending; among jobs of equal priority the order is the one in which
    the scan of the key space met them, whatever their timestamps. *)
Theorem getJobsInGroup_sorted :
  forall (e : Env) (s : Store) (gid : string),
    StronglySorted prio_ge (getJobsInGroup e s gid) /\
    Permutation (getJobsInGroup e s gid) (groupCandidates e s gid QUEUED) /\
    (forall p,
        filter (has_priority p) (getJobsInGroup e s gid)
        = filter (has_priority p) (groupCandidates e s gid QUEUED)) /\
    (forall j, In j (getJobsInGroup e s gid) -> status j = QUEUED).
Proof.
  intros e s gid. unfold getJobsInGroup. split; [apply array_sort_sorted|].
  split; [apply array_sort_perm|]. split; [intros p; apply array_sort_stable|].
  intros j Hj. eapply groupCandidates_status.
  apply array_sort_In in Hj. exact Hj.
Qed.

(** ** Group ids *)

Lemma append_empty_r (s : string) : s ++ "" = s.
Proof. induction s as [|c r IH]; simpl; [reflexivity | now rewrite IH]. Qed.

Lemma append_assoc (a b c : string) : (a ++ b) ++ c = a ++ (b ++ c).
Proof. induction a as [|x r IH]; simpl; [reflexivity | now rewrite IH]. Qed.

Lemma rev_string_app (acc : list ascii) (t : string) :
  rev_string acc t = rev_string acc "" ++ t.
Proof.
  revert t. induction acc as [|c r IH]; intros t; simpl; [reflexivity|].
  rewrite (IH (String c t)), (IH (String c "")), append_assoc. reflexivity.
Qed.

Lemma split_from_piece (sep : ascii) (a rest : string) :
  has_char sep a = false ->
  forall acc,
    split_from sep acc (a ++ String sep rest)
    = (rev_string acc "" ++ a) :: split_from sep [] rest.
Proof.
  induction a as [|c r IH]; intros Hno acc.
  - simpl. rewrite Ascii.eqb_refl, append_empty_r. reflexivity.
  - simpl in Hno. apply orb_false_iff in Hno. destruct Hno as [Hc Hr].
    simpl. rewrite Hc, (IH Hr). f_equal. simpl.
    rewrite (rev_string_app acc (String c "")), append_assoc. reflexivity.
Qed.

Lemma split_from_last (sep : ascii) (a : string) :
  has_char sep a = false ->
  forall acc, split_from sep acc a = [rev_string acc "" ++ a].
Proof.
  induction a as [|c r IH]; intros Hno acc.
  - simpl. now rewrite append_empty_r.
  - simpl in Hno. apply orb_false_iff in Hno. destruct Hno as [Hc Hr].
    simpl. rewrite Hc, (IH Hr). f_equal. simpl.
    rewrite (rev_string_app acc (String c "")), append_assoc. reflexivity.
Qed.

Lemma split_three (sep : ascii) (a b c : string) :
  has_char sep a = false -> has_char sep b = false -> has_char sep c = false ->
  split sep (a ++ String sep (b ++ String sep c)) = [a; b; c].
Proof.
  intros Ha Hb Hc. unfold split.
  rewrite (split_from_piece sep a _ Ha), (split_from_piece sep b _ Hb),
    (split_from_last sep c Hc).
  reflexivity.
Qed.

Lemma Target_str_plain (t : Target) : has_char underscore (Target_str t) = false.
Proof. destruct t; reflexivity. Qed.

Lemma Target_str_inj (a b : Target) : Target_str a = Target_str b -> a = b.
Proof. destruct a, b; simpl; intros H; try reflexivity; discriminate. Qed.

Lemma parseGroupId_plain (j : Job) :
  has_char underscore (org_id j) = false ->
  has_char underscore (app_version_id j) = false ->
  parseGroupId (getGroupId j)
  = (Some (org_id j), Some (app_version_id j), Some (Target_str (target j))).
Proof.
  intros Ho Ha. unfold parseGroupId, getGroupId.
  change (org_id j ++ "_" ++ app_version_id j ++ "_" ++ Target_str (target j))
    with (org_id j ++ String underscore
            (app_version_id j ++ String underscore (Target_str (target j)))).
  rewrite (split_three underscore _ _ _ Ho Ha (Target_str_plain _)).
  reflexivity.
Qed.

Lemma create_org_id (e : Env) (d : JobData) (j : Job) :
  create e d = Some j -> org_id j = d_org_id d.
Proof.
  unfold create, Job_create. destruct (validate d); [|discriminate].
  now intros [= <-].
Qed.

(** The scan of [getJobs] without a status filter. *)
Lemma getJobs_loop_spec (e : Env) (s : Store) (org : string) (ks : list string) :
  store_wf s = true ->
  exists js,
    getJobs_loop e s ks org None = Some js /\
    forall j, In j js <->
              exists k d, In k ks /\ redis_get k s = Some d /\
                          create e d = Some j /\ org_id j = org.
Proof.
  intros Hwf. induction ks as [|k ks (js & IH1 & IH2)]; cbn [getJobs_loop].
  - exists []. split; [reflexivity|]. intros j. split; [intros [] |].
    intros (k & d & [] & _).
  - destruct (redis_get k s) as [d|] eqn:G.
    + destruct (store_wf_get _ _ _ Hwf G) as (Hv & _).
      destruct (validate_create e d Hv) as [j0 C].
      rewrite andb_true_r.
      destruct (String.eqb (d_org_id d) org) eqn:E.
      * rewrite C, IH1. exists (j0 :: js). split; [reflexivity|].
        apply String.eqb_eq in E. intros j. simpl. rewrite IH2. split.
        -- intros [<- | (k' & d' & Hin & ?)].
           ++ exists k, d. rewrite (create_org_id _ _ _ C). simpl. auto.
           ++ exists k', d'. split; [now right | assumption].
        -- intros (k' & d' & [<- | Hin] & G' & C' & Ho).
           ++ left. congruence.
           ++ right. exists k', d'. auto.
      * exists js. split; [exact IH1|]. intros j. rewrite IH2. split.
        -- intros (k' & d' & Hin & ?). exists k', d'.
           split; [now right | assumption].
        -- intros (k' & d' & [<- | Hin] & G' & C' & Ho).
           ++ rewrite G in G'. injection G' as <-.
              rewrite <- (create_org_id _ _ _ C'), Ho, String.eqb_refl in E.
              discriminate.
           ++ exists k', d'. auto.
    + exists js. split; [exact IH1|]. intros j. rewrite IH2. split.
      * intros (k' & d' & Hin & ?). exists k', d'.
        split; [now right | assumption].
      * intros (k' & d' & [<- | Hin] & G' & ?); [congruence|].
        exists k', d'. auto.
Qed.

Lemma getJobs_spec (e : Env) (s : Store) (org : string) (j : Job) :
  store_wf s = true ->
  In j (getJobs e s org None) <-> scanned e s j /\ org_id j = org.
Proof.
  intros Hwf. unfold getJobs, scanned.
  destruct (getJobs_loop_spec e s org (redis_keys s) Hwf) as (js & -> & H).
  rewrite H. split.
  - intros (k & d & ? & ? & ? & ?). split; [exists k, d|]; auto.
  - intros ((k & d & ? & ? & ?) & ?). exists k, d. auto.
Qed.

Lemma inGroup_iff (app tgt : string) (wanted : JobStatus) (t : Target) (j : Job) :
  tgt = Target_str t ->
  inGroup (Some app) (Some tgt) wanted j = true <->
  app_version_id j = app /\ target j = t /\ status j = wanted.
Proof.
  intros ->. unfold inGroup. cbn [opt_eqb].
  rewrite !andb_true_iff, !String.eqb_eq, JobStatus_eqb_eq. split.
  - intros [[Ha Ht] Hs]. auto using Target_str_inj.
  - intros (Ha & Ht & Hs). now rewrite Ht.
Qed.

Example underscore_job_not_selected :
  stored env1 store_under job_under /\
  getGroupId job_under = "my_org_v1_emulator" /\
  parseGroupId (getGroupId job_under) = (Some "my", Some "org", Some "v1") /\
  getJobsInGroup env1 store_under (getGroupId job_under) = [].
Proof. repeat split; vm_compute; reflexivity. Qed.

(** C10: for every job whose [org_id] and [app_version_id] contain no
    underscore, splitting its group id on '_' and taking the first three
    parts gives back its [org_id], [app_version_id] and target, so the
    scheduler's lookup by that group id selects exactly the queued jobs of
    that organization with the same [app_version_id] and target, which in a
    key space of loadable records are the queued jobs with the same three
    values; and there is a job with an underscore in its [org_id] for which
    the three parts differ from its [org_id], [app_version_id] and target. *)
Theorem parseGroupId_getGroupId :
  (forall j : Job,
      has_char underscore (org_id j) = false ->
      has_char underscore (app_version_id j) = false ->
      parseGroupId (getGroupId j)
      = (Some (org_id j), Some (app_version_id j), Some (Target_str (target j))) /\
      (forall (e : Env) (s : Store) (j' : Job),
          In j' (getJobsInGroup e s (getGroupId j)) <->
          In j' (getJobs e s (org_id j) None) /\
          app_version_id j' = app_version_id j /\ target j' = target j /\
          status j' = QUEUED) /\
      (forall (e : Env) (s : Store) (j' : Job),
          store_wf s = true ->
          (In j' (getJobsInGroup e s (getGroupId j)) <->
           scanned e s j' /\ org_id j' = org_id j /\
           app_version_id j' = app_version_id j /\ target j' = target j /\
           status j' = QUEUED))) /\
  (exists d j,
      create env0 d = Some j /\
      has_char underscore (org_id j) = true /\
      parseGroupId (getGroupId j)
      <> (Some (org_id j), Some (app_version_id j), Some (Target_str (target j)))).
Proof.
  split.
  - intros j Ho Ha. pose proof (parseGroupId_plain j Ho Ha) as Hp.
    assert (Hsel : forall e s j',
               In j' (getJobsInGroup e s (getGroupId j)) <->
               In j' (getJobs e s (org_id j) None) /\
               app_version_id j' = app_version_id j /\ target j' = target j /\
               status j' = QUEUED).
    { intros e s j'. unfold getJobsInGroup, groupCandidates. rewrite Hp.
      rewrite array_sort_In, filter_In.
      rewrite (inGroup_iff _ _ _ (target j)) by reflexivity. reflexivity. }
    split; [exact Hp|]. split; [exact Hsel|].
    intros e s j' Hwf. rewrite Hsel, (getJobs_spec e s _ _ Hwf). tauto.
  - exists (submission "my_org" "v1" "a.spec" EMULATOR), job_under.
    split; [reflexivity|]. split; [reflexivity|].
    vm_compute. discriminate.
Qed.

Lemma parseGroupId_getGroupId_witness :
  parseGroupId (getGroupId job0) = (Some "acme", Some "v1", Some "emulator") /\
  forall j',
    In j' (getJobsInGroup env1 store0 (getGroupId job0)) <->
    scanned env1 store0 j' /\ org_id j' = org_id job0 /\
    app_version_id j' = app_version_id job0 /\ target j' = target job0 /\
    status j' = QUEUED.
Proof.
  destruct (proj1 parseGroupId_getGroupId job0) as (Hp & _ & Hm).
  - reflexivity.
  - reflexivity.
  - split; [exact Hp|]. intros j'. apply Hm. reflexivity.
Defined.

(** * Properties of the rest of the code *)

(** ** Serialization *)

Lemma toJSON_reload (j : Job) : normal j -> toJSON (reload j) = toJSON j.
Proof.
  intros (H1 & H2 & H3 & H4 & H5 & H6 & H7). unfold toJSON, reload; fields.
  now rewrite H1, H2, H3, H4, H5, H6, H7.
Qed.

(** X1: a job written with [toJSON] and read back with [Job.create] has every
    stored field as before, and [max_retries] 3 whatever it was. *)
Theorem create_toJSON_roundtrip :
  forall (e e' : Env) (d : JobData) (j : Job),
    create e d = Some j ->
    exists j', create e' (toJSON j) = Some j' /\
               toJSON j' = toJSON j /\ max_retries j' = 3.
Proof.
  intros e e' d j C. exists (reload j). split.
  - apply create_toJSON. eapply create_ok; eassumption.
  - split; [|reflexivity]. apply toJSON_reload. eapply create_normal; eassumption.
Qed.

Lemma create_toJSON_roundtrip_witness :
  max_retries job_five = 5 /\
  exists j', create env1 (toJSON job_five) = Some j' /\
             toJSON j' = toJSON job_five /\ max_retries j' = 3.
Proof.
  split; [reflexivity|].
  refine (create_toJSON_roundtrip env0 env1 import_retries job_five _).
  reflexivity.
Defined.

(** ** The well-formed key space is kept *)

Lemma incrementRetry_ok (now : string) (j : Job) :
  Job_ok j -> 0 <= retry_count j -> Job_ok (incrementRetry now j).
Proof.
  intros Hok Hrc. unfold incrementRetry. cbv zeta.
  assert (H1 : Job_ok (set_retry_count (retry_count j + 1) j))
    by (apply set_retry_count_ok; [lia | exact Hok]).
  destruct (_ <? _); apply updateStatus_ok; auto with schema.
Qed.

Lemma markRunning_wf s job a d r :
  nonempty a = true -> nonempty d = true ->
  store_wf s = true -> store_wf (markRunning s job a d r) = true.
Proof.
  intros Ha Hd Hs. unfold markRunning.
  destruct (getJob (env_start r) s (job_id job)) as [j|] eqn:G; [|exact Hs].
  apply storeJob_wf; [exact Hs|].
  apply updateStatus_ok; [now apply running_extra_ok | eapply getJob_ok; eassumption].
Qed.

Lemma simulateTestExecution_wf s job a d r :
  nonempty a = true -> nonempty d = true ->
  (forall st, store_wf st = true -> store_wf (during r st) = true) ->
  store_wf s = true -> store_wf (simulateTestExecution s job a d r) = true.
Proof.
  intros Ha Hd Hq Hs. unfold simulateTestExecution.
  destruct (getJob (env_start r) s (job_id job)) as [j|]; [|exact Hs].
  destruct (done (status j)); [exact Hs|].
  destruct (getJob (env_end r) (during r s) (job_id job)) as [c|] eqn:G; [|auto].
  destruct (done (status c)); [auto|].
  pose proof (getJob_ok _ _ _ _ G) as Hc.
  destruct (success r); apply storeJob_wf; auto;
    apply updateStatus_ok; auto using passed_extra_ok, failed_extra_ok.
Qed.

Lemma updateProgress_wf s job i n r :
  (i < n)%nat -> store_wf s = true -> store_wf (updateProgress s job i n r) = true.
Proof.
  intros Hi Hs. unfold updateProgress.
  destruct (getJob (env_end r) s (job_id job)) as [c|] eqn:G; [|exact Hs].
  destruct (JobStatus_eqb (status c) RUNNING); [|exact Hs].
  apply storeJob_wf; [exact Hs|].
  apply set_progress_ok; [now apply progressAt_bounds | eapply getJob_ok; eassumption].
Qed.

Lemma executeOne_wf s job a d i n r :
  nonempty a = true -> nonempty d = true -> (i < n)%nat ->
  (forall st, store_wf st = true -> store_wf (during r st) = true) ->
  store_wf s = true -> store_wf (executeOne s job a d i n r) = true.
Proof.
  intros Ha Hd Hi Hq Hs. unfold executeOne.
  apply updateProgress_wf; [exact Hi|].
  apply simulateTestExecution_wf; auto. now apply markRunning_wf.
Qed.

Lemma executeTests_from_wf s a d i n jobs runs :
  nonempty a = true -> nonempty d = true ->
  (i + List.length jobs <= n)%nat ->
  Forall (fun r => forall st, store_wf st = true -> store_wf (during r st) = true) runs ->
  store_wf s = true -> store_wf (executeTests_from s a d i n jobs runs) = true.
Proof.
  intros Ha Hd. revert s i runs.
  induction jobs as [|job jobs IH]; intros s i runs Hi Hr Hs; [exact Hs|].
  destruct runs as [|r runs]; [exact Hs|].
  inversion Hr as [|? ? Hr1 Hr2]; subst. cbn [executeTests_from].
  apply IH; [simpl in Hi; lia | exact Hr2|].
  apply executeOne_wf; auto. simpl in Hi. lia.
Qed.

Lemma addJob_wf (e : Env) (s : Store) (d : JobData) :
  store_wf s = true -> store_wf (fst (addJob e s d)) = true.
Proof.
  intros Hs. unfold addJob.
  destruct (findDuplicateJob e s d); [exact Hs|].
  destruct (create e d) as [j|] eqn:C; [|exact Hs].
  cbn [fst]. apply storeJob_wf; [exact Hs | eapply create_ok; eassumption].
Qed.

Lemma cancelJob_wf (e : Env) (s : Store) (id : string) :
  store_wf s = true -> store_wf (fst (cancelJob e s id)) = true.
Proof.
  intros Hs. unfold cancelJob.
  destruct (getJob e s id) as [j|] eqn:G; [|exact Hs].
  destruct (done (status j)); [exact Hs|]. cbn [fst].
  apply storeJob_wf; [exact Hs|].
  apply updateStatus_ok; [apply no_extra_ok | eapply getJob_ok; eassumption].
Qed.

Lemma retryJob_wf (e : Env) (s : Store) (id : string) :
  store_wf s = true -> store_wf (fst (retryJob e s id)) = true.
Proof.
  intros Hs. unfold retryJob.
  destruct (getJob e s id) as [j|] eqn:G; [|exact Hs].
  destruct (canRetry j); [|exact Hs]. cbn [fst].
  apply storeJob_wf; [exact Hs|].
  apply incrementRetry_ok; [eapply getJob_ok | eapply getJob_retry_count]; eassumption.
Qed.

Lemma performStartupRecovery_wf (e : Env) (s : Store) :
  store_wf s = true -> store_wf (performStartupRecovery e s) = true.
Proof.
  intros Hs. unfold performStartupRecovery.
  exact (proj1 (recovery_loop_get e (redis_keys s) s "" Hs)).
Qed.

(** X2: if every record of the key space passes the schema and sits under
    the key of its own job id, this is still so after a submission, a
    cancel, a retry, the startup recovery, and a whole [executeTests] with
    non-empty agent and device ids whose concurrent writers keep it too. *)
Theorem operations_keep_store_wf :
  forall (e : Env) (s : Store),
    store_wf s = true ->
    (forall d, store_wf (fst (addJob e s d)) = true) /\
    (forall id, store_wf (fst (cancelJob e s id)) = true) /\
    (forall id, store_wf (fst (retryJob e s id)) = true) /\
    store_wf (performStartupRecovery e s) = true /\
    (forall a d jobs runs,
        nonempty a = true -> nonempty d = true ->
        Forall (fun r => forall st, store_wf st = true ->
                                    store_wf (during r st) = true) runs ->
        store_wf (executeTests s a d jobs runs) = true).
Proof.
  intros e s Hs. repeat split.
  - intros d. now apply addJob_wf.
  - intros id. now apply cancelJob_wf.
  - intros id. now apply retryJob_wf.
  - now apply performStartupRecovery_wf.
  - intros a d jobs runs Ha Hd Hr. unfold executeTests.
    apply executeTests_from_wf; auto.
Qed.

Lemma operations_keep_store_wf_witness :
  store_wf (fst (addJob env1 store0 import_completed)) = true /\
  store_wf (fst (cancelJob env1 store0 id0)) = true /\
  store_wf (performStartupRecovery env2 store_running) = true /\
  store_wf (executeTests store0 "agent-1" "emulator-1" [job0] [run_cancelled]) = true.
Proof.
  destruct (operations_keep_store_wf env1 store0 eq_refl) as (H1 & H2 & _ & _ & H5).
  destruct (operations_keep_store_wf env2 store_running eq_refl) as (_ & _ & _ & H4 & _).
  split; [apply H1|]. split; [apply H2|]. split; [exact H4|].
  apply H5; [reflexivity | reflexivity |].
  constructor; [|constructor]. intros st Hst. exact (cancelJob_wf env1 st id0 Hst).
Defined.

(** ** Startup recovery, again *)

Lemma reset_record_status (e : Env) (d : JobData) :
  validate d = true ->
  status_is (reset_record e d) RUNNING = false /\
  status_is (reset_record e d) SCHEDULED = false.
Proof.
  intros Hv. destruct (validate_create e d Hv) as [j C]. unfold reset_record.
  destruct (status_is d RUNNING || status_is d SCHEDULED)%bool eqn:E.
  - rewrite C. split; reflexivity.
  - apply orb_false_iff in E. exact E.
Qed.

Lemma recovery_loop_fixed (e : Env) (s : Store) (ks : list string) :
  (forall k d, redis_get k s = Some d ->
               status_is d RUNNING = false /\ status_is d SCHEDULED = false) ->
  recovery_loop e s ks = s.
Proof.
  intros H. induction ks as [|k ks IH]; [reflexivity|]. cbn [recovery_loop].
  destruct (redis_get k s) as [d|] eqn:G; [|exact IH].
  destruct (H k d G) as [-> ->]. exact IH.
Qed.

Lemma filter_none {A} (f : A -> bool) (l : list A) :
  (forall x, In x l -> f x = false) -> filter f l = [].
Proof.
  induction l as [|x r IH]; intros H; [reflexivity|]. simpl.
  rewrite (H x (or_introl eq_refl)). apply IH. intros y Hy. apply H. now right.
Qed.

(** X3: after startup recovery of a well-formed key space no record is
    running or scheduled, the statistics count no active job, and a second
    recovery changes nothing. *)
Theorem performStartupRecovery_complete :
  forall (e e' : Env) (s : Store),
    store_wf s = true ->
    let s' := performStartupRecovery e s in
    (forall k d, redis_get k s' = Some d ->
                 d_status d <> Some RUNNING /\ d_status d <> Some SCHEDULED) /\
    active (getQueueStats e' s') = 0%nat /\
    performStartupRecovery e' s' = s'.
Proof.
  intros e e' s Hwf s'.
  assert (H : forall k d, redis_get k s' = Some d ->
                          status_is d RUNNING = false /\ status_is d SCHEDULED = false).
  { intros k d G. unfold s' in G. rewrite (performStartupRecovery_get e s k Hwf) in G.
    destruct (redis_get k s) as [d0|] eqn:G0; [|discriminate].
    injection G as <-. apply reset_record_status.
    exact (proj1 (store_wf_get _ _ _ Hwf G0)). }
  split; [|split].
  - intros k d G. destruct (H k d G) as [H1 H2]. unfold status_is in *.
    split; intros E; rewrite E in *; discriminate.
  - unfold getQueueStats. cbn [active]. unfold count_status.
    rewrite filter_none; [reflexivity|]. intros k _.
    destruct (redis_get k s') as [d|] eqn:G; [|reflexivity].
    cbn [existsb]. now rewrite (proj1 (H k d G)).
  - unfold performStartupRecovery at 1. now apply recovery_loop_fixed.
Qed.

Lemma performStartupRecovery_complete_witness :
  active (getQueueStats env2 store_running) = 1%nat /\
  active (getQueueStats env2 (performStartupRecovery env2 store_running)) = 0%nat /\
  performStartupRecovery env2 (performStartupRecovery env2 store_running)
  = performStartupRecovery env2 store_running.
Proof.
  split; [reflexivity|].
  exact (proj2 (performStartupRecovery_complete env2 env2 store_running eq_refl)).
Defined.

(** ** Statistics *)

Lemma stats_partition (s : Store) (keys : list string) :
  (forall k, In k keys -> redis_get k s <> None) ->
  List.length keys
  = (count_status [QUEUED; SCHEDULED] s keys + count_status [RUNNING] s keys
     + count_status [COMPLETED] s keys + count_status [FAILED] s keys
     + count_uncounted s keys)%nat.
Proof.
  unfold count_status, count_uncounted.
  set (f1 := fun k => match redis_get k s with
                      | Some d => existsb (status_is d) [QUEUED; SCHEDULED]
                      | None => false end).
  set (f2 := fun k => match redis_get k s with
                      | Some d => existsb (status_is d) [RUNNING]
                      | None => false end).
  set (f3 := fun k => match redis_get k s with
                      | Some d => existsb (status_is d) [COMPLETED]
                      | None => false end).
  set (f4 := fun k => match redis_get k s with
                      | Some d => existsb (status_is d) [FAILED]
                      | None => false end).
  set (f5 := fun k => match redis_get k s with
                      | Some d => negb (existsb (status_is d)
                                          [QUEUED; SCHEDULED; RUNNING; COMPLETED; FAILED])
                      | None => false end).
  induction keys as [|k ks IH]; intros H; [reflexivity|].
  assert (IH' := IH (fun k' Hk' => H k' (or_intror Hk'))).
  pose proof (H k (or_introl eq_refl)) as Hk.
  cbn [filter].
  destruct (f1 k) eqn:E1, (f2 k) eqn:E2, (f3 k) eqn:E3, (f4 k) eqn:E4,
    (f5 k) eqn:E5; cbn [List.length]; try lia; exfalso;
    subst f1 f2 f3 f4 f5; cbv beta in *;
    (destruct (redis_get k s) as [d|]; [|congruence]);
    unfold status_is in *; destruct (d_status d) as [[]|]; discriminate.
Qed.

(** X4: in the statistics, [total] is the sum of [waiting], [active],
    [completed], [failed] and the number of records with another status or
    none; the four counters add up to [total] only when no cancelled or
    retrying job is stored. *)
Theorem getQueueStats_total :
  forall (e : Env) (s : Store),
    total (getQueueStats e s)
    = (waiting (getQueueStats e s) + active (getQueueStats e s)
       + completed (getQueueStats e s) + failed (getQueueStats e s)
       + count_uncounted s (redis_keys s))%nat.
Proof.
  intros e s. unfold getQueueStats. cbn [total waiting active completed failed].
  apply stats_partition. intros k Hk.
  destruct (In_keys_redis_get k s Hk) as [v ->]. discriminate.
Qed.

Example stats_of_cancelled :
  total (getQueueStats env2 store_cancelled) = 1%nat /\
  (waiting (getQueueStats env2 store_cancelled)
   + active (getQueueStats env2 store_cancelled)
   + completed (getQueueStats env2 store_cancelled)
   + failed (getQueueStats env2 store_cancelled) = 0)%nat.
Proof. split; reflexivity. Qed.

(** ** Status of a group *)

Lemma getGroupStatus_open (jobs : list Job) :
  jobs <> [] -> (forall j, In j jobs -> done (status j) = false) ->
  getGroupStatus jobs = RUNNING \/ getGroupStatus jobs = QUEUED.
Proof.
  intros Hne Hnd. unfold getGroupStatus.
  destruct (existsb (fun j => JobStatus_eqb (status j) RUNNING) jobs); [now left|].
  destruct (existsb (fun j => JobStatus_eqb (status j) FAILED) jobs) eqn:EF.
  - apply existsb_exists in EF. destruct EF as (j & Hj & E).
    apply JobStatus_eqb_eq in E. specialize (Hnd j Hj). rewrite E in Hnd. discriminate.
  - destruct (forallb (fun j => JobStatus_eqb (status j) COMPLETED) jobs) eqn:EC;
      [|now right].
    destruct jobs as [|j r]; [congruence|]. simpl in EC.
    apply andb_true_iff in EC. destruct EC as [E _].
    apply JobStatus_eqb_eq in E. specialize (Hnd j (or_introl eq_refl)).
    rewrite E in Hnd. discriminate.
Qed.

(** X5: every group that [getJobGroups] reports for a well-formed key space
    has at least one job and the status running or queued, never failed or
    completed; so [processJobQueue] passes every reported group on. *)
Theorem getJobGroups_status :
  forall (e : Env) (s : Store) (g : GroupSummary),
    store_wf s = true -> In g (getJobGroups e s) ->
    (1 <= g_job_count g)%nat /\ (g_status g = RUNNING \/ g_status g = QUEUED).
Proof.
  intros e s g Hwf Hg.
  destruct (groups_loop_spec e s (redis_keys s) Hwf [] (NoDup_nil _))
    as (gs & H1 & _ & H3 & H4); [intros ? []|].
  unfold getJobGroups, jobGroups in Hg. rewrite H1 in Hg.
  apply in_map_iff in Hg. destruct Hg as (gd & <- & Hgd).
  pose proof (H3 gd Hgd) as Hne.
  assert (Hnd : forall j, In j (gd_jobs gd) -> done (status j) = false).
  { intros j Hj.
    assert (Hm : In (gd_group_id gd, j) (members gs)).
    { unfold members. apply in_flat_map. exists gd. split; [exact Hgd|].
      now apply in_map. }
    apply H4 in Hm. destruct Hm as [[] | (k & d & j' & _ & _ & _ & D & [= _ ->])].
    exact D. }
  unfold summarize. cbn [g_job_count g_status]. split.
  - rewrite array_sort_length. destruct (gd_jobs gd); [congruence | simpl; lia].
  - apply getGroupStatus_open.
    + intros E. apply Hne. apply length_zero_iff_nil.
      rewrite <- (array_sort_length byPriority), E. reflexivity.
    + intros j Hj. apply Hnd. now apply array_sort_In in Hj.
Qed.

Lemma getJobGroups_status_witness :
  (1 <= g_job_count group0)%nat /\
  (g_status group0 = RUNNING \/ g_status group0 = QUEUED).
Proof.
  refine (getJobGroups_status env2 store0 group0 _ _).
  - reflexivity.
  - left. vm_compute. reflexivity.
Defined.

(** ** Submission, again *)

Lemma store_all_get (p : JobData -> bool) (s : Store) (k : string) (d : JobData) :
  store_all p s = true -> redis_get k s = Some d -> p d = true.
Proof.
  unfold store_all. induction s as [|[k' v'] r IH]; simpl; [discriminate|].
  intros H. apply andb_true_iff in H. destruct H as [H1 H2].
  destruct (String.eqb k' k); [now intros [= <-] | now apply IH].
Qed.

Lemma create_fields (e : Env) (d : JobData) (j : Job) :
  create e d = Some j ->
  org_id j = d_org_id d /\ app_version_id j = d_app_version_id d /\
  test_path j = d_test_path d /\ target j = or_default (d_target d) EMULATOR /\
  status j = or_default (d_status d) QUEUED.
Proof.
  unfold create, Job_create. destruct (validate d); [|discriminate].
  intros [= <-]. repeat split.
Qed.

Lemma storeJob_get_inv (s : Store) (j : Job) (k : string) (d : JobData) :
  redis_get k (storeJob s j) = Some d -> d = toJSON j \/ redis_get k s = Some d.
Proof.
  unfold storeJob. destruct (String.eqb (jobKey (job_id j)) k) eqn:E.
  - apply String.eqb_eq in E. subst k. rewrite redis_get_set_same.
    intros [= <-]. now left.
  - rewrite redis_get_set_other; [now right|].
    intros H. rewrite H, String.eqb_refl in E. discriminate.
Qed.

(** X6: a submission that is no duplicate is stored under its job id
    whatever was stored there before, and reading that id back gives the
    submitted job; every other id reads as before. *)
Theorem addJob_then_getJob :
  forall (e e' : Env) (s : Store) (d : JobData) (j : Job),
    findDuplicateJob e s d = None -> create e d = Some j ->
    let s' := fst (addJob e s d) in
    (exists j', getJob e' s' (job_id j) = Some j' /\ toJSON j' = toJSON j) /\
    (forall id, id <> job_id j -> getJob e' s' id = getJob e' s id).
Proof.
  intros e e' s d j F C s'.
  assert (Hs' : s' = storeJob s j) by (unfold s', addJob; now rewrite F, C).
  rewrite Hs'. split.
  - exists (reload j). split.
    + apply getJob_storeJob_same. eapply create_ok; eassumption.
    + apply toJSON_reload. eapply create_normal; eassumption.
  - intros id Hid. now apply getJob_storeJob_other.
Qed.

Lemma addJob_then_getJob_witness :
  getJob env1 store0 id0 = Some job0 /\
  exists j', getJob env2 (fst (addJob env1 store0 import_failed)) id0 = Some j' /\
             toJSON j' = toJSON job_imported.
Proof.
  split; [reflexivity|].
  refine (proj1 (addJob_then_getJob env1 env2 store0 import_failed job_imported _ _)).
  - vm_compute. reflexivity.
  - reflexivity.
Defined.

Lemma findDuplicate_loop_only (e : Env) (s : Store) (d r : JobData) (ks : list string) :
  (forall k ex, In k ks -> redis_get k s = Some ex ->
                same_submission ex d = true -> ex = r) ->
  (exists k, In k ks /\ redis_get k s = Some r) ->
  same_submission r d = true ->
  findDuplicate_loop e s ks d = create e r.
Proof.
  intros Hall (k & Hin & G) M. induction ks as [|k0 ks IH]; [destruct Hin|].
  cbn [findDuplicate_loop]. destruct (redis_get k0 s) as [ex|] eqn:G0.
  - destruct (same_submission ex d) eqn:M0.
    + now rewrite (Hall k0 ex (or_introl eq_refl) G0 M0).
    + destruct Hin as [-> | Hin]; [congruence|].
      apply IH; [|exact Hin]. intros k' ex' Hk'. apply Hall. now right.
  - destruct Hin as [-> | Hin]; [congruence|].
    apply IH; [|exact Hin]. intros k' ex' Hk'. apply Hall. now right.
Qed.

(** X7: a valid submission with a [target] key and an active status that
    matches no stored record is stored, and the same submission again is
    then answered with the job id and status of the first one and the
    duplicate message, and writes nothing. *)
Theorem addJob_twice :
  forall (e e' : Env) (s : Store) (d : JobData) (j : Job),
    (forall k existing,
        redis_get k s = Some existing -> same_submission existing d = false) ->
    create e d = Some j ->
    d_target d <> None -> active_status (status j) = true ->
    fst (addJob e s d) = storeJob s j /\
    addJob e' (storeJob s j) d
    = (storeJob s j,
       Ok (mkResponse (job_id j) (status j)
             "Job already exists with same parameters")).
Proof.
  intros e e' s d j Hno C Ht Ha.
  assert (F : findDuplicateJob e s d = None).
  { apply findDuplicate_loop_none. intros k ex _ G. eapply Hno; eassumption. }
  split; [unfold addJob; now rewrite F, C|].
  destruct (create_fields _ _ _ C) as (Ho & Hap & Htp & Htg & Hst).
  assert (M : same_submission (toJSON j) d = true).
  { apply same_submission_iff. unfold toJSON; fields.
    repeat split; auto.
    - rewrite Htg. destruct (d_target d); [reflexivity | congruence].
    - destruct (status j); try discriminate; auto. }
  assert (F' : findDuplicateJob e' (storeJob s j) d = create e' (toJSON j)).
  { apply findDuplicate_loop_only; [|  |exact M].
    - intros k ex _ G Mex. apply storeJob_get_inv in G.
      destruct G as [-> | G]; [reflexivity|].
      rewrite (Hno k ex G) in Mex. discriminate.
    - exists (jobKey (job_id j)). split.
      + eapply redis_get_In_keys. apply redis_get_set_same.
      + apply redis_get_set_same. }
  unfold addJob. rewrite F', (create_toJSON e' j) by (eapply create_ok; eassumption).
  reflexivity.
Qed.

Lemma addJob_twice_witness :
  fst (addJob env0 [] (submission "acme" "v1" "a.spec" EMULATOR)) = storeJob [] job0 /\
  addJob env1 (storeJob [] job0) (submission "acme" "v1" "a.spec" EMULATOR)
  = (storeJob [] job0,
     Ok (mkResponse (job_id job0) (status job0)
           "Job already exists with same parameters")).
Proof.
  refine (addJob_twice env0 env1 [] (submission "acme" "v1" "a.spec" EMULATOR)
            job0 _ _ _ _).
  - intros k existing H. discriminate H.
  - reflexivity.
  - discriminate.
  - reflexivity.
Defined.

(** X8: a submission without a [target] key is never taken for a duplicate
    of a stored record that has one, although [Job.create] gives it the
    target emulator: when valid it is stored as a new job even if the same
    submission was stored before. *)
Theorem addJob_without_target :
  forall (e : Env) (s : Store) (d : JobData),
    store_targets s = true -> d_target d = None -> validate d = true ->
    findDuplicateJob e s d = None /\
    exists j, create e d = Some j /\ target j = EMULATOR /\
              addJob e s d
              = (storeJob s j,
                 Ok (mkResponse (job_id j) (status j) "Job queued successfully")).
Proof.
  intros e s d Hs Ht Hv.
  assert (F : findDuplicateJob e s d = None).
  { apply findDuplicate_loop_none. intros k ex _ G.
    pose proof (store_all_get _ _ _ _ Hs G) as Hex.
    unfold same_submission. rewrite Ht. cbv beta in Hex.
    destruct (d_target ex); [|discriminate]. cbn [opt_eqb].
    now rewrite andb_false_r. }
  split; [exact F|].
  destruct (validate_create e d Hv) as [j C]. exists j.
  split; [exact C|]. split.
  - destruct (create_fields _ _ _ C) as (_ & _ & _ & -> & _). now rewrite Ht.
  - unfold addJob. now rewrite F, C.
Qed.

Lemma addJob_without_target_witness :
  findDuplicateJob env1 store0 submission_no_target = None /\
  exists j, create env1 submission_no_target = Some j /\ target j = EMULATOR /\
            addJob env1 store0 submission_no_target
            = (storeJob store0 j,
               Ok (mkResponse (job_id j) (status j) "Job queued successfully")).
Proof.
  refine (addJob_without_target env1 store0 submission_no_target _ _ _);
    reflexivity.
Defined.

(** ** Cancel and retry touch one record *)

Lemma getJob_wf_id (e : Env) (s : Store) (id : string) (j : Job) :
  store_wf s = true -> getJob e s id = Some j -> job_id j = id.
Proof.
  intros Hwf G. unfold getJob in G.
  destruct (redis_get (jobKey id) s) as [d|] eqn:R; [|discriminate].
  destruct (store_wf_get _ _ _ Hwf R) as (_ & id' & Hid & Hk).
  apply jobKey_inj in Hk. subst id'. eapply create_job_id; eassumption.
Qed.

Lemma redis_keys_set_present (k : string) (v : JobData) (s : Store) :
  redis_get k s <> None -> redis_keys (redis_set k v s) = redis_keys s.
Proof.
  induction s as [|[k' v'] r IH]; simpl; [congruence|].
  destruct (String.eqb k' k) eqn:E.
  - apply String.eqb_eq in E. now subst.
  - intros H. simpl. now rewrite IH.
Qed.

Lemma getJob_present (e : Env) (s : Store) (id : string) (j : Job) :
  getJob e s id = Some j -> redis_get (jobKey id) s <> None.
Proof. unfold getJob. destruct (redis_get (jobKey id) s); [discriminate | discriminate]. Qed.

(** X9: in a well-formed key space, cancel and retry of a job id leave
    every record under another key as it is, and create or delete no key. *)
Theorem cancel_retry_frame :
  forall (e : Env) (s : Store) (id : string),
    store_wf s = true ->
    (forall k, k <> jobKey id ->
               redis_get k (fst (cancelJob e s id)) = redis_get k s /\
               redis_get k (fst (retryJob e s id)) = redis_get k s) /\
    redis_keys (fst (cancelJob e s id)) = redis_keys s /\
    redis_keys (fst (retryJob e s id)) = redis_keys s.
Proof.
  intros e s id Hwf.
  assert (Hc : forall j, getJob e s id = Some j ->
                         forall j', job_id j' = job_id j ->
                         (forall k, k <> jobKey id ->
                                    redis_get k (storeJob s j') = redis_get k s) /\
                         redis_keys (storeJob s j') = redis_keys s).
  { intros j G j' Hj'. pose proof (getJob_wf_id _ _ _ _ Hwf G) as Hid.
    unfold storeJob. rewrite Hj', Hid. split.
    - intros k Hk. apply redis_get_set_other. congruence.
    - apply redis_keys_set_present. eapply getJob_present; eassumption. }
  unfold cancelJob, retryJob.
  destruct (getJob e s id) as [j|] eqn:G; [|repeat split; reflexivity].
  destruct (Hc j eq_refl (updateStatus (clock e) CANCELLED no_extra j) eq_refl)
    as [Hc1 Hc2].
  assert (Hri : job_id (incrementRetry (clock e) j) = job_id j).
  { unfold incrementRetry. cbv zeta. now destruct (_ <? _). }
  destruct (Hc j eq_refl (incrementRetry (clock e) j) Hri) as [Hr1 Hr2].
  destruct (done (status j)), (canRetry j); cbn [fst]; unfold updateJob;
    repeat split; auto; intros k Hk; auto.
Qed.

Lemma cancel_retry_frame_witness :
  redis_get (jobKey "job_early") (fst (cancelJob env2 store_two "job_late"))
  = redis_get (jobKey "job_early") store_two /\
  redis_keys (fst (cancelJob env2 store_two "job_late")) = redis_keys store_two.
Proof.
  destruct (cancel_retry_frame env2 store_two "job_late") as (H1 & H2 & _).
  - vm_compute. reflexivity.
  - split; [|exact H2]. apply H1. discriminate.
Defined.

(** ** Listing *)

Lemma getJobs_loop_filter (e : Env) (s : Store) (org : string)
    (st : option JobStatus) (ks : list string) :
  store_wf s = true ->
  exists js,
    getJobs_loop e s ks org st = Some js /\
    forall j, In j js <->
              exists k d, In k ks /\ redis_get k s = Some d /\
                          create e d = Some j /\ d_org_id d = org /\ listed st d.
Proof.
  intros Hwf. induction ks as [|k ks (js & IH1 & IH2)]; cbn [getJobs_loop].
  - exists []. split; [reflexivity|]. intros j. split; [intros [] |].
    intros (k & d & [] & _).
  - assert (Hskip : exists js0,
               getJobs_loop e s ks org st = Some js0 /\
               forall j, In j js0 <->
                         exists k' d, In k' ks /\ redis_get k' s = Some d /\
                                      create e d = Some j /\ d_org_id d = org /\
                                      listed st d) by (exists js; auto).
    destruct (redis_get k s) as [d|] eqn:G.
    + destruct (store_wf_get _ _ _ Hwf G) as (Hv & _).
      destruct (validate_create e d Hv) as [j0 C].
      assert (Hcond : (String.eqb (d_org_id d) org
                       && match st with None => true | Some x => status_is d x end)%bool
                      = true <-> d_org_id d = org /\ listed st d).
      { rewrite andb_true_iff, String.eqb_eq. unfold listed, status_is.
        destruct st as [x|]; [|tauto].
        destruct (d_status d) as [y|]; simpl.
        - rewrite JobStatus_eqb_eq. split; intros [? ?]; split; congruence.
        - split; intros [? ?]; [discriminate | discriminate]. }
      destruct (String.eqb (d_org_id d) org
                && match st with None => true | Some x => status_is d x end)%bool.
      * rewrite C, IH1. exists (j0 :: js). split; [reflexivity|].
        intros j. simpl. rewrite IH2. split.
        -- intros [<- | (k' & d' & Hin & ?)].
           ++ exists k, d. destruct (proj1 Hcond eq_refl). auto.
           ++ exists k', d'. split; [now right | assumption].
        -- intros (k' & d' & [<- | Hin] & G' & C' & Ho).
           ++ left. congruence.
           ++ right. exists k', d'. auto.
      * exists js. split; [exact IH1|]. intros j. rewrite IH2. split.
        -- intros (k' & d' & Hin & ?). exists k', d'.
           split; [now right | assumption].
        -- intros (k' & d' & [<- | Hin] & G' & C' & Ho).
           ++ rewrite G in G'. injection G' as <-.
              assert (false = true) by (apply Hcond; exact Ho). discriminate.
           ++ exists k', d'. auto.
    + exists js. split; [exact IH1|]. intros j. rewrite IH2. split.
      * intros (k' & d' & Hin & ?). exists k', d'.
        split; [now right | assumption].
      * intros (k' & d' & [<- | Hin] & G' & ?); [congruence|].
        exists k', d'. auto.
Qed.

(** X10: on a well-formed key space [getJobs] returns exactly the jobs
    created from the records of the organization whose [status] key is the
    wanted one, or from all its records without a filter; every job listed
    under a status has that status. *)
Theorem getJobs_filter :
  forall (e : Env) (s : Store) (org : string) (st : option JobStatus) (j : Job),
    store_wf s = true ->
    (In j (getJobs e s org st) <->
     exists k d, In k (redis_keys s) /\ redis_get k s = Some d /\
                 create e d = Some j /\ d_org_id d = org /\ listed st d) /\
    (In j (getJobs e s org st) ->
     org_id j = org /\ forall x, st = Some x -> status j = x).
Proof.
  intros e s org st j Hwf. unfold getJobs.
  destruct (getJobs_loop_filter e s org st (redis_keys s) Hwf) as (js & -> & H).
  split; [apply H|]. intros Hin. apply H in Hin.
  destruct Hin as (k & d & _ & _ & C & Ho & Hl).
  destruct (create_fields _ _ _ C) as (Hoj & _ & _ & _ & Hst).
  split; [congruence|]. intros x ->. unfold listed in Hl.
  now rewrite Hst, Hl.
Qed.

Lemma getJobs_filter_witness :
  org_id job_failed = "acme" /\
  forall x, Some FAILED = Some x -> status job_failed = x.
Proof.
  refine (proj2 (getJobs_filter env2 store_failed "acme" (Some FAILED) job_failed _) _).
  - vm_compute. reflexivity.
  - vm_compute. left. reflexivity.
Defined.

(** ** The retry limit *)

Lemma retryJob_step (e : Env) (s : Store) (j : Job) :
  stored e s j -> canRetry j = true ->
  let j' := reload (incrementRetry (clock e) j) in
  retryJob e s (job_id j)
  = (storeJob s (incrementRetry (clock e) j),
     Ok (mkResponse (job_id j) RETRYING "Job queued for retry")) /\
  stored e (fst (retryJob e s (job_id j))) j' /\
  job_id j' = job_id j /\ retry_count j' = retry_count j + 1 /\
  status j' = RETRYING /\ max_retries j' = 3.
Proof.
  intros Hst Hc j'. unfold stored in Hst.
  pose proof (getJob_ok _ _ _ _ Hst) as Hok.
  pose proof (getJob_retry_count _ _ _ _ Hst) as Hrc.
  assert (Hok1 : Job_ok (incrementRetry (clock e) j)) by now apply incrementRetry_ok.
  assert (Heq : retryJob e s (job_id j)
                = (storeJob s (incrementRetry (clock e) j),
                   Ok (mkResponse (job_id j) RETRYING "Job queued for retry"))).
  { unfold retryJob. rewrite Hst, Hc. rewrite (incrementRetry_allowed _ _ Hc).
    reflexivity. }
  split; [exact Heq|]. rewrite Heq. cbn [fst]. unfold j'.
  rewrite (incrementRetry_allowed _ _ Hc) in *.
  split; [|repeat split].
  unfold stored. exact (getJob_storeJob_same e s _ Hok1).
Qed.

Lemma retryTimes_chain (e : Env) (m : nat) :
  forall (s : Store) (j : Job),
    stored e s j -> status j = FAILED \/ status j = RETRYING ->
    max_retries j = 3 -> retry_count j = 3 - Z.of_nat m -> 0 <= retry_count j ->
    exists j', stored e (retryTimes m e s (job_id j)) j' /\
               job_id j' = job_id j /\ retry_count j' = 3 /\ max_retries j' = 3 /\
               (status j' = FAILED \/ status j' = RETRYING).
Proof.
  induction m as [|m IH]; intros s j Hst Hs Hmax Hrc Hpos.
  - exists j. cbn [retryTimes]. repeat split; auto; lia.
  - assert (Hc : canRetry j = true) by (apply canRetry_iff; split; [exact Hs | lia]).
    destruct (retryJob_step e s j Hst Hc) as (_ & Hst' & Hid' & Hrc' & Hs' & Hmax').
    cbn [retryTimes].
    destruct (IH _ _ Hst') as (j' & H1 & H2 & H3 & H4 & H5); auto; try lia.
    rewrite Hid' in H1, H2. exists j'. auto.
Qed.

(** X11: a stored failed or retrying job with the default limit of 3 and a
    retry count [c] takes [3 - c] retries in a row, with no execution in
    between; its retry count is then 3 and a further retry is rejected with
    nothing written. *)
Theorem retryJob_limit :
  forall (e : Env) (s : Store) (j : Job),
    stored e s j -> status j = FAILED \/ status j = RETRYING ->
    max_retries j = 3 -> 0 <= retry_count j <= 3 ->
    let s' := retryTimes (Z.to_nat (3 - retry_count j)) e s (job_id j) in
    (exists j', getJob e s' (job_id j) = Some j' /\ retry_count j' = 3) /\
    retryJob e s' (job_id j) = (s', Err CannotRetry).
Proof.
  intros e s j Hst Hs Hmax Hrc s'.
  destruct (retryTimes_chain e (Z.to_nat (3 - retry_count j)) s j Hst Hs Hmax)
    as (j' & H1 & H2 & H3 & H4 & H5); [lia | lia |].
  fold s' in H1. unfold stored in H1. rewrite H2 in H1. split; [eauto|].
  unfold retryJob. rewrite H1.
  assert (Hc : canRetry j' = false).
  { unfold canRetry. rewrite H3, H4. reflexivity. }
  now rewrite Hc.
Qed.

Lemma retryJob_limit_witness :
  (exists j', getJob env2 (retryTimes 3 env2 store_failed id0) id0 = Some j' /\
              retry_count j' = 3) /\
  retryJob env2 (retryTimes 3 env2 store_failed id0) id0
  = (retryTimes 3 env2 store_failed id0, Err CannotRetry).
Proof.
  refine (retryJob_limit env2 store_failed job_failed _ _ _ _).
  - vm_compute. reflexivity.
  - left. reflexivity.
  - reflexivity.
  - simpl. lia.
Defined.

(** ** The first start time *)

Lemma or_null_Some_inv (o : option string) (t : string) :
  or_null o = o -> o = Some t -> falsy o = false.
Proof. intros H ->. unfold falsy. rewrite H. reflexivity. Qed.

(** X12: a stored running or scheduled job that has a start time keeps it
    through a restart: after startup recovery and the next mark as running
    by the scheduler its [started_at] is the old one. *)
Theorem started_at_survives_restart :
  forall (e e' : Env) (s : Store) (j job : Job) (a d t : string) (r : Run),
    store_wf s = true -> stored e s j ->
    status j = RUNNING \/ status j = SCHEDULED ->
    started_at j = Some t ->
    nonempty a = true -> nonempty d = true -> job_id job = job_id j ->
    exists j2,
      getJob e' (markRunning (performStartupRecovery e s) job a d r) (job_id j)
      = Some j2 /\
      status j2 = RUNNING /\ started_at j2 = Some t.
Proof.
  intros e e' s j job a d t r Hwf Hst Hs Ht Ha Hd Hid.
  destruct (stored_record _ _ _ Hst) as (d0 & G & C).
  pose proof (performStartupRecovery_get e s (jobKey (job_id j)) Hwf) as Hget.
  rewrite G in Hget. cbn [option_map] in Hget.
  assert (E : (status_is d0 RUNNING || status_is d0 SCHEDULED)%bool = true).
  { apply orb_true_iff. destruct Hs as [Hs | Hs]; [left | right];
      apply (create_status e d0 j); auto; discriminate. }
  unfold reset_record in Hget. rewrite E, C in Hget.
  set (j1 := updateStatus (clock e) QUEUED reset_extra j) in *.
  assert (Hok1 : Job_ok j1) by (unfold j1; eauto with schema).
  pose proof (create_normal _ _ _ C) as (_ & _ & Hn3 & _).
  assert (G1 : getJob (env_start r) (performStartupRecovery e s) (job_id job)
               = Some (reload j1)).
  { unfold getJob. rewrite Hid, Hget. now apply create_toJSON. }
  set (j2 := updateStatus (clock (env_start r)) RUNNING
               (mkExtra None None (Some (Some d)) (Some (Some a))) (reload j1)).
  assert (Hok2 : Job_ok j2).
  { unfold j2. apply updateStatus_ok; [now apply running_extra_ok|].
    eapply getJob_ok; eassumption. }
  assert (Hst2 : started_at j2 = Some t).
  { unfold j2, updateStatus; fields. cbn [JobStatus_eqb andb].
    change (started_at (reload j1)) with (or_null (started_at j)).
    rewrite Hn3, Ht.
    assert (F : falsy (Some t) = false).
    { apply (or_null_Some_inv (Some t) t); [|reflexivity]. now rewrite <- Ht. }
    now rewrite F. }
  exists (reload j2). split.
  - unfold markRunning. rewrite G1. fold j2. unfold updateJob.
    exact (getJob_storeJob_same e' _ j2 Hok2).
  - split; [reflexivity|]. change (started_at (reload j2)) with (or_null (started_at j2)).
    rewrite Hst2, <- Ht. exact Hn3.
Qed.

Lemma started_at_survives_restart_witness :
  exists j2,
    getJob env2
      (markRunning (performStartupRecovery env2 store_running) job0
         "agent-2" "emulator-2" run_failing) (job_id job_running)
    = Some j2 /\
    status j2 = RUNNING /\ started_at j2 = Some "2024-05-01T10:00:05.000Z".
Proof.
  refine (started_at_survives_restart env2 env2 store_running job_running job0
            "agent-2" "emulator-2" "2024-05-01T10:00:05.000Z" run_failing
            _ _ _ _ _ _ _).
  - vm_compute. reflexivity.
  - vm_compute. reflexivity.
  - left. reflexivity.
  - reflexivity.
  - reflexivity.
  - reflexivity.
  - reflexivity.
Defined.

(** ** Group ids, again *)

(** X13: two jobs whose [org_id] and [app_version_id] contain no underscore
    have the same group id only if they have the same [org_id],
    [app_version_id] and target. *)
Theorem getGroupId_injective :
  forall j1 j2 : Job,
    has_char underscore (org_id j1) = false ->
    has_char underscore (app_version_id j1) = false ->
    has_char underscore (org_id j2) = false ->
    has_char underscore (app_version_id j2) = false ->
    getGroupId j1 = getGroupId j2 ->
    org_id j1 = org_id j2 /\ app_version_id j1 = app_version_id j2 /\
    target j1 = target j2.
Proof.
  intros j1 j2 H1 H2 H3 H4 E.
  pose proof (parseGroupId_plain j1 H1 H2) as P1.
  pose proof (parseGroupId_plain j2 H3 H4) as P2.
  rewrite E, P2 in P1. injection P1 as Ho Ha Ht.
  repeat split; auto using Target_str_inj.
Qed.

Lemma getGroupId_injective_witness :
  org_id job0 = org_id job_failed /\
  app_version_id job0 = app_version_id job_failed /\
  target job0 = target job_failed.
Proof.
  refine (getGroupId_injective job0 job_failed _ _ _ _ _); reflexivity.
Defined.

(** ** The search for a device *)

Lemma find_index_Some {A} (p : A -> bool) (l : list A) (i : nat) :
  find_index p l = Some i ->
  exists x, nth_error l i = Some x /\ p x = true /\
            forall i' x', (i' < i)%nat -> nth_error l i' = Some x' -> p x' = false.
Proof.
  revert i. induction l as [|y r IH]; intros i; simpl; [discriminate|].
  destruct (p y) eqn:E.
  - intros [= <-]. exists y. repeat split; auto. intros i' x' Hlt. lia.
  - destruct (find_index p r) as [n|]; [|discriminate]. intros [= <-].
    destruct (IH n eq_refl) as (x & Hx & Hp & Hmin). exists x.
    repeat split; auto. intros [|i'] x' Hlt; simpl.
    + now intros [= <-].
    + apply Hmin. lia.
Qed.

Lemma find_index_None {A} (p : A -> bool) (l : list A) :
  find_index p l = None -> forall x, In x l -> p x = false.
Proof.
  induction l as [|y r IH]; simpl; [intros _ x []|].
  destruct (p y) eqn:E; [discriminate|].
  destruct (find_index p r); [discriminate|]. intros _ x [<- | Hx]; auto.
Qed.

Lemma deviceFits_iff (tgt : option string) (d : Device) :
  deviceFits tgt d = true <->
  dev_status d = AVAILABLE /\ tgt = Some (Target_str (dev_target d)).
Proof.
  unfold deviceFits. rewrite andb_true_iff. split.
  - intros [H1 H2]. split.
    + destruct (dev_status d); [reflexivity | discriminate].
    + destruct tgt as [t|]; [|discriminate]. cbn [opt_eqb] in H2.
      apply String.eqb_eq in H2. congruence.
  - intros [-> ->]. split; [reflexivity|]. cbn [opt_eqb]. apply String.eqb_refl.
Qed.

Lemma isOnline_iff (a : Agent) : isOnline a = true <-> ag_status a = ONLINE.
Proof. unfold isOnline. destruct (ag_status a); split; congruence. Qed.

Lemma findAvailable_from_spec (agents : list Agent) (tgt : option string) :
  forall i,
    match findAvailable_from i agents tgt with
    | Some (ai, di) =>
        exists n a d,
          ai = (i + n)%nat /\ nth_error agents n = Some a /\
          nth_error (ag_devices a) di = Some d /\
          ag_status a = ONLINE /\ deviceFits tgt d = true /\
          (forall di' d', (di' < di)%nat ->
                          nth_error (ag_devices a) di' = Some d' ->
                          deviceFits tgt d' = false) /\
          (forall n' a' d', (n' < n)%nat -> nth_error agents n' = Some a' ->
                            ag_status a' = ONLINE -> In d' (ag_devices a') ->
                            deviceFits tgt d' = false)
    | None =>
        forall a d, In a agents -> ag_status a = ONLINE -> In d (ag_devices a) ->
                    deviceFits tgt d = false
    end.
Proof.
  induction agents as [|a0 r IH]; intros i; cbn [findAvailable_from].
  - intros a d [].
  - assert (Hskip :
      (forall d', ag_status a0 = ONLINE -> In d' (ag_devices a0) ->
                  deviceFits tgt d' = false) ->
      match findAvailable_from (S i) r tgt with
      | Some (ai, di) =>
          exists n a d,
            ai = (i + n)%nat /\ nth_error (a0 :: r) n = Some a /\
            nth_error (ag_devices a) di = Some d /\
            ag_status a = ONLINE /\ deviceFits tgt d = true /\
            (forall di' d', (di' < di)%nat ->
                            nth_error (ag_devices a) di' = Some d' ->
                            deviceFits tgt d' = false) /\
            (forall n' a' d', (n' < n)%nat -> nth_error (a0 :: r) n' = Some a' ->
                              ag_status a' = ONLINE -> In d' (ag_devices a') ->
                              deviceFits tgt d' = false)
      | None =>
          forall a d, In a (a0 :: r) -> ag_status a = ONLINE ->
                      In d (ag_devices a) -> deviceFits tgt d = false
      end).
    { intros H0. specialize (IH (S i)).
      destruct (findAvailable_from (S i) r tgt) as [[ai di]|].
      - destruct IH as (n & a & d & -> & Hn & Hd & Ho & Hf & Hmd & Hma).
        exists (S n), a, d. repeat split; auto; try lia.
        intros [|n'] a' d' Hlt; simpl.
        + intros [= <-]. apply H0.
        + apply Hma. lia.
      - intros a d [<- | Ha]; [apply H0 | now apply IH]. }
    destruct (isOnline a0) eqn:On.
    + destruct (find_index (deviceFits tgt) (ag_devices a0)) as [di|] eqn:F.
      * destruct (find_index_Some _ _ _ F) as (d & Hd & Hf & Hmin).
        exists 0%nat, a0, d.
        repeat split; auto; try lia; try (now apply isOnline_iff).
      * apply Hskip. intros d' _. now apply find_index_None.
    + apply Hskip. intros d' Ho. apply isOnline_iff in Ho. congruence.
Qed.

(** X14: when [findAvailableAgentAndDevice] returns an agent and a device,
    the agent is online, the device is one of its devices, available and of
    the wanted target, no earlier device of that agent and no device of an
    earlier online agent is available with that target; when it returns
    nothing, no online agent has an available device of that target. *)
Theorem findAvailableAgentAndDevice_spec :
  forall (p : Pool) (tgt : option string),
    match findAvailableAgentAndDevice p tgt with
    | Some (ai, di) =>
        exists a d,
          nth_error p ai = Some a /\ nth_error (ag_devices a) di = Some d /\
          ag_status a = ONLINE /\ dev_status d = AVAILABLE /\
          tgt = Some (Target_str (dev_target d)) /\
          (forall di' d', (di' < di)%nat ->
                          nth_error (ag_devices a) di' = Some d' ->
                          ~ (dev_status d' = AVAILABLE /\
                             tgt = Some (Target_str (dev_target d')))) /\
          (forall ai' a' d', (ai' < ai)%nat -> nth_error p ai' = Some a' ->
                             ag_status a' = ONLINE -> In d' (ag_devices a') ->
                             ~ (dev_status d' = AVAILABLE /\
                                tgt = Some (Target_str (dev_target d'))))
    | None =>
        forall a d, In a p -> ag_status a = ONLINE -> In d (ag_devices a) ->
                    ~ (dev_status d = AVAILABLE /\
                       tgt = Some (Target_str (dev_target d)))
    end.
Proof.
  intros p tgt. unfold findAvailableAgentAndDevice.
  pose proof (findAvailable_from_spec p tgt 0) as H.
  assert (Hno : forall d, deviceFits tgt d = false ->
                          ~ (dev_status d = AVAILABLE /\
                             tgt = Some (Target_str (dev_target d)))).
  { intros d Hf Hc. apply deviceFits_iff in Hc. congruence. }
  destruct (findAvailable_from 0 p tgt) as [[ai di]|].
  - destruct H as (n & a & d & -> & Hn & Hd & Ho & Hf & Hmd & Hma).
    apply deviceFits_iff in Hf. destruct Hf as [Hav Ht].
    exists a, d. repeat split; auto.
    + intros di' d' Hlt Hd'. apply Hno. eapply Hmd; eassumption.
    + intros ai' a' d' Hlt Ha' Ho' Hin. apply Hno. eapply Hma; eassumption.
  - intros a d Ha Ho Hd. apply Hno. eapply H; eassumption.
Qed.

(** ** The lock loop *)

Lemma getJob_same_record (e : Env) (s s' : Store) (id : string) :
  redis_get (jobKey id) s' = redis_get (jobKey id) s ->
  getJob e s' id = getJob e s id.
Proof. unfold getJob. now intros ->. Qed.

Lemma getJob_loaded_status (e : Env) (s : Store) (id : string) (j : Job) :
  getJob e s id = Some j ->
  exists r, redis_get (jobKey id) s = Some r /\ create e r = Some j /\
            loaded_status r = status j.
Proof.
  unfold getJob. destruct (redis_get (jobKey id) s) as [r|]; [|discriminate].
  intros C. exists r. repeat split; auto.
  destruct (create_fields _ _ _ C) as (_ & _ & _ & _ & ->). reflexivity.
Qed.

Lemma lockJobs_inv (e : Env) (a d : string) :
  nonempty a = true -> nonempty d = true ->
  forall (jobs : list Job) (s : Store),
    store_wf s = true ->
    lock_post e a d s (fst (lockJobs e s a d jobs)) (snd (lockJobs e s a d jobs)).
Proof.
  intros Ha Hd. induction jobs as [|job rest IH]; intros s Hwf.
  - cbn. unfold lock_post. repeat split; auto. intros j [].
  - cbn [lockJobs].
    destruct (getJob e s (job_id job)) as [sj|] eqn:G; [|exact (IH s Hwf)].
    pose proof (getJob_wf_id _ _ _ _ Hwf G) as Hid.
    destruct (getJob_loaded_status _ _ _ _ G) as (r0 & G0 & C0 & L0).
    destruct (JobStatus_eqb (status sj) QUEUED) eqn:EQ.
    + apply JobStatus_eqb_eq in EQ.
      set (lk := updateStatus (clock e) SCHEDULED
                   (mkExtra None None (Some (Some d)) (Some (Some a))) sj).
      assert (Hok : Job_ok lk).
      { unfold lk. apply updateStatus_ok; [now apply running_extra_ok|].
        eapply getJob_ok; eassumption. }
      assert (Hidl : job_id lk = job_id job) by exact Hid.
      assert (Hwf1 : store_wf (updateJob s lk) = true) by now apply storeJob_wf.
      specialize (IH (updateJob s lk) Hwf1).
      destruct (lockJobs e (updateJob s lk) a d rest) as [s' l] eqn:L.
      cbn [fst snd] in *. destruct IH as (W & K & F & M & _).
      assert (Hlk : getJob e s' (job_id job) = Some (reload lk)).
      { unfold getJob. rewrite (F (jobKey (job_id job)) (toJSON lk)).
        - now apply create_toJSON.
        - unfold updateJob, storeJob. rewrite Hidl. apply redis_get_set_same.
        - discriminate. }
      unfold lock_post. split; [exact W|]. split; [|split; [|split]].
      * rewrite K. unfold updateJob, storeJob. apply redis_keys_set_present.
        rewrite Hidl, G0. discriminate.
      * intros k r Gk Hnq. apply F; [|exact Hnq].
        unfold updateJob, storeJob. rewrite redis_get_set_other; [exact Gk|].
        rewrite Hidl. intros Ek. subst k. rewrite G0 in Gk. injection Gk as <-.
        congruence.
      * intros j [<- | Hj].
        -- exists sj, (reload lk). rewrite Hidl.
           split; [exact G|]. split; [exact Hlk|]. split; [reflexivity|].
           split; [simpl; now rewrite Ha|]. left. split; [exact EQ|].
           simpl. now rewrite Hd.
        -- destruct (M j Hj) as (j0 & j' & G1 & G2 & S2 & A2 & Hcase).
           destruct (string_dec (job_id j) (job_id job)) as [E | E].
           ++ exists sj, j'. rewrite E in *. rewrite Hlk in G2. injection G2 as <-.
              split; [exact G|]. split; [exact Hlk|]. split; [reflexivity|].
              split; [simpl; now rewrite Ha|]. left. split; [exact EQ|].
              simpl. now rewrite Hd.
           ++ exists j0, j'. split; [|auto].
              rewrite <- G1. symmetry. apply getJob_storeJob_other. congruence.
      * discriminate.
    + destruct (JobStatus_eqb (status sj) SCHEDULED) eqn:ES; [|exact (IH s Hwf)].
      destruct (opt_eqb String.eqb (agent_id sj) (Some a)) eqn:EA; [|exact (IH s Hwf)].
      apply JobStatus_eqb_eq in ES.
      assert (HA : agent_id sj = Some a).
      { destruct (agent_id sj) as [x|]; [|discriminate]. cbn [opt_eqb] in EA.
        apply String.eqb_eq in EA. congruence. }
      specialize (IH s Hwf).
      destruct (lockJobs e s a d rest) as [s' l] eqn:L.
      cbn [fst snd] in *. destruct IH as (W & K & F & M & _).
      unfold lock_post. split; [exact W|]. split; [exact K|].
      split; [exact F|]. split; [|discriminate].
      intros j [<- | Hj]; [|now apply M].
      exists sj, sj. rewrite Hid. split; [exact G|]. split.
      * rewrite <- G. apply getJob_same_record. rewrite G0. apply F; [exact G0|].
        rewrite L0, ES. discriminate.
      * split; [exact ES|]. split; [exact HA|]. right. auto.
Qed.

(** X15: on a well-formed key space the lock loop of
    [assignAgentDeviceAndExecute] collects only jobs whose stored status was
    queued, or scheduled for the same agent, and leaves each of them stored as
    scheduled for that agent, the formerly queued ones on the given device;
    it rewrites no record that loads with another status than queued,
    adds and removes no key, and writes nothing when it collects nothing. *)
Theorem lockJobs_spec :
  forall (e : Env) (s : Store) (a d : string) (jobs : list Job),
    store_wf s = true -> nonempty a = true -> nonempty d = true ->
    let s' := fst (lockJobs e s a d jobs) in
    let locked := snd (lockJobs e s a d jobs) in
    store_wf s' = true /\
    redis_keys s' = redis_keys s /\
    (forall k r, redis_get k s = Some r -> loaded_status r <> QUEUED ->
                 redis_get k s' = Some r) /\
    (forall j, In j locked ->
       exists j0 j',
         getJob e s (job_id j) = Some j0 /\ getJob e s' (job_id j) = Some j' /\
         status j' = SCHEDULED /\ agent_id j' = Some a /\
         (status j0 = QUEUED /\ device_id j' = Some d \/
          status j0 = SCHEDULED /\ agent_id j0 = Some a /\ j' = j0)) /\
    (locked = [] -> s' = s).
Proof.
  intros e s a d jobs Hwf Ha Hd. exact (lockJobs_inv e a d Ha Hd jobs s Hwf).
Qed.

Lemma lockJobs_spec_witness :
  store_wf (fst (lockJobs env1 store_two "agent-1" "emulator-1"
                   (getJobsInGroup env1 store_two "acme_v1_emulator"))) = true /\
  fst (lockJobs env1 store_cancelled "agent-1" "emulator-1" [job0]) = store_cancelled.
Proof.
  split.
  - refine (proj1 (lockJobs_spec env1 store_two "agent-1" "emulator-1"
                     (getJobsInGroup env1 store_two "acme_v1_emulator") _ _ _)).
    + vm_compute. reflexivity.
    + reflexivity.
    + reflexivity.
  - refine (proj2 (proj2 (proj2 (proj2
              (lockJobs_spec env1 store_cancelled "agent-1" "emulator-1" [job0] _ _ _))))
              _).
    + vm_compute. reflexivity.
    + reflexivity.
    + reflexivity.
    + vm_compute. reflexivity.
Defined.

(** ** A batch of simulated tests *)

Lemma getJob_None_env (e e' : Env) (s : Store) (id : string) :
  getJob e s id = None -> getJob e' s id = None.
Proof.
  unfold getJob, create, Job_create.
  destruct (redis_get (jobKey id) s) as [d|]; [|reflexivity].
  now destruct (validate d).
Qed.

Lemma storeJob_other_key (s : Store) (j : Job) (k : string) :
  k <> jobKey (job_id j) -> redis_get k (storeJob s j) = redis_get k s.
Proof. intros H. unfold storeJob. apply redis_get_set_other. congruence. Qed.

(** One quiet loop body of [executeTests] on a well-formed key space. *)
Lemma executeOne_quiet_result s job a d i n r :
  nonempty a = true -> nonempty d = true -> (i < n)%nat ->
  store_wf s = true -> (forall st, during r st = st) ->
  let s1 := executeOne s job a d i n r in
  store_wf s1 = true /\
  (forall k, k <> jobKey (job_id job) -> redis_get k s1 = redis_get k s) /\
  (forall j0, getJob (env_start r) s (job_id job) = Some j0 ->
     forall e, exists j',
       getJob e s1 (job_id job) = Some j' /\
       status j' = (if success r then COMPLETED else FAILED) /\
       progress j' = progress j0 /\
       agent_id j' = Some a /\ device_id j' = Some d).
Proof.
  intros Ha Hd Hi Hwf Hq s1.
  assert (W : store_wf s1 = true).
  { apply executeOne_wf; auto. intros st Hst. now rewrite Hq. }
  split; [exact W|].
  destruct (getJob (env_start r) s (job_id job)) as [j0|] eqn:G.
  - pose proof (getJob_wf_id _ _ _ _ Hwf G) as Hid.
    destruct (executeOne_quiet s job a d i n r j0 Ha Hd G Hid Hq) as (Heq & Hok & Hidf).
    fold s1 in Heq. split.
    + intros k Hk. rewrite Heq. rewrite storeJob_other_key by congruence.
      unfold markRunning. rewrite G. unfold updateJob.
      apply storeJob_other_key. simpl. congruence.
    + intros j0' [= <-] e. rewrite Heq, <- Hidf.
      rewrite getJob_storeJob_same by exact Hok.
      eexists. split; [reflexivity|].
      destruct (success r); simpl; rewrite Ha, Hd; repeat split.
  - split; [|discriminate]. intros k _. unfold s1, executeOne.
    assert (M : markRunning s job a d r = s) by (unfold markRunning; now rewrite G).
    rewrite M.
    assert (S : simulateTestExecution s job a d r = s)
      by (unfold simulateTestExecution; now rewrite G).
    rewrite S. unfold updateProgress.
    now rewrite (getJob_None_env _ (env_end r) _ _ G).
Qed.

Lemma executeTests_from_quiet (e : Env) (a d : string) (n : nat) :
  nonempty a = true -> nonempty d = true ->
  forall (jobs : list Job) (runs : list Run) (s : Store) (i : nat),
    store_wf s = true -> (i + List.length jobs <= n)%nat ->
    NoDup (map job_id jobs) -> List.length runs = List.length jobs ->
    (forall r, In r runs -> forall st, during r st = st) ->
    let s' := executeTests_from s a d i n jobs runs in
    store_wf s' = true /\
    (forall k, (forall job, In job jobs -> k <> jobKey (job_id job)) ->
               redis_get k s' = redis_get k s) /\
    (forall m job r j0,
        nth_error jobs m = Some job -> nth_error runs m = Some r ->
        getJob (env_start r) s (job_id job) = Some j0 ->
        exists j',
          getJob e s' (job_id job) = Some j' /\
          status j' = (if success r then COMPLETED else FAILED) /\
          progress j' = progress j0 /\
          agent_id j' = Some a /\ device_id j' = Some d).
Proof.
  intros Ha Hd. induction jobs as [|job jobs IH]; intros runs s i Hwf Hi Hnd Hlen Hq.
  - cbn. repeat split; auto. intros [|m] job r j0; discriminate.
  - destruct runs as [|r runs]; [discriminate|].
    cbn [executeTests_from]. inversion Hnd as [|? ? Hnotin Hnd']; subst.
    destruct (executeOne_quiet_result s job a d i n r Ha Hd) as (W1 & F1 & R1);
      auto; [simpl in Hi; lia | apply Hq; now left|].
    set (s1 := executeOne s job a d i n r) in *.
    destruct (IH runs s1 (S i)) as (W & F & R); auto;
      [simpl in Hi; lia | intros r' Hr'; apply Hq; now right|].
    split; [exact W|]. split; [|].
    + intros k Hk. rewrite F.
      * apply F1. apply Hk. now left.
      * intros job' Hjob'. apply Hk. now right.
    + intros [|m] job' r' j0; cbn [nth_error].
      * intros [= <-] [= <-] G. destruct (R1 j0 G e) as (j' & G' & Hrest).
        exists j'. split; [|exact Hrest]. rewrite <- G'.
        apply getJob_same_record. apply F.
        intros job' Hjob' E. apply jobKey_inj in E. apply Hnotin.
        rewrite E. now apply in_map.
      * intros Hm Hr G. apply (R m job' r' j0 Hm Hr).
        rewrite <- G. apply getJob_same_record. apply F1.
        intros E. apply jobKey_inj in E. apply Hnotin. rewrite <- E.
        apply in_map. eapply nth_error_In; eassumption.
Qed.

(** X16: in a well-formed key space, [executeTests] over jobs of distinct ids
    with non-empty agent and device ids and no other writer leaves each job
    that has a loadable record completed or failed as its own test went,
    whatever its status was when its turn came, bound to the agent and the
    device, with its progress untouched; records of other jobs are not
    written. *)
Theorem executeTests_quiet :
  forall (e : Env) (s : Store) (a d : string) (jobs : list Job) (runs : list Run),
    store_wf s = true -> nonempty a = true -> nonempty d = true ->
    NoDup (map job_id jobs) -> List.length runs = List.length jobs ->
    (forall r, In r runs -> forall st, during r st = st) ->
    let s' := executeTests s a d jobs runs in
    (forall m job r j0,
        nth_error jobs m = Some job -> nth_error runs m = Some r ->
        getJob (env_start r) s (job_id job) = Some j0 ->
        exists j',
          getJob e s' (job_id job) = Some j' /\
          status j' = (if success r then COMPLETED else FAILED) /\
          progress j' = progress j0 /\
          agent_id j' = Some a /\ device_id j' = Some d) /\
    (forall k, (forall job, In job jobs -> k <> jobKey (job_id job)) ->
               redis_get k s' = redis_get k s).
Proof.
  intros e s a d jobs runs Hwf Ha Hd Hnd Hlen Hq s'.
  destruct (executeTests_from_quiet e a d (List.length jobs) Ha Hd jobs runs s 0)
    as (_ & F & R); auto.
Qed.

Lemma executeTests_quiet_witness :
  exists j',
    getJob env2 (executeTests store_cancelled "agent-1" "emulator-1"
                   [job0] [run_failing]) (job_id job0) = Some j' /\
    status j' = FAILED /\ progress j' = progress job_cancelled /\
    agent_id j' = Some "agent-1" /\ device_id j' = Some "emulator-1".
Proof.
  refine (proj1 (executeTests_quiet env2 store_cancelled "agent-1" "emulator-1"
                   [job0] [run_failing] _ _ _ _ _ _)
            0%nat job0 run_failing job_cancelled _ _ _).
  - vm_compute. reflexivity.
  - reflexivity.
  - reflexivity.
  - constructor; [intros [] | constructor].
  - reflexivity.
  - intros r [<- | []] st. reflexivity.
  - reflexivity.
  - reflexivity.
  - vm_compute. reflexivity.
Defined.

(** ** The pool through a scheduler run *)

Lemma update_nth_map {A B} (g : A -> B) (f : A -> A) (n : nat) (l : list A) :
  (forall x, g (f x) = g x) -> map g (update_nth n f l) = map g l.
Proof.
  intros H. revert n. induction l as [|x r IH]; intros [|n]; simpl; auto.
  - now rewrite H.
  - now rewrite IH.
Qed.

Lemma update_nth_forallb {A} (q : A -> bool) (f : A -> A) (n : nat) (l : list A) :
  (forall x, q x = true -> q (f x) = true) ->
  forallb q l = true -> forallb q (update_nth n f l) = true.
Proof.
  intros H. revert n. induction l as [|x r IH]; intros [|n]; simpl; auto;
    intros E; apply andb_true_iff in E; destruct E as [E1 E2];
    apply andb_true_iff; auto.
Qed.

Lemma update_nth_twice {A} (f g : A -> A) (n : nat) (l : list A) :
  update_nth n g (update_nth n f l) = update_nth n (fun x => g (f x)) l.
Proof.
  revert n. induction l as [|x r IH]; intros [|n]; simpl; auto. now rewrite IH.
Qed.

Lemma release_occupy_devices (di : nat) (ids : list string) (a : Agent) :
  ag_devices (release di (occupy di ids a))
  = update_nth di (fun d => setDevice AVAILABLE [] (setDevice BUSY ids d))
      (ag_devices a).
Proof. unfold release, occupy. cbn [ag_devices]. apply update_nth_twice. Qed.

Lemma assign_pool e s p ai di jobs runs k :
  served p (snd (fst (assignAgentDeviceAndExecute e s p ai di jobs runs k))).
Proof.
  unfold assignAgentDeviceAndExecute.
  destruct (nth_error p ai) as [agent|]; [|now left].
  destruct (nth_error (ag_devices agent) di) as [device|]; [|now left].
  destruct (lockJobs e s (ag_id agent) (dev_id device) jobs) as [s1 locked].
  destruct locked as [|j l]; [now left|]. right.
  exists ai, di, (map job_id (j :: l)). cbn [fst snd]. apply update_nth_twice.
Qed.

Lemma served_shape (p p' : Pool) : served p p' -> pool_shape p' = pool_shape p.
Proof.
  intros [-> | (ai & di & ids & ->)]; [reflexivity|].
  unfold pool_shape. apply update_nth_map. intros a.
  rewrite release_occupy_devices. f_equal.
  apply update_nth_map. reflexivity.
Qed.

Lemma served_idle (p p' : Pool) :
  served p p' -> pool_idle p = true -> pool_idle p' = true.
Proof.
  intros [-> | (ai & di & ids & ->)]; [auto|].
  unfold pool_idle. apply update_nth_forallb. intros a Ha.
  apply andb_true_iff in Ha. destruct Ha as [_ Hd].
  assert (Hall : allDevices AVAILABLE (ag_devices (release di (occupy di ids a))) = true).
  { rewrite release_occupy_devices. unfold allDevices in *.
    apply update_nth_forallb; [|exact Hd]. reflexivity. }
  apply andb_true_iff. split; [|exact Hall].
  unfold release in *. unfold isOnline. cbn [ag_status ag_devices] in *.
  now rewrite Hall.
Qed.

Lemma served_named (p p' : Pool) :
  served p p' -> pool_named p = true -> pool_named p' = true.
Proof.
  intros [-> | (ai & di & ids & ->)]; [auto|].
  unfold pool_named. apply update_nth_forallb. intros a Ha.
  apply andb_true_iff in Ha. destruct Ha as [H1 H2].
  apply andb_true_iff. split; [exact H1|].
  rewrite release_occupy_devices. apply update_nth_forallb; [|exact H2].
  intros d Hd. exact Hd.
Qed.

Lemma served_kept (p p' : Pool) : served p p' -> pool_kept p p'.
Proof.
  intros H. split; [now apply served_shape|].
  split; [now apply served_idle | now apply served_named].
Qed.

Lemma pool_kept_refl (p : Pool) : pool_kept p p.
Proof. repeat split; auto. Qed.

Lemma pool_kept_trans (p q r : Pool) : pool_kept p q -> pool_kept q r -> pool_kept p r.
Proof.
  intros (A1 & A2 & A3) (B1 & B2 & B3). repeat split; auto. congruence.
Qed.

Lemma processJobGroup_pool e s p g runs k :
  pool_kept p (snd (fst (processJobGroup e s p g runs k))).
Proof.
  unfold processJobGroup.
  set (fresh := match findAvailableAgentAndDevice p (g_target g) with
                | Some (ai, di) => _
                | None => _
                end).
  assert (Hfresh : pool_kept p (snd (fst fresh))).
  { unfold fresh. destruct (findAvailableAgentAndDevice p (g_target g)) as [[ai di]|];
      [|apply pool_kept_refl].
    destruct (getJobsInGroup e s (g_group_id g)); [apply pool_kept_refl|].
    apply served_kept, assign_pool. }
  repeat match goal with
         | |- pool_kept _ (snd (fst (match ?x with _ => _ end))) => destruct x
         | |- pool_kept _ (snd (fst (if ?x then _ else _))) => destruct x
         end; try exact Hfresh; apply served_kept, assign_pool.
Qed.

Lemma processGroups_pool e gs runs :
  forall s p k, pool_kept p (snd (fst (processGroups e s p gs runs k))).
Proof.
  induction gs as [|g gs IH]; intros s p k; cbn [processGroups];
    [apply pool_kept_refl|].
  assert (Hstep : pool_kept p
            (snd (fst (let '(s', p', k') := processJobGroup e s p g runs k in
                       processGroups e s' p' gs runs k')))).
  { pose proof (processJobGroup_pool e s p g runs k) as H.
    destruct (processJobGroup e s p g runs k) as [[s' p'] k'].
    cbn [fst snd] in H. eapply pool_kept_trans; [exact H | apply IH]. }
  destruct (g_status g); auto.
Qed.

(** X17: a run of the scheduler changes no agent id and no device id,
    type, target or owner, whatever the tests and the other writers do; and
    when it starts with every agent online and every device available, it
    ends so: each device that it made busy is released again. *)
Theorem processJobQueue_pool :
  forall (e : Env) (s : Store) (p : Pool) (runs : Runs) (k : nat),
    let p' := snd (fst (processJobQueue e s p runs k)) in
    pool_shape p' = pool_shape p /\
    (pool_idle p = true -> pool_idle p' = true).
Proof.
  intros e s p runs k p'.
  assert (H : pool_kept p p').
  { unfold p', processJobQueue.
    destruct (Nat.eqb (waiting (getQueueStats e s)) 0); [apply pool_kept_refl|].
    apply processGroups_pool. }
  destruct H as (H1 & H2 & _). auto.
Qed.

Lemma processJobQueue_pool_witness :
  pool_idle (snd (fst (processJobQueue env1 store0 mockAgents quiet_runs 0))) = true.
Proof.
  refine (proj2 (processJobQueue_pool env1 store0 mockAgents quiet_runs 0) _).
  reflexivity.
Defined.

Example tick_completes_job0 :
  exists j, getJob env2 (fst (fst (processJobQueue env1 store0 mockAgents quiet_runs 0))) id0
            = Some j /\
            status j = COMPLETED /\ agent_id j = Some "agent-1" /\
            device_id j = Some "emulator-1".
Proof. eexists. split; [vm_compute; reflexivity | repeat split]. Qed.

(** ** What a quiet scheduler run leaves alone *)

Lemma executeTests_from_frame (a d : string) (n : nat) :
  nonempty a = true -> nonempty d = true ->
  forall (jobs : list Job) (runs : list Run) (s : Store) (i : nat),
    store_wf s = true -> (i + List.length jobs <= n)%nat ->
    (forall r, In r runs -> forall st, during r st = st) ->
    store_wf (executeTests_from s a d i n jobs runs) = true /\
    (forall k, (forall job, In job jobs -> k <> jobKey (job_id job)) ->
               redis_get k (executeTests_from s a d i n jobs runs) = redis_get k s).
Proof.
  intros Ha Hd. induction jobs as [|job jobs IH]; intros runs s i Hwf Hi Hq.
  - cbn. auto.
  - destruct runs as [|r runs]; [cbn; auto|]. cbn [executeTests_from].
    destruct (executeOne_quiet_result s job a d i n r Ha Hd) as (W1 & F1 & _);
      auto; [simpl in Hi; lia | apply Hq; now left|].
    destruct (IH runs (executeOne s job a d i n r) (S i)) as (W & F); auto;
      [simpl in Hi; lia | intros r' Hr'; apply Hq; now right|].
    split; [exact W|]. intros k Hk. rewrite F.
    + apply F1. apply Hk. now left.
    + intros job' Hjob'. apply Hk. now right.
Qed.

Lemma pool_named_nth (p : Pool) (ai di : nat) (agent : Agent) (device : Device) :
  pool_named p = true -> nth_error p ai = Some agent ->
  nth_error (ag_devices agent) di = Some device ->
  nonempty (ag_id agent) = true /\ nonempty (dev_id device) = true.
Proof.
  intros Hn Ha Hd. unfold pool_named in Hn. rewrite forallb_forall in Hn.
  specialize (Hn agent (nth_error_In _ _ Ha)).
  apply andb_true_iff in Hn. destruct Hn as [H1 H2]. split; [exact H1|].
  rewrite forallb_forall in H2. exact (H2 device (nth_error_In _ _ Hd)).
Qed.

Lemma in_map_seq (runs : Runs) (k n : nat) (r : Run) :
  In r (map runs (seq k n)) -> exists m, r = runs m.
Proof. intros H. apply in_map_iff in H. destruct H as (m & <- & _). eauto. Qed.

(** A quiet [assignAgentDeviceAndExecute] keeps the key space well-formed
    and leaves the records that load neither queued nor scheduled. *)
Lemma assign_frame e s p ai di jobs runs k :
  store_wf s = true -> pool_named p = true -> quiet runs ->
  let s' := fst (fst (assignAgentDeviceAndExecute e s p ai di jobs runs k)) in
  store_wf s' = true /\
  (forall key r, redis_get key s = Some r ->
                 loaded_status r <> QUEUED -> loaded_status r <> SCHEDULED ->
                 redis_get key s' = Some r).
Proof.
  intros Hwf Hn Hq. unfold assignAgentDeviceAndExecute.
  destruct (nth_error p ai) as [agent|] eqn:A; [|cbn; auto].
  destruct (nth_error (ag_devices agent) di) as [device|] eqn:D; [|cbn; auto].
  destruct (pool_named_nth _ _ _ _ _ Hn A D) as [Ha Hd].
  pose proof (lockJobs_inv e _ _ Ha Hd jobs s Hwf) as L.
  destruct (lockJobs e s (ag_id agent) (dev_id device) jobs) as [s1 locked].
  cbn [fst snd] in L. destruct L as (W1 & _ & F1 & M1 & _).
  destruct locked as [|j l]; [cbn; auto|]. cbn [fst snd].
  unfold executeTests.
  destruct (executeTests_from_frame _ _ (List.length (j :: l)) Ha Hd (j :: l)
              (map runs (seq k (List.length (j :: l)))) s1 0 W1) as (W & F).
  { simpl. lia. }
  { intros r Hr st. apply in_map_seq in Hr. destruct Hr as [m ->]. apply Hq. }
  split; [exact W|]. intros key r G Hnq Hns.
  rewrite F; [now apply F1|].
  intros job Hjob E. destruct (M1 job Hjob) as (_ & j' & _ & G' & S' & _).
  destruct (getJob_loaded_status _ _ _ _ G') as (r' & Gr & _ & Lr).
  rewrite <- E, (F1 key r G Hnq) in Gr. injection Gr as <-. congruence.
Qed.

Lemma processJobGroup_frame e s p g runs k :
  store_wf s = true -> pool_named p = true -> quiet runs ->
  let s' := fst (fst (processJobGroup e s p g runs k)) in
  store_wf s' = true /\
  (forall key r, redis_get key s = Some r ->
                 loaded_status r <> QUEUED -> loaded_status r <> SCHEDULED ->
                 redis_get key s' = Some r).
Proof.
  intros Hwf Hn Hq. unfold processJobGroup.
  set (fresh := match findAvailableAgentAndDevice p (g_target g) with
                | Some (ai, di) => _
                | None => _
                end).
  assert (Hfresh :
            store_wf (fst (fst fresh)) = true /\
            (forall key r, redis_get key s = Some r ->
                           loaded_status r <> QUEUED -> loaded_status r <> SCHEDULED ->
                           redis_get key (fst (fst fresh)) = Some r)).
  { unfold fresh. destruct (findAvailableAgentAndDevice p (g_target g)) as [[ai di]|];
      [|cbn; auto].
    destruct (getJobsInGroup e s (g_group_id g)); [cbn; auto|].
    now apply assign_frame. }
  cbv zeta.
  repeat match goal with
         | |- context [fst (fst (match ?x with _ => _ end))] => destruct x
         | |- context [fst (fst (if ?x then _ else _))] => destruct x
         end; try exact Hfresh; now apply assign_frame.
Qed.

Lemma processGroups_frame e gs runs :
  quiet runs ->
  forall s p k,
    store_wf s = true -> pool_named p = true ->
    let s' := fst (fst (processGroups e s p gs runs k)) in
    store_wf s' = true /\
    (forall key r, redis_get key s = Some r ->
                   loaded_status r <> QUEUED -> loaded_status r <> SCHEDULED ->
                   redis_get key s' = Some r).
Proof.
  intros Hq. induction gs as [|g gs IH]; intros s p k Hwf Hn;
    cbn [processGroups]; [cbn; auto|].
  assert (Hstep :
    let s' := fst (fst (let '(s1, p1, k1) := processJobGroup e s p g runs k in
                        processGroups e s1 p1 gs runs k1)) in
    store_wf s' = true /\
    (forall key r, redis_get key s = Some r ->
                   loaded_status r <> QUEUED -> loaded_status r <> SCHEDULED ->
                   redis_get key s' = Some r)).
  { pose proof (processJobGroup_frame e s p g runs k Hwf Hn Hq) as H.
    pose proof (processJobGroup_pool e s p g runs k) as (_ & _ & Hn').
    destruct (processJobGroup e s p g runs k) as [[s1 p1] k1].
    cbn [fst snd] in *. destruct H as [W1 F1].
    destruct (IH s1 p1 k1 W1 (Hn' Hn)) as [W F].
    split; [exact W|]. intros key r G H1 H2. apply F; auto. }
  destruct (g_status g); auto.
Qed.

(** X18: in a well-formed key space, a scheduler run whose tests meet no
    other writer, over a pool without empty ids, rewrites no record that
    loads with a status other than queued or scheduled: completed, failed,
    cancelled, running and retrying jobs are left exactly as they are. *)
Theorem processJobQueue_frame :
  forall (e : Env) (s : Store) (p : Pool) (runs : Runs) (k : nat)
         (key : string) (r : JobData),
    store_wf s = true -> pool_named p = true -> quiet runs ->
    redis_get key s = Some r ->
    loaded_status r <> QUEUED -> loaded_status r <> SCHEDULED ->
    redis_get key (fst (fst (processJobQueue e s p runs k))) = Some r.
Proof.
  intros e s p runs k key r Hwf Hn Hq G H1 H2. unfold processJobQueue.
  destruct (Nat.eqb (waiting (getQueueStats e s)) 0); [exact G|].
  apply (processGroups_frame e (getJobGroups e s) runs Hq s p k Hwf Hn); auto.
Qed.

Lemma processJobQueue_frame_witness :
  redis_get (jobKey id0)
    (fst (fst (processJobQueue env2 store_mixed mockAgents quiet_runs 0)))
  = Some (toJSON job_retrying).
Proof.
  refine (processJobQueue_frame env2 store_mixed mockAgents quiet_runs 0
            (jobKey id0) (toJSON job_retrying) _ _ _ _ _ _).
  - vm_compute. reflexivity.
  - reflexivity.
  - intros m st. reflexivity.
  - vm_compute. reflexivity.
  - discriminate.
  - discriminate.
Defined.

Example tick_runs_the_queued_job_only :
  exists j, getJob env2
              (fst (fst (processJobQueue env2 store_mixed mockAgents quiet_runs 0)))
              "job_b" = Some j /\
            status j = COMPLETED.
Proof. eexists. split; [vm_compute; reflexivity | reflexivity]. Qed.

(** ** The queued jobs of a group are run *)

Lemma getJobs_stored (e : Env) (s : Store) (org : string) (st : option JobStatus)
    (j : Job) :
  store_wf s = true -> In j (getJobs e s org st) -> getJob e s (job_id j) = Some j.
Proof.
  intros Hwf Hin. unfold getJobs in Hin.
  destruct (getJobs_loop_filter e s org st (redis_keys s) Hwf) as (js & E & H).
  rewrite E in Hin. apply H in Hin. destruct Hin as (k & d & _ & G & C & _).
  destruct (store_wf_get _ _ _ Hwf G) as (_ & id & Hid & ->).
  rewrite (create_job_id _ _ _ _ C Hid). unfold getJob. now rewrite G.
Qed.

Lemma getJobs_loop_NoDup (e : Env) (s : Store) (org : string)
    (st : option JobStatus) (ks : list string) :
  store_wf s = true -> NoDup ks ->
  forall js, getJobs_loop e s ks org st = Some js ->
             NoDup (map job_id js) /\
             forall j, In j js -> In (jobKey (job_id j)) ks.
Proof.
  intros Hwf. induction ks as [|k ks IH]; intros Hnd js; cbn [getJobs_loop].
  - intros [= <-]. split; [constructor | intros j []].
  - inversion Hnd as [|? ? Hnotin Hnd']; subst.
    destruct (redis_get k s) as [d|] eqn:G.
    + destruct (_ && _)%bool.
      * destruct (create e d) as [j0|] eqn:C; [|discriminate].
        destruct (getJobs_loop e s ks org st) as [js0|]; [|discriminate].
        intros [= <-]. destruct (IH Hnd' js0 eq_refl) as [N I].
        destruct (store_wf_get _ _ _ Hwf G) as (_ & id & Hid & Hk).
        pose proof (create_job_id _ _ _ _ C Hid) as Hj0.
        split.
        -- cbn [map]. constructor; [|exact N]. intros Hin.
           apply in_map_iff in Hin. destruct Hin as (j & Ej & Hj).
           apply I in Hj. rewrite Ej, Hj0, <- Hk in Hj. contradiction.
        -- intros j [<- | Hj]; [left; now rewrite Hj0 | right; now apply I].
      * intros E. destruct (IH Hnd' js E) as [N I]. split; [exact N|].
        intros j Hj. right. now apply I.
    + intros E. destruct (IH Hnd' js E) as [N I]. split; [exact N|].
      intros j Hj. right. now apply I.
Qed.

Lemma NoDup_map_filter {A B} (f : A -> B) (q : A -> bool) (l : list A) :
  NoDup (map f l) -> NoDup (map f (filter q l)).
Proof.
  induction l as [|x r IH]; simpl; [auto|]. intros H.
  inversion H as [|? ? Hn Hr]; subst. destruct (q x); [|auto].
  simpl. constructor; [|auto]. intros Hin. apply Hn.
  apply in_map_iff in Hin. destruct Hin as (y & E & Hy).
  apply filter_In in Hy. apply in_map_iff. exists y. tauto.
Qed.

Lemma groupCandidates_facts (e : Env) (s : Store) (gid : string) (wanted : JobStatus) :
  store_wf s = true -> NoDup (redis_keys s) ->
  NoDup (map job_id (groupCandidates e s gid wanted)) /\
  forall j, In j (groupCandidates e s gid wanted) ->
            getJob e s (job_id j) = Some j /\ status j = wanted.
Proof.
  intros Hwf Hnd. split.
  - unfold groupCandidates. destruct (parseGroupId gid) as [[o a] t].
    apply NoDup_map_filter. destruct o as [o|]; [|constructor].
    unfold getJobs.
    destruct (getJobs_loop e s (redis_keys s) o None) as [js|] eqn:E; [|constructor].
    exact (proj1 (getJobs_loop_NoDup e s o None _ Hwf Hnd js E)).
  - intros j Hj. split; [|eapply groupCandidates_status; eassumption].
    unfold groupCandidates in Hj. destruct (parseGroupId gid) as [[o a] t].
    apply filter_In in Hj. destruct Hj as [Hj _].
    destruct o as [o|]; [|destruct Hj]. eapply getJobs_stored; eassumption.
Qed.

Lemma lockJobs_all_queued (e : Env) (a d : string) :
  nonempty a = true -> nonempty d = true ->
  forall (jobs : list Job) (s : Store),
    store_wf s = true -> NoDup (map job_id jobs) ->
    (forall job, In job jobs ->
                 exists j0, getJob e s (job_id job) = Some j0 /\ status j0 = QUEUED) ->
    map job_id (snd (lockJobs e s a d jobs)) = map job_id jobs.
Proof.
  intros Ha Hd. induction jobs as [|job rest IH]; intros s Hwf Hnd Hq; [reflexivity|].
  cbn [lockJobs]. destruct (Hq job (or_introl eq_refl)) as (j0 & G & S0).
  rewrite G, S0. cbn [JobStatus_eqb].
  inversion Hnd as [|? ? Hnotin Hnd']; subst.
  pose proof (getJob_wf_id _ _ _ _ Hwf G) as Hid.
  set (lk := updateStatus (clock e) SCHEDULED
               (mkExtra None None (Some (Some d)) (Some (Some a))) j0).
  assert (Hok : Job_ok lk).
  { unfold lk. apply updateStatus_ok; [now apply running_extra_ok|].
    eapply getJob_ok; eassumption. }
  assert (Hwf1 : store_wf (updateJob s lk) = true) by now apply storeJob_wf.
  assert (Hq1 : forall job', In job' rest ->
                  exists j1, getJob e (updateJob s lk) (job_id job') = Some j1 /\
                             status j1 = QUEUED).
  { intros job' Hj'. destruct (Hq job' (or_intror Hj')) as (j1 & G1 & S1).
    exists j1. split; [|exact S1]. rewrite <- G1.
    apply getJob_storeJob_other. intros E. apply Hnotin.
    change (job_id lk) with (job_id j0) in E. rewrite Hid in E. rewrite <- E.
    now apply in_map. }
  specialize (IH (updateJob s lk) Hwf1 Hnd' Hq1).
  destruct (lockJobs e (updateJob s lk) a d rest) as [s' l]. cbn [snd] in *.
  cbn [map]. f_equal; [exact Hid | exact IH].
Qed.

Lemma nth_error_map_seq (runs : Runs) (k n m : nat) :
  (m < n)%nat -> nth_error (map runs (seq k n)) m = Some (runs (k + m)%nat).
Proof.
  intros H. rewrite nth_error_map.
  rewrite (nth_error_nth' (seq k n) 0%nat) by (rewrite length_seq; exact H).
  rewrite seq_nth by exact H. reflexivity.
Qed.

(** A quiet [assignAgentDeviceAndExecute] over distinct jobs that are all
    stored as queued. *)
Lemma assign_runs_queued e e' s p ai di jobs runs k agent device :
  store_wf s = true -> pool_named p = true -> quiet runs ->
  nth_error p ai = Some agent -> nth_error (ag_devices agent) di = Some device ->
  NoDup (map job_id jobs) ->
  (forall job, In job jobs ->
               exists j0, getJob e s (job_id job) = Some j0 /\ status j0 = QUEUED) ->
  snd (assignAgentDeviceAndExecute e s p ai di jobs runs k)
  = (k + List.length jobs)%nat /\
  forall m job,
    nth_error jobs m = Some job ->
    exists j',
      getJob e' (fst (fst (assignAgentDeviceAndExecute e s p ai di jobs runs k)))
        (job_id job) = Some j' /\
      status j' = (if success (runs (k + m)%nat) then COMPLETED else FAILED) /\
      agent_id j' = Some (ag_id agent) /\ device_id j' = Some (dev_id device).
Proof.
  intros Hwf Hn Hq A D Hnd Hall.
  destruct (pool_named_nth _ _ _ _ _ Hn A D) as [Ha Hd].
  pose proof (lockJobs_inv e _ _ Ha Hd jobs s Hwf) as L.
  pose proof (lockJobs_all_queued e _ _ Ha Hd jobs s Hwf Hnd Hall) as Hids.
  unfold assignAgentDeviceAndExecute. rewrite A, D.
  destruct (lockJobs e s (ag_id agent) (dev_id device) jobs) as [s1 locked].
  cbn [fst snd] in L, Hids. destruct L as (W1 & _ & _ & M1 & _).
  assert (Hlen : List.length locked = List.length jobs).
  { rewrite <- (length_map job_id locked), Hids. apply length_map. }
  destruct locked as [|j l].
  - destruct jobs; [|discriminate]. cbn [fst snd]. split; [simpl; lia|].
    intros [|m] job; discriminate.
  - cbn [fst snd]. split; [now rewrite Hlen|].
    intros m job Hm. unfold executeTests.
    assert (Hmlt : (m < List.length (j :: l))%nat).
    { rewrite Hlen. apply nth_error_Some. congruence. }
    destruct (nth_error (j :: l) m) as [lj|] eqn:Hlj;
      [|apply nth_error_None in Hlj; lia].
    assert (Hidlj : job_id lj = job_id job).
    { pose proof (map_nth_error job_id _ _ Hlj) as E1.
      pose proof (map_nth_error job_id _ _ Hm) as E2.
      rewrite Hids in E1. congruence. }
    destruct (M1 lj (nth_error_In _ _ Hlj)) as (_ & j1 & _ & G1 & _).
    destruct (getJob (env_start (runs (k + m)%nat)) s1 (job_id lj)) as [j0|] eqn:G0;
      [|rewrite (getJob_None_env _ e _ _ G0) in G1; discriminate].
    destruct (executeTests_from_quiet e' _ _ (List.length (j :: l)) Ha Hd (j :: l)
                (map runs (seq k (List.length (j :: l)))) s1 0 W1) as (_ & _ & R).
    + simpl. lia.
    + rewrite Hids. exact Hnd.
    + rewrite length_map. apply length_seq.
    + intros r Hr st. apply in_map_seq in Hr. destruct Hr as [x ->]. apply Hq.
    + destruct (R m lj (runs (k + m)%nat) j0 Hlj (nth_error_map_seq runs k _ m Hmlt) G0)
        as (j' & G' & S' & _ & A' & D').
      exists j'. rewrite <- Hidlj. auto.
Qed.

(** X19: in a well-formed key space with distinct keys, when a group has no
    scheduled job and [findAvailableAgentAndDevice] finds a device for its
    target, a quiet [processJobGroup] runs every queued job of the group, in
    the order of [getJobsInGroup], on that device: each ends completed or
    failed as its own test went, bound to that agent and device. *)
Theorem processJobGroup_runs_queued :
  forall (e e' : Env) (s : Store) (p : Pool) (g : GroupSummary) (runs : Runs)
         (k ai di : nat) (agent : Agent) (device : Device),
    store_wf s = true -> NoDup (redis_keys s) -> pool_named p = true ->
    quiet runs ->
    getScheduledJobsInGroup e s (g_group_id g) = [] ->
    findAvailableAgentAndDevice p (g_target g) = Some (ai, di) ->
    nth_error p ai = Some agent -> nth_error (ag_devices agent) di = Some device ->
    let jobs := getJobsInGroup e s (g_group_id g) in
    snd (processJobGroup e s p g runs k) = (k + List.length jobs)%nat /\
    forall m job,
      nth_error jobs m = Some job ->
      exists j',
        getJob e' (fst (fst (processJobGroup e s p g runs k))) (job_id job) = Some j' /\
        status j' = (if success (runs (k + m)%nat) then COMPLETED else FAILED) /\
        agent_id j' = Some (ag_id agent) /\ device_id j' = Some (dev_id device).
Proof.
  intros e e' s p g runs k ai di agent device Hwf Hnd Hn Hq Hs Hf A D jobs.
  destruct (groupCandidates_facts e s (g_group_id g) QUEUED Hwf Hnd) as [N M].
  assert (Hnd' : NoDup (map job_id jobs)).
  { unfold jobs, getJobsInGroup. eapply Permutation_NoDup; [|exact N].
    apply Permutation_map. symmetry. apply array_sort_perm. }
  assert (Hall : forall job, In job jobs ->
                   exists j0, getJob e s (job_id job) = Some j0 /\ status j0 = QUEUED).
  { intros job Hj. unfold jobs, getJobsInGroup in Hj. apply array_sort_In in Hj.
    destruct (M job Hj). eauto. }
  pose proof (assign_runs_queued e e' s p ai di jobs runs k agent device
                Hwf Hn Hq A D Hnd' Hall) as H.
  unfold processJobGroup. rewrite Hs, Hf. fold jobs.
  destruct jobs as [|j l] eqn:Ej; [|exact H].
  cbn [fst snd]. split; [simpl; lia|]. intros [|m] job; discriminate.
Qed.

Lemma processJobGroup_runs_queued_witness :
  snd (processJobGroup env1 store_two mockAgents group0 quiet_runs 0) = 2%nat /\
  exists j',
    getJob env2 (fst (fst (processJobGroup env1 store_two mockAgents group0 quiet_runs 0)))
      "job_early" = Some j' /\
    status j' = COMPLETED /\
    agent_id j' = Some "agent-1" /\ device_id j' = Some "emulator-1".
Proof.
  destruct (processJobGroup_runs_queued env1 env2 store_two mockAgents group0
              quiet_runs 0 0 0
              (mkAgent "agent-1" ONLINE
                 [ mockDevice "emulator-1" EMULATOR "agent-1";
                   mockDevice "device-1" DEVICE "agent-1" ])
              (mockDevice "emulator-1" EMULATOR "agent-1")) as [H1 H2].
  - vm_compute. reflexivity.
  - constructor; [intros [H | []]; discriminate H|].
    constructor; [intros [] | constructor].
  - reflexivity.
  - intros m st. reflexivity.
  - vm_compute. reflexivity.
  - reflexivity.
  - reflexivity.
  - reflexivity.
  - split; [exact H1|].
    refine (H2 1%nat
              (mkJob "job_early" "acme" "v1" "b.spec" MEDIUM EMULATOR
                 "2024-05-01T10:00:01.000Z" QUEUED 0 None None 0 3 None None
                 None None None) _).
    vm_compute. reflexivity.
Defined.

(** ** At most one active job for a submission *)

Lemma findDuplicateJob_None (e : Env) (s : Store) (d : JobData) :
  store_wf s = true -> findDuplicateJob e s d = None ->
  forall k existing, redis_get k s = Some existing ->
                     same_submission existing d = false.
Proof.
  intros Hwf F k ex G. destruct (same_submission ex d) eqn:M; [|reflexivity].
  destruct (findDuplicate_loop_some e s d (redis_keys s) Hwf)
    as (k' & ex' & dup & _ & _ & _ & _ & F').
  - exists k, ex. split; [eapply redis_get_In_keys; eassumption | auto].
  - unfold findDuplicateJob in F. congruence.
Qed.

Lemma active_record_iff (d : JobData) :
  active_record d = true <->
  d_status d = Some QUEUED \/ d_status d = Some SCHEDULED \/ d_status d = Some RUNNING.
Proof.
  unfold active_record, status_is.
  destruct (d_status d) as [[]|]; simpl; split; intros H;
    try discriminate; auto; destruct H as [H | [H | H]]; discriminate.
Qed.

(** X20: if no two keys of a well-formed key space hold active records
    (queued, scheduled or running) with the same [org_id], [app_version_id],
    [test_path] and [target], then this is still so after any submission
    that has a [target] key. *)
Theorem addJob_keeps_unique_active :
  forall (e : Env) (s : Store) (d : JobData),
    store_wf s = true -> unique_active s -> d_target d <> None ->
    unique_active (fst (addJob e s d)).
Proof.
  intros e s d Hwf Hu Ht. unfold addJob.
  destruct (findDuplicateJob e s d) as [dup|] eqn:F; [exact Hu|].
  destruct (create e d) as [j|] eqn:C; [|exact Hu]. cbn [fst].
  pose proof (findDuplicateJob_None e s d Hwf F) as Hno.
  destruct (create_fields _ _ _ C) as (Ho & Ha & Htp & Htg & _).
  assert (Hclash : forall k2 d2,
             redis_get k2 s = Some d2 -> active_record d2 = true ->
             same_tuple (toJSON j) d2 -> False).
  { intros k2 d2 G2 A2 (T1 & T2 & T3 & T4).
    assert (M : same_submission d2 d = true).
    { apply same_submission_iff. unfold toJSON in *; fields.
      repeat split; try congruence.
      - rewrite <- T4, Htg. destruct (d_target d); [reflexivity | congruence].
      - now apply active_record_iff. }
    rewrite (Hno k2 d2 G2) in M. discriminate. }
  assert (Hsym : forall a b, same_tuple a b -> same_tuple b a).
  { intros a b (T1 & T2 & T3 & T4). repeat split; congruence. }
  intros k1 k2 d1 d2 G1 G2 A1 A2 T.
  destruct (string_dec k1 (jobKey (job_id j))) as [E1 | E1];
    destruct (string_dec k2 (jobKey (job_id j))) as [E2 | E2].
  - congruence.
  - exfalso. subst k1. unfold storeJob in G1. rewrite redis_get_set_same in G1.
    injection G1 as <-. rewrite storeJob_other_key in G2 by exact E2.
    eapply Hclash; eassumption.
  - exfalso. subst k2. unfold storeJob in G2. rewrite redis_get_set_same in G2.
    injection G2 as <-. rewrite storeJob_other_key in G1 by exact E1.
    eapply Hclash; eauto.
  - rewrite storeJob_other_key in G1 by exact E1.
    rewrite storeJob_other_key in G2 by exact E2.
    eapply Hu; eassumption.
Qed.

Lemma addJob_keeps_unique_active_witness :
  List.length
    (redis_keys (fst (addJob env1 store0 (submission "acme" "v1" "b.spec" EMULATOR))))
  = 2%nat /\
  unique_active (fst (addJob env1 store0 (submission "acme" "v1" "b.spec" EMULATOR))) /\
  unique_active (fst (addJob env1 store0 (submission "acme" "v1" "a.spec" EMULATOR))).
Proof.
  assert (H0 : unique_active store0).
  { refine (addJob_keeps_unique_active env0 []
              (submission "acme" "v1" "a.spec" EMULATOR) _ _ _).
    - reflexivity.
    - intros k1 k2 d1 d2 H. discriminate H.
    - discriminate. }
  split; [reflexivity|]. split.
  - refine (addJob_keeps_unique_active env1 store0
              (submission "acme" "v1" "b.spec" EMULATOR) _ H0 _).
    + vm_compute. reflexivity.
    + discriminate.
  - refine (addJob_keeps_unique_active env1 store0
              (submission "acme" "v1" "a.spec" EMULATOR) _ H0 _).
    + vm_compute. reflexivity.
    + discriminate.
Defined.

(** ** Calls that throw *)

(** Without faults the services are the ones above. *)
Lemma cancelJob_io_no_faults (e : Env) (s : Store) (jobId : string) :
  cancelJob_io no_faults e s jobId
  = (fst (cancelJob e s jobId), outcome "" (snd (cancelJob e s jobId))).
Proof.
  unfold cancelJob_io, cancelJob, getJob_io, storeJob_io, updateJob. cbn [getJob_fails store_fails no_faults].
  destruct (getJob e s jobId) as [j|]; [|reflexivity].
  destruct (done (status j)); reflexivity.
Qed.

Lemma retryJob_io_no_faults (e : Env) (s : Store) (jobId : string) :
  retryJob_io no_faults e s jobId
  = (fst (retryJob e s jobId), outcome "" (snd (retryJob e s jobId))).
Proof.
  unfold retryJob_io, retryJob, getJob_io, storeJob_io, updateJob.
  cbn [getJob_fails store_fails queue_fails no_faults].
  destruct (getJob e s jobId) as [j|]; [|reflexivity].
  destruct (canRetry j); reflexivity.
Qed.

Lemma addJob_io_no_faults (e : Env) (s : Store) (details : string) (d : JobData) :
  addJob_io no_faults e s details d
  = (fst (addJob e s d), outcome details (snd (addJob e s d))).
Proof.
  unfold addJob_io, addJob, findDuplicateJob_io, storeJob_io.
  cbn [scan_fails store_fails no_faults].
  destruct (findDuplicateJob e s d) as [dup|]; [reflexivity|].
  destruct (create e d); reflexivity.
Qed.

Lemma getJob_io_Some (f : Faults) (e : Env) (s : Store) (jobId : string) (j : Job) :
  getJob_io f e s jobId = Some j -> getJob e s jobId = Some j.
Proof. unfold getJob_io. destruct (getJob_fails f); [discriminate | auto]. Qed.

(** ** The job routes *)

(** X21: the cancel and the retry route answer 404 and write nothing when
    [getJob] gives no job, also when its read threw.  For a job that
    [getJob] gives: cancel answers 500 with the service's message when the
    job is completed or failed, retry answers 400 when [canRetry] is false,
    and neither writes.  Otherwise the answer is 200 with the write of the
    service, provided that [storeJob] and, for retry, [jobQueue.add] do not
    throw; the retry answer carries the status retrying when
    [retry_count + 1 <= max_retries].  When [jobQueue.add] throws after the
    write, the retry answer is not 200 and the record stays rewritten. *)
Theorem cancel_retry_routes :
  forall (f : Faults) (e : Env) (s : Store) (jobId : string),
    (getJob_io f e s jobId = None ->
     route_cancel f e s jobId =
       (s, mkHttp 404 (JsonError "Job not found" None (Some jobId) None)) /\
     route_retry f e s jobId =
       (s, mkHttp 404 (JsonError "Job not found" None (Some jobId) None))) /\
    (forall j : Job,
        getJob_io f e s jobId = Some j ->
        (done (status j) = true ->
         route_cancel f e s jobId =
           (s, mkHttp 500 (JsonError "Failed to cancel job"
                             (Some "Cannot cancel completed or failed job")
                             None None))) /\
        (done (status j) = false -> store_fails f = None ->
         route_cancel f e s jobId =
           (fst (cancelJob e s jobId),
            mkHttp 200 (JsonResult (mkResponse jobId CANCELLED
                                      "Job cancelled successfully")))) /\
        (canRetry j = false ->
         route_retry f e s jobId =
           (s, mkHttp 400 (JsonError "Job cannot be retried"
                             (Some "Job cannot be retried") None None))) /\
        (canRetry j = true -> store_fails f = None -> queue_fails f = None ->
         exists st : JobStatus,
           route_retry f e s jobId =
             (fst (retryJob e s jobId),
              mkHttp 200 (JsonResult (mkResponse jobId st "Job queued for retry"))) /\
           (retry_count j + 1 <= max_retries j -> st = RETRYING)) /\
        (canRetry j = true -> store_fails f = None ->
         forall msg : string,
           queue_fails f = Some msg ->
           fst (route_retry f e s jobId) = fst (retryJob e s jobId) /\
           h_code (snd (route_retry f e s jobId)) <> 200)).
Proof.
  intros f e s jobId. split.
  - intros G. unfold route_cancel, route_retry, cancelJob_io, retryJob_io.
    rewrite G. split; reflexivity.
  - intros j G. pose proof (getJob_io_Some _ _ _ _ _ G) as G'.
    unfold route_cancel, route_retry, cancelJob_io, retryJob_io, cancelJob,
      retryJob, storeJob_io, updateJob.
    rewrite G, G'.
    split; [|split; [|split; [|split]]].
    + intros D. rewrite D. reflexivity.
    + intros D S. rewrite D, S. reflexivity.
    + intros C. rewrite C. reflexivity.
    + intros C S Q. rewrite C, S, Q. cbv zeta. cbn [fst].
      exists (status (incrementRetry (clock e) j)). split; [reflexivity|].
      intros Hlim. rewrite (incrementRetry_within _ _ Hlim). reflexivity.
    + intros C S msg Q. rewrite C, S, Q. cbv zeta.
      destruct (includes "not found" msg);
        [|destruct (includes "cannot be retried" msg)];
        cbn [fst snd h_code]; split; try reflexivity; discriminate.
Qed.

Lemma cancel_retry_routes_witness :
  route_cancel no_faults env1 [] id0 =
    ([], mkHttp 404 (JsonError "Job not found" None (Some id0) None)) /\
  route_cancel no_faults env2 store_failed id0 =
    (store_failed,
     mkHttp 500 (JsonError "Failed to cancel job"
                   (Some "Cannot cancel completed or failed job") None None)) /\
  route_cancel no_faults env1 store0 id0 =
    (fst (cancelJob env1 store0 id0),
     mkHttp 200 (JsonResult (mkResponse id0 CANCELLED "Job cancelled successfully"))) /\
  route_retry no_faults env1 store0 id0 =
    (store0, mkHttp 400 (JsonError "Job cannot be retried"
                           (Some "Job cannot be retried") None None)) /\
  (exists st : JobStatus,
      route_retry no_faults env2 store_failed id0 =
        (fst (retryJob env2 store_failed id0),
         mkHttp 200 (JsonResult (mkResponse id0 st "Job queued for retry"))) /\
      (retry_count job_failed + 1 <= max_retries job_failed -> st = RETRYING)) /\
  fst (route_retry queue_down env2 store_failed id0)
    = fst (retryJob env2 store_failed id0) /\
  h_code (snd (route_retry queue_down env2 store_failed id0)) <> 200.
Proof.
  pose proof (cancel_retry_routes no_faults env1 [] id0) as [H404 _].
  pose proof (cancel_retry_routes no_faults env2 store_failed id0) as [_ Hf].
  pose proof (cancel_retry_routes no_faults env1 store0 id0) as [_ H0].
  pose proof (cancel_retry_routes queue_down env2 store_failed id0) as [_ Hq].
  specialize (Hf job_failed ltac:(vm_compute; reflexivity)).
  specialize (H0 job0 ltac:(reflexivity)).
  specialize (Hq job_failed ltac:(vm_compute; reflexivity)).
  destruct Hf as (Hf1 & _ & _ & Hf4 & _).
  destruct H0 as (_ & H02 & H03 & _).
  destruct Hq as (_ & _ & _ & _ & Hq5).
  split; [exact (proj1 (H404 eq_refl))|].
  split; [exact (Hf1 eq_refl)|].
  split; [exact (H02 eq_refl eq_refl)|].
  split; [exact (H03 eq_refl)|].
  split; [exact (Hf4 eq_refl eq_refl eq_refl)|].
  exact (Hq5 eq_refl eq_refl "Connection is closed." eq_refl).
Defined.

(** A retry whose [jobQueue.add] throws is answered 500, and the record is
    retrying with its count raised all the same. *)
Example retry_queue_down :
  snd (route_retry queue_down env2 store_failed id0) =
    mkHttp 500 (JsonError "Failed to retry job" (Some "Connection is closed.")
                  None None) /\
  exists j', getJob env2 (fst (route_retry queue_down env2 store_failed id0)) id0
             = Some j' /\
             status j' = RETRYING /\ retry_count j' = 1.
Proof.
  split; [vm_compute; reflexivity|].
  eexists. split; [vm_compute; reflexivity|]. split; reflexivity.
Qed.


(** When the duplicate scan cannot read, the submission of [store0] again
    is stored as a second job. *)
Example submit_scan_down :
  h_code (snd (route_submit scan_down env1 store0 ""
                 (submission "acme" "v1" "a.spec" EMULATOR))) = 201 /\
  List.length (redis_keys (fst (route_submit scan_down env1 store0 ""
                                  (submission "acme" "v1" "a.spec" EMULATOR))))
  = 2%nat.
Proof. split; reflexivity. Qed.

(** When Redis refuses the write, a new submission is answered 500 and the
    key space is as before. *)
Example submit_store_down :
  route_submit store_down env1 store0 "" (submission "acme" "v1" "b.spec" EMULATOR)
  = (store0,
     mkHttp 500 (JsonError "Failed to submit job"
                   (Some "connect ECONNREFUSED 127.0.0.1:6379") None None)).
Proof. vm_compute. reflexivity. Qed.

(** ** The error handler *)

(** X23: unless [NODE_ENV] is [development], the error handler never sends
    the stack, and it sends the error's own message only with status 400 or
    404: every other answer carries one of five fixed texts. *)
Theorem errorHandler_hides_details :
  forall (node_env : option string) (err : JsError),
    node_env <> Some "development" ->
    b_stack (snd (errorHandler node_env err)) = None /\
    (fst (errorHandler node_env err) = 400 \/
     fst (errorHandler node_env err) = 404 \/
     In (b_message (snd (errorHandler node_env err))) fixed_messages).
Proof.
  intros node_env err Hn.
  assert (Hd : opt_eqb String.eqb node_env (Some "development") = false).
  { destruct node_env as [v|]; [|reflexivity]. cbn [opt_eqb].
    apply String.eqb_neq. congruence. }
  unfold errorHandler. rewrite Hd.
  repeat match goal with
         | |- context [if ?b then _ else _] => destruct b
         end; cbn [fst snd b_stack b_message]; split; try reflexivity;
    auto; right; right; unfold fixed_messages; simpl; auto 10.
Qed.

Lemma errorHandler_hides_details_witness :
  b_stack (snd (errorHandler (Some "production") redis_refused)) = None /\
  (fst (errorHandler (Some "production") redis_refused) = 400 \/
   fst (errorHandler (Some "production") redis_refused) = 404 \/
   In (b_message (snd (errorHandler (Some "production") redis_refused)))
      fixed_messages).
Proof.
  refine (errorHandler_hides_details (Some "production") redis_refused _).
  discriminate.
Defined.

Example errorHandler_redis_refused :
  errorHandler (Some "production") redis_refused =
    (503, mkErrorBody "Service Unavailable"
            "Queue service temporarily unavailable" None None).
Proof. vm_compute. reflexivity. Qed.
